(** * hardyplan: the day-indexed schedule store, the scrape-skip decision
      and the ingestion endpoint

    A shallow embedding of the storage layer [lib/kv.ts] (the day-keyed
    variant in full, the freshness decision of the week-keyed variant),
    of [lib/firecrawl.ts] and [lib/llm-parser.ts], and of the routes
    [app/api/scrape/route.ts], [app/api/schedules/[date]/route.ts] and
    [app/api/schedules/today/route.ts], followed by the properties of
    the specification stated over it.

    Conventions of the embedding.
    - JavaScript numbers that the program manipulates are integers (epoch
      milliseconds, day counts, day and month numbers); they are embedded
      as [Z], with [NaN] added where the program can produce it.
      Strings are byte strings; the Polish messages of the routes are
      written without diacritics.
    - The Redis database is a record of finite maps, one per key family;
      the section on keys shows that the families do not meet.
    - Asynchronous functions are computations in a state-and-exception
      monad over the [World]: the database, the wall clock, the zone
      offset of the process and the pending storage faults.  A Redis
      command consumes one fault flag and throws when it is set.
    - The Firecrawl client and the language model are outside the
      program: a run receives their answers as [Collaborators].
    - One top-level call reads a single clock value: the milliseconds
      that elapse inside one call are not modelled, and so neither is
      the [duration] field of the scrape response.  Distinct calls may
      run at distinct instants.
    - Console output is not modelled. *)

From Stdlib Require Import ZArith Lia String Ascii List Bool DecimalString.
From stdpp Require Import base option gmap strings list sorting.

Import ListNotations.
Local Open Scope string_scope.
Local Open Scope Z_scope.

(* ================================================================== *)
(** * JavaScript primitives used by the program                        *)
(* ================================================================== *)

Module JS.

(** ** Numbers *)

(** The result of [Number(s)]: an integer or [NaN]. *)
Inductive num : Type :=
| NaN
| Num (z : Z).

Definition num_eqb (a : num) (z : Z) : bool :=
  match a with
  | NaN => false
  | Num x => x =? z
  end.

(** [n.toString()] *)
Definition toString (n : num) : string :=
  match n with
  | NaN => "NaN"
  | Num z => NilZero.string_of_int (Z.to_int z)
  end.

Definition showZ (z : Z) : string := toString (Num z).

(** ** Strings *)

Definition isDigit (c : ascii) : bool :=
  let n := nat_of_ascii c in (48 <=? n)%nat && (n <=? 57)%nat.

Definition digitVal (c : ascii) : Z := Z.of_nat (nat_of_ascii c) - 48.

Fixpoint allDigits (s : string) : bool :=
  match s with
  | EmptyString => true
  | String c r => isDigit c && allDigits r
  end.

Fixpoint digitsValue (acc : Z) (s : string) : Z :=
  match s with
  | EmptyString => acc
  | String c r => digitsValue (10 * acc + digitVal c) r
  end.

(** [Number(s)].  Exact on the empty string and on strings of decimal
    digits below 2^53, which is what the two halves of a [DD.MM] date
    are; the other literal forms of the language (sign, white space,
    exponent, radix prefix, [Infinity]) are approximated by [NaN]. *)
Definition Number (s : string) : num :=
  if allDigits s then Num (digitsValue 0 s) else NaN.

(** [s.split(sep)] for a one-character separator. *)
Fixpoint split (sep : ascii) (s : string) : list string :=
  match s with
  | EmptyString => [EmptyString]
  | String c r =>
      if Ascii.eqb c sep then EmptyString :: split sep r
      else match split sep r with
           | h :: t => String c h :: t
           | [] => [String c EmptyString]
           end
  end.

Fixpoint replicate (n : nat) (c : ascii) : string :=
  match n with
  | O => EmptyString
  | S k => String c (replicate k c)
  end.

(** [s.padStart(n, c)] for a one-character filler. *)
Definition padStart (n : nat) (c : ascii) (s : string) : string :=
  replicate (n - String.length s) c ++ s.

Fixpoint startsWith (p s : string) : bool :=
  match p, s with
  | EmptyString, _ => true
  | String a p', String b s' => Ascii.eqb a b && startsWith p' s'
  | String _ _, EmptyString => false
  end.

(** [s.includes(p)] *)
Fixpoint includes (s p : string) : bool :=
  startsWith p s ||
  match s with
  | EmptyString => false
  | String _ r => includes r p
  end.

(** ** Dates

    A [Date] holds a time value: milliseconds since the epoch, UTC.  The
    civil calendar is the proleptic Gregorian one. *)

Definition msPerDay : Z := 1000 * 60 * 60 * 24.

Definition daysFromCivil (y m d : Z) : Z :=
  let y' := if m <=? 2 then y - 1 else y in
  let era := y' / 400 in
  let yoe := y' - era * 400 in
  let doy := (153 * (if 2 <? m then m - 3 else m + 9) + 2) / 5 + d - 1 in
  let doe := yoe * 365 + yoe / 4 - yoe / 100 + doy in
  era * 146097 + doe - 719468.

Definition civilFromDays (z : Z) : Z * Z * Z :=
  let z := z + 719468 in
  let era := z / 146097 in
  let doe := z - era * 146097 in
  let yoe := (doe - doe / 1460 + doe / 36524 - doe / 146096) / 365 in
  let y := yoe + era * 400 in
  let doy := doe - (365 * yoe + yoe / 4 - yoe / 100) in
  let mp := (5 * doy + 2) / 153 in
  let d := doy - (153 * mp + 2) / 5 + 1 in
  let m := if mp <? 10 then mp + 3 else mp - 9 in
  (if m <=? 2 then y + 1 else y, m, d).

(** Time value of the civil instant [y-m-d h:mi:s.ms], UTC. *)
Definition utcTime (y m d h mi s ms : Z) : Z :=
  daysFromCivil y m d * msPerDay + ((h * 60 + mi) * 60 + s) * 1000 + ms.

Section Zone.

(** Offset of local time from UTC, in milliseconds (local = UTC + tz). *)
Variable tz : Z.

Definition localDay (t : Z) : Z := (t + tz) / msPerDay.

(** [d.getFullYear()] *)
Definition getFullYear (t : Z) : Z :=
  let '(y, _, _) := civilFromDays (localDay t) in y.

(** [d.getMonth()], zero-based *)
Definition getMonth (t : Z) : Z :=
  let '(_, m, _) := civilFromDays (localDay t) in m - 1.

(** [d.getDate()] *)
Definition getDate (t : Z) : Z :=
  let '(_, _, d) := civilFromDays (localDay t) in d.

(** [d.setHours(0, 0, 0, 0)]: local midnight of the local day of [t]. *)
Definition setHours0 (t : Z) : Z := localDay t * msPerDay - tz.

(** [new Date(year, monthIndex, day)]: local midnight of the civil day;
    month and day fields out of range roll over, two-digit years are
    taken in the twentieth century, and a [NaN] field gives an invalid
    date. *)
Definition newDate (year : Z) (monthIndex day : num) : option Z :=
  match monthIndex, day with
  | Num m, Num d =>
      let year := if (0 <=? year) && (year <=? 99) then 1900 + year else year in
      Some ((daysFromCivil (year + m / 12) (m mod 12 + 1) 1 + d - 1) * msPerDay - tz)
  | _, _ => None
  end.

(** [d.setFullYear(year)]: same local month, day of month and time. *)
Definition setFullYear (t : Z) (year : Z) : Z :=
  let '(_, m, d) := civilFromDays (localDay t) in
  (daysFromCivil year m 1 + d - 1) * msPerDay + (t + tz) mod msPerDay - tz.

End Zone.

Definition pad (n : nat) (z : Z) : string := padStart n "0" (showZ z).

(** The year of [toISOString]: four digits, or a sign and six digits. *)
Definition isoYear (y : Z) : string :=
  if (0 <=? y) && (y <=? 9999) then pad 4 y
  else if y <? 0 then "-" ++ pad 6 (- y)
  else "+" ++ pad 6 y.

(** [d.toISOString()] *)
Definition toISOString (t : Z) : string :=
  let '(y, m, d) := civilFromDays (t / msPerDay) in
  let r := t mod msPerDay in
  isoYear y ++ "-" ++ pad 2 m ++ "-" ++ pad 2 d ++ "T" ++
  pad 2 (r / 3600000) ++ ":" ++ pad 2 (r / 60000 mod 60) ++ ":" ++
  pad 2 (r / 1000 mod 60) ++ "." ++ pad 3 (r mod 1000) ++ "Z".

(** [new Date(s)] for a member of the date index.  The date-only ISO form
    [YYYY-MM-DD] denotes UTC midnight; as in V8 the day field may run up
    to 31 in any month and then rolls over.  Every other string is taken
    as an invalid date ([None]), whose comparisons are all false. *)
Definition parseDate (s : string) : option Z :=
  match split "-" s with
  | [ys; ms; ds] =>
      if (String.length ys =? 4)%nat && (String.length ms =? 2)%nat &&
         (String.length ds =? 2)%nat &&
         allDigits ys && allDigits ms && allDigits ds
      then
        let y := digitsValue 0 ys in
        let m := digitsValue 0 ms in
        let d := digitsValue 0 ds in
        if (1 <=? m) && (m <=? 12) && (1 <=? d) && (d <=? 31)
        then Some ((daysFromCivil y m 1 + d - 1) * msPerDay)
        else None
      else None
  | _ => None
  end.

(** [a > b] on dates *)
Definition dateGt (a b : option Z) : bool :=
  match a, b with
  | Some x, Some y => y <? x
  | _, _ => false
  end.

(** [Math.ceil(a / b)] and [Math.floor(a / b)] for integers, [b > 0]. *)
Definition ceilDiv (a b : Z) : Z := - ((- a) / b).

Definition floorDiv (a b : Z) : Z := a / b.

End JS.

(* ================================================================== *)
(** * Data model ([lib/types.ts])                                      *)
(* ================================================================== *)

Record TrainingSession : Type := {
  type : string;
  exercises : list string;
  trainingMethod : string;
  mainPartDuration : string;
}.

Record DaySchedule : Type := {
  date : string;                    (* DD.MM *)
  dayName : string;
  isoDate : option string;          (* YYYY-MM-DD *)
  sourceUrl : option string;
  scrapedAt : option string;
  trainingSessions : list TrainingSession;
}.

Record WeekSchedule : Type := {
  week : string;                    (* DD/MM/YYYY-DD/MM/YYYY *)
  week_sourceUrl : string;
  week_scrapedAt : string;
  days : list DaySchedule;
}.

Record ScrapingResult : Type := {
  success : bool;
  schedulesProcessed : nat;
  errors : list string;
  urls : list string;
  timestamp : string;
}.

(** The value stored under [schedules:week:{week}]. *)
Record WeekMeta : Type := {
  meta_week : string;
  meta_sourceUrl : string;
  meta_scrapedAt : string;
  meta_dayCount : nat;
}.

(** The value stored under [logs:scraping:{date}]: the result, with the
    skip fields when the run was skipped. *)
Record LogEntry : Type := {
  log_result : ScrapingResult;
  log_skip : option (string * Z);   (* skipReason, daysAhead *)
}.

(* ================================================================== *)
(** * The Redis database                                               *)
(* ================================================================== *)

(** One finite map per key family of the storage layout.  Each map is
    indexed by the variable part of the key. *)
Record DB : Type := {
  dayRecords : gmap string DaySchedule;  (* schedules:day:{YYYY-MM-DD} *)
  daysList : gmap string Z;              (* schedules:days:list, member to score *)
  weekRecords : gmap string WeekMeta;    (* schedules:week:{week} *)
  latestUpdate : option Z;               (* schedules:latest_update *)
  scrapingLogs : gmap string LogEntry;   (* logs:scraping:{date} *)
}.

Definition emptyDB : DB :=
  {| dayRecords := ∅; daysList := ∅; weekRecords := ∅;
     latestUpdate := None; scrapingLogs := ∅ |}.

(** The key strings the program builds. *)
Definition dayKey (isoDate : string) : string := "schedules:day:" ++ isoDate.

Definition weekKey (week : string) : string := "schedules:week:" ++ week.

Definition logKey (day : string) : string := "logs:scraping:" ++ day.

Definition daysListKey : string := "schedules:days:list".

Definition latestUpdateKey : string := "schedules:latest_update".

(** ** Sorted sets *)

(** Order of a sorted set: by score, ties by member, bytewise. *)
Definition zle (a b : string * Z) : bool :=
  (a.2 <? b.2) || ((a.2 =? b.2) && String.leb a.1 b.1).

Fixpoint zinsert (x : string * Z) (l : list (string * Z)) : list (string * Z) :=
  match l with
  | [] => [x]
  | y :: r => if zle x y then x :: y :: r else y :: zinsert x r
  end.

Definition zsort (l : list (string * Z)) : list (string * Z) :=
  foldr zinsert [] l.

(** [zle] as a relation. *)
Definition zleP (a b : string * Z) : Prop := zle a b = true.

(** [ZRANGE key 0 -1], with [REV] when [rev] is set. *)
Definition zrangeAll (rev : bool) (z : gmap string Z) : list string :=
  let asc := (zsort (map_to_list z)).*1 in
  if rev then reverse asc else asc.

(* ================================================================== *)
(** * Computations                                                     *)
(* ================================================================== *)

Inductive Exn : Type :=
| TypeError (msg : string)
| RedisError (msg : string)
| Error (msg : string).

(** [error.message] *)
Definition message (e : Exn) : string :=
  match e with
  | TypeError m | RedisError m | Error m => m
  end.

(** The world a call runs in.  [faults] tells, for the Redis commands
    still to come, which ones fail ([true] = the command throws); past
    the end of the list every command succeeds. *)
Record World : Type := {
  db : DB;
  clock : Z;          (* epoch milliseconds *)
  tz : Z;             (* zone offset of the process, milliseconds *)
  faults : list bool;
}.

Definition M (A : Type) : Type := World -> (Exn + A) * World.

Definition ret {A} (a : A) : M A := fun w => (inr a, w).

Definition bind {A B} (m : M A) (k : A -> M B) : M B :=
  fun w => match m w with
           | (inr a, w') => k a w'
           | (inl e, w') => (inl e, w')
           end.

Definition throw {A} (e : Exn) : M A := fun w => (inl e, w).

(** [try { m } catch (e) { h e }] *)
Definition try {A} (m : M A) (h : Exn -> M A) : M A :=
  fun w => match m w with
           | (inr a, w') => (inr a, w')
           | (inl e, w') => h e w'
           end.

Notation "x <- c ;; k" := (bind c (fun x => k))
  (at level 100, c at next level, right associativity).

Notation "c ;;; k" := (bind c (fun _ => k))
  (at level 100, right associativity).

(** [Date.now()] and the time value of [new Date()]. *)
Definition Date_now : M Z := fun w => (inr (clock w), w).

Definition zone : M Z := fun w => (inr (tz w), w).

Definition setDB (d : DB) (w : World) : World :=
  {| db := d; clock := clock w; tz := tz w; faults := faults w |}.

Definition popFault (w : World) : World :=
  {| db := db w; clock := clock w; tz := tz w; faults := tail (faults w) |}.

(** A Redis command: fails when the next fault flag is set, else runs
    on the database. *)
Definition command {A} (f : DB -> A * DB) : M A :=
  fun w => match faults w with
           | true :: _ => (inl (RedisError "fetch failed"), popFault w)
           | _ => let '(a, d) := f (db w) in (inr a, setDB d (popFault w))
           end.

(** The effect of the write commands on the database. *)
Definition putDay (iso : string) (v : DaySchedule) (d : DB) : DB :=
  {| dayRecords := <[iso := v]> (dayRecords d); daysList := daysList d;
     weekRecords := weekRecords d; latestUpdate := latestUpdate d;
     scrapingLogs := scrapingLogs d |}.

Definition putWeek (wk : string) (v : WeekMeta) (d : DB) : DB :=
  {| dayRecords := dayRecords d; daysList := daysList d;
     weekRecords := <[wk := v]> (weekRecords d); latestUpdate := latestUpdate d;
     scrapingLogs := scrapingLogs d |}.

Definition putLatestUpdate (t : Z) (d : DB) : DB :=
  {| dayRecords := dayRecords d; daysList := daysList d;
     weekRecords := weekRecords d; latestUpdate := Some t;
     scrapingLogs := scrapingLogs d |}.

Definition putLog (day : string) (v : LogEntry) (d : DB) : DB :=
  {| dayRecords := dayRecords d; daysList := daysList d;
     weekRecords := weekRecords d; latestUpdate := latestUpdate d;
     scrapingLogs := <[day := v]> (scrapingLogs d) |}.

(** [ZADD]: adds the member or moves it to the new score. *)
Definition zadd (score : Z) (member : string) (d : DB) : DB :=
  {| dayRecords := dayRecords d; daysList := <[member := score]> (daysList d);
     weekRecords := weekRecords d; latestUpdate := latestUpdate d;
     scrapingLogs := scrapingLogs d |}.

Module Redis.

(** [redis.set("schedules:day:" + iso, v)] *)
Definition setDay (iso : string) (v : DaySchedule) : M unit :=
  command (fun d => (tt, putDay iso v d)).

(** [redis.set("schedules:week:" + wk, v)] *)
Definition setWeek (wk : string) (v : WeekMeta) : M unit :=
  command (fun d => (tt, putWeek wk v d)).

(** [redis.set("schedules:latest_update", t)] *)
Definition setLatestUpdate (t : Z) : M unit :=
  command (fun d => (tt, putLatestUpdate t d)).

(** [redis.set("logs:scraping:" + day, v, { ex })]; expiry is not modelled. *)
Definition setLog (day : string) (v : LogEntry) : M unit :=
  command (fun d => (tt, putLog day v d)).

(** [redis.zadd("schedules:days:list", { score, member })] *)
Definition zaddDay (score : Z) (member : string) : M unit :=
  command (fun d => (tt, zadd score member d)).

(** [redis.get("schedules:day:" + iso)] *)
Definition getDay (iso : string) : M (option DaySchedule) :=
  command (fun d => (dayRecords d !! iso, d)).

(** [redis.get("schedules:latest_update")] *)
Definition getLatestUpdate : M (option Z) :=
  command (fun d => (latestUpdate d, d)).

(** [redis.exists("schedules:day:" + iso)] *)
Definition existsDay (iso : string) : M Z :=
  command (fun d => (match dayRecords d !! iso with Some _ => 1 | None => 0 end, d)).

(** [redis.exists("schedules:week:" + wk)] *)
Definition existsWeek (wk : string) : M Z :=
  command (fun d => (match weekRecords d !! wk with Some _ => 1 | None => 0 end, d)).

(** [redis.zrange("schedules:days:list", 0, -1, { rev })] *)
Definition zrangeDays (rev : bool) : M (list string) :=
  command (fun d => (zrangeAll rev (daysList d), d)).

End Redis.

(* ================================================================== *)
(** * The storage layer ([lib/kv.ts], day-keyed)                       *)
(* ================================================================== *)

(** What [month.toString()] throws when [month] is [undefined]. *)
Definition undefinedMonth : Exn :=
  TypeError "Cannot read properties of undefined (reading 'toString')".

(** The body of [convertToISODate] once [date.split(".").map(Number)]
    has been destructured into [day] and [month] and the clock has been
    read.  [month] is [None] when the date has no second component
    ([undefined]), and then [month.toString()] throws. *)
Definition isoDateOf (tz now : Z) (day : JS.num) (month : option JS.num)
  : Exn + string :=
  let year := JS.getFullYear tz now in
  let monthIs (k : Z) :=
    match month with Some m => JS.num_eqb m k | None => false end in
  let year := if (JS.getMonth tz now =? 0) && monthIs 12 then year - 1 else year in
  let year := if (JS.getMonth tz now =? 11) && monthIs 1 then year + 1 else year in
  match month with
  | None => inl undefinedMonth
  | Some m =>
      inr (JS.showZ year ++ "-" ++ JS.padStart 2 "0" (JS.toString m) ++ "-" ++
           JS.padStart 2 "0" (JS.toString day))
  end.

Definition convertToISODate (date : string) : M string :=
  let parts := JS.Number <$> JS.split "." date in
  now <- Date_now ;;
  z <- zone ;;
  match parts with
  | day :: month :: _ =>
      match isoDateOf z now day (Some month) with inl e => throw e | inr s => ret s end
  | [day] =>
      match isoDateOf z now day None with inl e => throw e | inr s => ret s end
  | [] => throw (TypeError "unreachable: split returns at least one part")
  end.

(** The record written for one day: [{...day, isoDate, sourceUrl, scrapedAt}]. *)
Definition storedDay (schedule : WeekSchedule) (day : DaySchedule) (iso : string)
  : DaySchedule :=
  {| date := date day; dayName := dayName day;
     isoDate := Some iso;
     sourceUrl := Some (week_sourceUrl schedule);
     scrapedAt := Some (week_scrapedAt schedule);
     trainingSessions := trainingSessions day |}.

(** The [for (const day of schedule.days)] loop of [storeWeekSchedule]. *)
Fixpoint storeDays (schedule : WeekSchedule) (now : Z)
  (ds : list DaySchedule) (storedCount : nat) : M nat :=
  match ds with
  | [] => ret storedCount
  | day :: rest =>
      iso <- convertToISODate (date day) ;;
      Redis.setDay iso (storedDay schedule day iso) ;;;
      Redis.zaddDay now iso ;;;
      storeDays schedule now rest (S storedCount)
  end.

Definition storeWeekSchedule (schedule : WeekSchedule) : M nat :=
  try (now <- Date_now ;;
       storedCount <- storeDays schedule now (days schedule) 0 ;;
       Redis.setWeek (week schedule)
         {| meta_week := week schedule;
            meta_sourceUrl := week_sourceUrl schedule;
            meta_scrapedAt := week_scrapedAt schedule;
            meta_dayCount := length (days schedule) |} ;;;
       Redis.setLatestUpdate now ;;;
       ret storedCount)
      (fun _ => ret 0%nat).

Definition dayScheduleExists (iso : string) : M bool :=
  try (n <- Redis.existsDay iso ;; ret (n =? 1))
      (fun _ => ret false).

Definition weekScheduleExists (wk : string) : M bool :=
  try (n <- Redis.existsWeek wk ;; ret (n =? 1))
      (fun _ => ret false).

Definition getDayScheduleByISO (iso : string) : M (option DaySchedule) :=
  try (Redis.getDay iso)
      (fun _ => ret None).

(** [Promise.all(dates.map(getDayScheduleByISO))], taken in order. *)
Fixpoint fetchAll (dates : list string) : M (list (option DaySchedule)) :=
  match dates with
  | [] => ret []
  | d :: rest =>
      s <- getDayScheduleByISO d ;;
      ss <- fetchAll rest ;;
      ret (s :: ss)
  end.

Definition getAllDaySchedules : M (list DaySchedule) :=
  try (dates <- Redis.zrangeDays true ;;
       match dates with
       | [] => ret []
       | _ =>
           schedules <- fetchAll dates ;;
           ret (omap id schedules)
       end)
      (fun _ => ret []).

Definition getDaySchedule (date : string) : M (option DaySchedule) :=
  try (iso <- convertToISODate date ;;
       getDayScheduleByISO iso)
      (fun _ => ret None).

(** [today.toISOString().split("T")[0]] *)
Definition utcDateString (t : Z) : string :=
  match JS.split "T" (JS.toISOString t) with
  | s :: _ => s
  | [] => ""
  end.

Definition getTodaySchedule : M (option DaySchedule) :=
  try (today <- Date_now ;;
       getDayScheduleByISO (utcDateString today))
      (fun _ => ret None).

Definition logScrapingOperation (result : LogEntry) : M unit :=
  try (today <- Date_now ;;
       Redis.setLog (utcDateString today) result)
      (fun _ => ret tt).

(** ** The freshness decision *)

Record SkipCheck : Type := {
  shouldSkip : bool;
  reason : string;
  daysAhead : Z;
}.

(** One step of the search for the latest date of the index. *)
Definition laterDate (maxDate : Z) (dateStr : string) : Z :=
  if JS.dateGt (JS.parseDate dateStr) (Some maxDate)
  then default maxDate (JS.parseDate dateStr)
  else maxDate.

(** [Math.ceil((maxDate - today) / msPerDay)] with [today] the local
    midnight of [now] and [maxDate] the latest date of [dates], not
    before [today]. *)
Definition daysAheadOf (tz now : Z) (dates : list string) : Z :=
  let today := JS.setHours0 tz now in
  let maxDate := fold_left laterDate dates today in
  JS.ceilDiv (maxDate - today) JS.msPerDay.

(** [lastUpdate ? Math.floor((Date.now() - lastUpdate) / msPerDay) : 999] *)
Definition daysSinceUpdateOf (now : Z) (lastUpdate : option Z) : Z :=
  match lastUpdate with
  | Some t => if t =? 0 then 999 else JS.floorDiv (now - t) JS.msPerDay
  | None => 999
  end.

Definition shouldSkipScraping : M SkipCheck :=
  try (dates <- Redis.zrangeDays false ;;
       match dates with
       | [] =>
           ret {| shouldSkip := false; reason := "No schedules in database";
                  daysAhead := 0 |}
       | _ =>
           today <- Date_now ;;
           z <- zone ;;
           let daysAhead := daysAheadOf z today dates in
           lastUpdate <- Redis.getLatestUpdate ;;
           now <- Date_now ;;
           let daysSinceUpdate := daysSinceUpdateOf now lastUpdate in
           if (14 <=? daysAhead) && (daysSinceUpdate <? 5) then
             ret {| shouldSkip := true;
                    reason := "Have " ++ JS.showZ daysAhead ++
                              " days of schedules, last updated " ++
                              JS.showZ daysSinceUpdate ++ " days ago";
                    daysAhead := daysAhead |}
           else
             ret {| shouldSkip := false;
                    reason := "Only " ++ JS.showZ daysAhead ++
                              " days ahead, last updated " ++
                              JS.showZ daysSinceUpdate ++ " days ago";
                    daysAhead := daysAhead |}
       end)
      (fun _ =>
         ret {| shouldSkip := false; reason := "Error checking schedules";
                daysAhead := 0 |}).

(* ================================================================== *)
(** * The earlier storage layer ([lib/kv.ts], week-keyed)              *)
(* ================================================================== *)

(** The week-keyed variant of the storage layer keeps whole weeks under
    [schedules:{week}].  Only its freshness decision is embedded; its two
    reads are taken by their outcome: [schedules] is what
    [getAllWeekSchedules] returned (the empty list when its own reads
    failed) and [lastUpdate] is the outcome of the read of
    [schedules:latest_update]. *)
Module WeekKeyed.

(** The date of one day of a stored week: [DD.MM] in the year of
    [today], moved to the next year for a January date already past. *)
Definition dayDate (tz today : Z) (dateStr : string) : option Z :=
  let parts := JS.Number <$> JS.split "." dateStr in
  let dayNum := default JS.NaN (parts !! 0%nat) in
  let monthNum := parts !! 1%nat in
  let year := JS.getFullYear tz today in
  let monthIndex :=
    match monthNum with Some (JS.Num m) => JS.Num (m - 1) | _ => JS.NaN end in
  let monthIs1 :=
    match monthNum with Some m => JS.num_eqb m 1 | None => false end in
  match JS.newDate tz year monthIndex dayNum with
  | Some t =>
      if (t <? today) && monthIs1
      then Some (JS.setFullYear tz t (year + 1))
      else Some t
  | None => None
  end.

Definition laterDay (tz today : Z) (maxDate : Z) (day : DaySchedule) : Z :=
  match dayDate tz today (date day) with
  | Some t => if maxDate <? t then t else maxDate
  | None => maxDate
  end.

Definition daysAheadOf (tz now : Z) (schedules : list WeekSchedule) : Z :=
  let today := JS.setHours0 tz now in
  let maxDate :=
    fold_left (fun m schedule => fold_left (laterDay tz today) (days schedule) m)
      schedules today in
  JS.ceilDiv (maxDate - today) JS.msPerDay.

Definition shouldSkipScraping (tz now : Z) (schedules : list WeekSchedule)
  (lastUpdate : Exn + option Z) : SkipCheck :=
  match schedules with
  | [] =>
      {| shouldSkip := false; reason := "No schedules in database"; daysAhead := 0 |}
  | _ =>
      let daysAhead := daysAheadOf tz now schedules in
      match lastUpdate with
      | inl _ =>
          {| shouldSkip := false; reason := "Error checking schedules";
             daysAhead := 0 |}
      | inr lastUpdate =>
          let daysSinceUpdate := daysSinceUpdateOf now lastUpdate in
          if (14 <=? daysAhead) && (daysSinceUpdate <? 5) then
            {| shouldSkip := true;
               reason := "Have " ++ JS.showZ daysAhead ++
                         " days of schedules, last updated " ++
                         JS.showZ daysSinceUpdate ++ " days ago";
               daysAhead := daysAhead |}
          else
            {| shouldSkip := false;
               reason := "Only " ++ JS.showZ daysAhead ++
                         " days ahead, last updated " ++
                         JS.showZ daysSinceUpdate ++ " days ago";
               daysAhead := daysAhead |}
      end
  end.

End WeekKeyed.

(* ================================================================== *)
(** * The external collaborators                                       *)
(* ================================================================== *)

(** An element of [scrapeResult.links]: a string, or an object with an
    optional [url]. *)
Inductive Link : Type :=
| LinkStr (url : string)
| LinkObj (url : option string).

(** The object the language model returns: the week schedule without
    [sourceUrl] and [scrapedAt]. *)
Record ParsedWeek : Type := {
  parsed_week : string;
  parsed_days : list DaySchedule;
}.

Record Post : Type := {
  markdown : string;
  url : string;
}.

(** What the outside world answers during one request.
    - [categoryLinks]: [firecrawl.scrape(categoryUrl, {formats: ["links"]})],
      the [links] field of the answer if any;
    - [postMarkdown u]: [firecrawl.scrape(u, {formats: ["markdown"]})],
      the [markdown] field of the answer if any;
    - [generateObject md]: the structured output of the model on the
      prompt built from [md], already checked against the schema by the
      SDK, or its failure. *)
Record Collaborators : Type := {
  categoryLinks : Exn + option (list Link);
  postMarkdown : string -> Exn + option string;
  generateObject : string -> Exn + option ParsedWeek;
}.

Definition liftE {A} (r : Exn + A) : M A :=
  match r with
  | inl e => throw e
  | inr a => ret a
  end.

(** Monadic map, in order; the first failure aborts. *)
Fixpoint mapM {A B} (f : A -> M B) (l : list A) : M (list B) :=
  match l with
  | [] => ret []
  | a :: r => b <- f a ;; bs <- mapM f r ;; ret (b :: bs)
  end.

(** ** [lib/firecrawl.ts] *)

(** [typeof link === "string" ? link : link.url || ""] *)
Definition linkUrl (l : Link) : string :=
  match l with
  | LinkStr u => u
  | LinkObj (Some u) => u
  | LinkObj None => ""
  end.

Definition isPlanPost (l : Link) : bool :=
  JS.includes (linkUrl l) "/post/plan-treningowy" &&
  negb (JS.includes (linkUrl l) "/categories/").

(** [Array.from(new Set(l))]: first occurrences, in order. *)
Fixpoint unique (l : list string) : list string :=
  match l with
  | [] => []
  | x :: r => x :: filter (fun y => y ≠ x) (unique r)
  end.

Definition scrapeCategoryPage (c : Collaborators) : M (list string) :=
  try (scrapeResult <- liftE (categoryLinks c) ;;
       let links := default [] scrapeResult in
       match links with
       | [] => ret []
       | _ =>
           let blogPostUrls := List.filter isPlanPost links in
           (* a link that passed the filter has a non-empty url *)
           let urlStrings := linkUrl <$> blogPostUrls in
           ret (take 2 (unique urlStrings))
       end)
      (fun e => throw e).

Definition scrapeBlogPost (c : Collaborators) (url : string) : M Post :=
  try (scrapeResult <- liftE (postMarkdown c url) ;;
       match scrapeResult with
       | None | Some "" =>
           throw (Error ("Failed to scrape blog post (no markdown): " ++ url))
       | Some md => ret {| markdown := md; url := url |}
       end)
      (fun e => throw e).

Definition scrapeAllBlogPosts (c : Collaborators) : M (list Post) :=
  try (urls <- scrapeCategoryPage c ;;
       match urls with
       | [] => ret []
       | _ => mapM (scrapeBlogPost c) urls
       end)
      (fun e => throw e).

(** ** [lib/llm-parser.ts] *)

Definition parseScheduleWithLLM (c : Collaborators) (markdown sourceUrl : string)
  : M WeekSchedule :=
  try (object <- liftE (generateObject c markdown) ;;
       match object with
       | None => throw (Error "LLM failed to generate valid object")
       | Some o =>
           now <- Date_now ;;
           (* WeekScheduleSchema.parse accepts every value of this type *)
           ret {| week := parsed_week o;
                  week_sourceUrl := sourceUrl;
                  week_scrapedAt := JS.toISOString now;
                  days := parsed_days o |}
       end)
      (fun e => throw e).

(** The loop of [parseAllSchedules]: [schedules] and [errors] are its two
    local arrays. *)
Fixpoint parseLoop (c : Collaborators) (posts : list Post)
  (schedules : list WeekSchedule) (errors : list string)
  : M (list WeekSchedule * list string) :=
  match posts with
  | [] => ret (schedules, errors)
  | post :: rest =>
      r <- try (schedule <- parseScheduleWithLLM c (markdown post) (url post) ;;
                ret ((schedules ++ [schedule])%list, errors))
               (fun e =>
                  let errorMessage :=
                    "Failed to parse " ++ url post ++ ": " ++ message e in
                  ret (schedules, (errors ++ [errorMessage])%list)) ;;
      parseLoop c rest r.1 r.2
  end.

(** [parseAllSchedules] returns the schedules; its [errors] array is
    only counted in a console warning. *)
Definition parseAllSchedules (c : Collaborators) (posts : list Post)
  : M (list WeekSchedule) :=
  r <- parseLoop c posts [] [] ;;
  ret r.1.

(* ================================================================== *)
(** * The routes                                                       *)
(* ================================================================== *)

(** ** [POST /api/scrape] *)

Inductive ScrapeBody : Type :=
| Unauthorized                                            (* { error: "Unauthorized" } *)
| Skipped (result : ScrapingResult) (skipReason : string) (daysAhead : Z)
| Plain (result : ScrapingResult)
| Completed (result : ScrapingResult) (stored skipped : list string)
            (totalDaysStored : nat)
| Fatal (details : ScrapingResult).

Record ScrapeResponse : Type := {
  status : Z;
  body : ScrapeBody;
}.

(** The [ScrapingResult] carried by a response, if any. *)
Definition report (r : ScrapeResponse) : option ScrapingResult :=
  match body r with
  | Unauthorized => None
  | Skipped res _ _ | Plain res | Completed res _ _ _ | Fatal res => Some res
  end.

(** The four accumulators of the storing loop. *)
Record StoreAcc : Type := {
  storedSchedules : list string;
  skippedSchedules : list string;
  storeErrors : list string;
  totalDaysStored : nat;
}.

(** [skippedSchedules.push(week)] *)
Definition pushSkipped (wk : string) (a : StoreAcc) : StoreAcc :=
  {| storedSchedules := storedSchedules a;
     skippedSchedules := app (skippedSchedules a) [wk];
     storeErrors := storeErrors a;
     totalDaysStored := totalDaysStored a |}.

(** [storedSchedules.push(week); totalDaysStored += daysStored] *)
Definition pushStored (wk : string) (daysStored : nat) (a : StoreAcc) : StoreAcc :=
  {| storedSchedules := app (storedSchedules a) [wk];
     skippedSchedules := skippedSchedules a;
     storeErrors := storeErrors a;
     totalDaysStored := (totalDaysStored a + daysStored)%nat |}.

(** [errors.push(msg)] *)
Definition pushError (msg : string) (a : StoreAcc) : StoreAcc :=
  {| storedSchedules := storedSchedules a;
     skippedSchedules := skippedSchedules a;
     storeErrors := app (storeErrors a) [msg];
     totalDaysStored := totalDaysStored a |}.

(** The body of the [for (const schedule of schedules)] loop. *)
Definition storeStep (schedule : WeekSchedule) (a : StoreAcc) : M StoreAcc :=
  try (exists_ <- weekScheduleExists (week schedule) ;;
       if (exists_ : bool) then
         ret (pushSkipped (week schedule) a)
       else
         daysStored <- storeWeekSchedule schedule ;;
         if (0 <? daysStored)%nat then
           ret (pushStored (week schedule) daysStored a)
         else
           ret (pushError ("Failed to store schedule for week " ++ week schedule) a))
      (fun e =>
         ret (pushError ("Error processing schedule " ++ week schedule ++ ": " ++
                         message e) a)).

Fixpoint storeLoop (schedules : list WeekSchedule) (a : StoreAcc) : M StoreAcc :=
  match schedules with
  | [] => ret a
  | schedule :: rest => a' <- storeStep schedule a ;; storeLoop rest a'
  end.

Definition isEmpty {A} (l : list A) : bool :=
  match l with [] => true | _ => false end.

(** The request: its [authorization] header; the process environment:
    [CRON_SECRET]. *)
Definition authorized (cronSecret authHeader : option string) : bool :=
  match cronSecret with
  | None | Some "" => false
  | Some s => bool_decide (authHeader = Some ("Bearer " ++ s))
  end.

Definition POST (c : Collaborators) (cronSecret authHeader : option string)
  : M ScrapeResponse :=
  try (if negb (authorized cronSecret authHeader) then
         ret {| status := 401; body := Unauthorized |}
       else
         skipCheck <- shouldSkipScraping ;;
         if shouldSkip skipCheck then
           now <- Date_now ;;
           let result := {| success := true; schedulesProcessed := 0;
                            errors := []; urls := [];
                            timestamp := JS.toISOString now |} in
           logScrapingOperation
             {| log_result := result;
                log_skip := Some (reason skipCheck, daysAhead skipCheck) |} ;;;
           ret {| status := 200;
                  body := Skipped result (reason skipCheck) (daysAhead skipCheck) |}
         else
           posts <- scrapeAllBlogPosts c ;;
           if isEmpty posts then
             now <- Date_now ;;
             let result := {| success := false; schedulesProcessed := 0;
                              errors := ["No blog posts found"]; urls := [];
                              timestamp := JS.toISOString now |} in
             logScrapingOperation {| log_result := result; log_skip := None |} ;;;
             ret {| status := 200; body := Plain result |}
           else
             schedules <- parseAllSchedules c posts ;;
             a <- storeLoop schedules
                    {| storedSchedules := []; skippedSchedules := [];
                       storeErrors := []; totalDaysStored := 0 |} ;;
             now <- Date_now ;;
             let result := {| success := isEmpty (storeErrors a);
                              schedulesProcessed := length (storedSchedules a);
                              errors := storeErrors a;
                              urls := url <$> posts;
                              timestamp := JS.toISOString now |} in
             logScrapingOperation {| log_result := result; log_skip := None |} ;;;
             ret {| status := 200;
                    body := Completed result (storedSchedules a)
                              (skippedSchedules a) (totalDaysStored a) |})
      (fun error =>
         now <- Date_now ;;
         let result := {| success := false; schedulesProcessed := 0;
                          errors := [message error]; urls := [];
                          timestamp := JS.toISOString now |} in
         logScrapingOperation {| log_result := result; log_skip := None |} ;;;
         ret {| status := 500; body := Fatal result |}).

(** ** [GET /api/schedules/[date]] and [GET /api/schedules/today] *)

Inductive GetBody : Type :=
| GetError (msg : string)
| GetJson (schedule : option DaySchedule).

Record GetResponse : Type := {
  get_status : Z;
  get_body : GetBody;
}.

(** [/^\d{2}\.\d{2}$/.test(date)] *)
Definition datePattern (date : string) : bool :=
  match date with
  | String a (String b (String "." (String c (String d EmptyString)))) =>
      JS.isDigit a && JS.isDigit b && JS.isDigit c && JS.isDigit d
  | _ => false
  end.

Definition GET_date (date : string) : M GetResponse :=
  try (if negb (datePattern date) then
         ret {| get_status := 400;
                get_body := GetError "Nieprawidlowy format daty. Uzyj formatu DD.MM" |}
       else
         schedule <- getDaySchedule date ;;
         ret {| get_status := 200; get_body := GetJson schedule |})
      (fun _ =>
         ret {| get_status := 500;
                get_body := GetError "Wystapil blad podczas pobierania planu treningowego" |}).

Definition GET_today : M GetResponse :=
  try (schedule <- getTodaySchedule ;;
       ret {| get_status := 200; get_body := GetJson schedule |})
      (fun _ =>
         ret {| get_status := 500;
                get_body := GetError "Wystapil blad podczas pobierania planu treningowego" |}).

(** ** [GET /api/schedules] *)

Inductive ListBody : Type :=
| ListError (msg : string)
| ListJson (schedules : list DaySchedule).

Record ListResponse : Type := {
  list_status : Z;
  list_body : ListBody;
}.

Definition GET_all : M ListResponse :=
  try (schedules <- getAllDaySchedules ;;
       ret {| list_status := 200; list_body := ListJson schedules |})
      (fun _ =>
         ret {| list_status := 500;
                list_body := ListError "Wystapil blad podczas pobierania planow treningowych" |}).

(* ================================================================== *)
(** * Reading the specification                                        *)
(* ================================================================== *)

(** The year the specification assigns to a partial date: the reference
    year, one less for a December date seen from January, one more for
    a January date seen from December.  Months are 1-based here. *)
Definition normalizedYear (refYear refMonth partialMonth : Z) : Z :=
  if (refMonth =? 1) && (partialMonth =? 12) then refYear - 1
  else if (refMonth =? 12) && (partialMonth =? 1) then refYear + 1
  else refYear.

(** The canonical form [YYYY-MM-DD] of a civil date. *)
Definition canonical (y m d : Z) : string :=
  JS.showZ y ++ "-" ++ JS.pad 2 m ++ "-" ++ JS.pad 2 d.

(** The partial date [DD.MM] as the source material writes it. *)
Definition partialDate (day month : Z) : string :=
  JS.pad 2 day ++ "." ++ JS.pad 2 month.

(** Leap years and month lengths of the Gregorian calendar. *)
Definition isLeapYear (y : Z) : bool :=
  (y mod 4 =? 0) && (negb (y mod 100 =? 0) || (y mod 400 =? 0)).

Definition daysInMonth (y m : Z) : Z :=
  if m =? 2 then (if isLeapYear y then 29 else 28)
  else if (m =? 4) || (m =? 6) || (m =? 9) || (m =? 11) then 30
  else 31.

(** [y-m-d] denotes a day of the calendar. *)
Definition realDate (y m d : Z) : bool :=
  (1 <=? m) && (m <=? 12) && (1 <=? d) && (d <=? daysInMonth y m).

(** A world without pending storage faults. *)
Definition quiet (d : DB) (t z : Z) : World :=
  {| db := d; clock := t; tz := z; faults := [] |}.

(** The same world at another instant. *)
Definition atClock (t : Z) (w : World) : World :=
  {| db := db w; clock := t; tz := tz w; faults := faults w |}.

(* ================================================================== *)
(** * Functional reading of the storage layer                       *)
(* ================================================================== *)

(** In a world without pending faults each function of the storage layer
    is a function of the database, the clock and the zone.  The
    definitions below are those functions; the section on quiet runs
    proves that the monadic code computes them. *)

(** The result of [convertToISODate], as a function of zone and clock. *)
Definition normalize (z now : Z) (date : string) : Exn + string :=
  match JS.Number <$> JS.split "." date with
  | day :: month :: _ => isoDateOf z now day (Some month)
  | [day] => isoDateOf z now day None
  | [] => inl (TypeError "unreachable: split returns at least one part")
  end.

(** The date of the day has a dot, so that it has a month part. *)
Definition dotted (day : DaySchedule) : bool := JS.includes (date day) ".".

Definition allDotted (ds : list DaySchedule) : bool := forallb dotted ds.

(** The database after the day loop of [storeWeekSchedule]: the days are
    written in order, up to the first one whose date does not convert. *)
Fixpoint writeDays (schedule : WeekSchedule) (z t : Z)
  (ds : list DaySchedule) (d : DB) : DB :=
  match ds with
  | [] => d
  | day :: rest =>
      match normalize z t (date day) with
      | inr iso =>
          writeDays schedule z t rest
            (zadd t iso (putDay iso (storedDay schedule day iso) d))
      | inl _ => d
      end
  end.

(** The value [storeWeekSchedule] writes under the week key. *)
Definition weekMetaOf (s : WeekSchedule) : WeekMeta :=
  {| meta_week := week s; meta_sourceUrl := week_sourceUrl s;
     meta_scrapedAt := week_scrapedAt s; meta_dayCount := length (days s) |}.

(** [weekScheduleExists] on the database. *)
Definition recorded (d : DB) (wk : string) : bool :=
  bool_decide (is_Some (weekRecords d !! wk)).

(** The database after [storeWeekSchedule] at zone [z] and instant [t]. *)
Definition storeWeekDB (z t : Z) (s : WeekSchedule) (d : DB) : DB :=
  if allDotted (days s)
  then putLatestUpdate t (putWeek (week s) (weekMetaOf s) (writeDays s z t (days s) d))
  else writeDays s z t (days s) d.

(** The number [storeWeekSchedule] returns. *)
Definition daysStoredOf (s : WeekSchedule) : nat :=
  if allDotted (days s) then length (days s) else 0%nat.

(** The answer of the [catch] branch of [shouldSkipScraping]. *)
Definition errorCheck : SkipCheck :=
  {| shouldSkip := false; reason := "Error checking schedules"; daysAhead := 0 |}.

(** The answer of [shouldSkipScraping] on an empty date index. *)
Definition emptyCheck : SkipCheck :=
  {| shouldSkip := false; reason := "No schedules in database"; daysAhead := 0 |}.

(** The answer of [shouldSkipScraping] once both reads have succeeded. *)
Definition verdict (ahead since : Z) : SkipCheck :=
  if (14 <=? ahead) && (since <? 5) then
    {| shouldSkip := true;
       reason := "Have " ++ JS.showZ ahead ++ " days of schedules, last updated " ++
                 JS.showZ since ++ " days ago";
       daysAhead := ahead |}
  else
    {| shouldSkip := false;
       reason := "Only " ++ JS.showZ ahead ++ " days ahead, last updated " ++
                 JS.showZ since ++ " days ago";
       daysAhead := ahead |}.

(** Days since the recorded last update, as seen from the world. *)
Definition daysSinceUpdate (w : World) : Z :=
  daysSinceUpdateOf (clock w) (latestUpdate (db w)).

(** The answer of [shouldSkipScraping] in every world: the first read is
    the date index, the second one the last-update marker. *)
Definition skipOutcome (w : World) : SkipCheck :=
  match faults w with
  | true :: _ => errorCheck
  | _ =>
      match zrangeAll false (daysList (db w)) with
      | [] => emptyCheck
      | dates =>
          match tail (faults w) with
          | true :: _ => errorCheck
          | _ => verdict (daysAheadOf (tz w) (clock w) dates) (daysSinceUpdate w)
          end
      end
  end.

(* ================================================================== *)
(** * Functional reading of the ingestion run                       *)
(* ================================================================== *)

(** A computation whose result and effect do not depend on the world. *)
Definition worldFree {A} (m : M A) : Prop := exists r, forall w, m w = (r, w).

(** The documents an ingestion run acquires, or the acquisition failure. *)
Definition acquire (c : Collaborators) : Exn + list Post :=
  fst (scrapeAllBlogPosts c (quiet emptyDB 0 0)).

(** The outcome of parsing one document at instant [now]. *)
Definition parseOne (c : Collaborators) (now : Z) (post : Post) : Exn + WeekSchedule :=
  match generateObject c (markdown post) with
  | inl e => inl e
  | inr None => inl (Error "LLM failed to generate valid object")
  | inr (Some o) =>
      inr {| week := parsed_week o; week_sourceUrl := url post;
             week_scrapedAt := JS.toISOString now; days := parsed_days o |}
  end.

(** The schedule [parseAllSchedules] keeps for a document, if it parses. *)
Definition parsedSchedule (c : Collaborators) (now : Z) (post : Post)
  : option WeekSchedule :=
  match parseOne c now post with inr s => Some s | inl _ => None end.

(** The message [parseAllSchedules] logs for a document, if it fails. *)
Definition parseFailure (c : Collaborators) (now : Z) (post : Post) : option string :=
  match parseOne c now post with
  | inr _ => None
  | inl e => Some ("Failed to parse " ++ url post ++ ": " ++ message e)
  end.

(** One turn of the storing loop, on accumulators and database. *)
Definition storeStepOn (z t : Z) (ad : StoreAcc * DB) (s : WeekSchedule)
  : StoreAcc * DB :=
  if recorded ad.2 (week s) then (pushSkipped (week s) ad.1, ad.2)
  else
    (if (0 <? daysStoredOf s)%nat
     then pushStored (week s) (daysStoredOf s) ad.1
     else pushError ("Failed to store schedule for week " ++ week s) ad.1,
     storeWeekDB z t s ad.2).

(** The accumulators at the start of the storing loop. *)
Definition noAcc : StoreAcc :=
  {| storedSchedules := []; skippedSchedules := []; storeErrors := [];
     totalDaysStored := 0 |}.

(** A [ScrapingResult] stamped at instant [t]. *)
Definition resultAt (t : Z) (ok : bool) (n : nat) (errs us : list string)
  : ScrapingResult :=
  {| success := ok; schedulesProcessed := n; errors := errs; urls := us;
     timestamp := JS.toISOString t |}.

(** The response of an authorized [POST] and the database it leaves, in
    a quiet world with database [d], clock [t] and zone [z]. *)
Definition runOn (c : Collaborators) (d : DB) (t z : Z) : ScrapeResponse * DB :=
  let skipCheck := skipOutcome (quiet d t z) in
  if shouldSkip skipCheck then
    let result := resultAt t true 0 [] [] in
    ({| status := 200;
        body := Skipped result (reason skipCheck) (daysAhead skipCheck) |},
     putLog (utcDateString t)
       {| log_result := result;
          log_skip := Some (reason skipCheck, daysAhead skipCheck) |} d)
  else
    match acquire c with
    | inl error =>
        let result := resultAt t false 0 [message error] [] in
        ({| status := 500; body := Fatal result |},
         putLog (utcDateString t) {| log_result := result; log_skip := None |} d)
    | inr posts =>
        if isEmpty posts then
          let result := resultAt t false 0 ["No blog posts found"] [] in
          ({| status := 200; body := Plain result |},
           putLog (utcDateString t) {| log_result := result; log_skip := None |} d)
        else
          let ad := fold_left (storeStepOn z t)
                      (omap (parsedSchedule c t) posts) (noAcc, d) in
          let result := resultAt t (isEmpty (storeErrors ad.1))
                          (length (storedSchedules ad.1)) (storeErrors ad.1)
                          (url <$> posts) in
          ({| status := 200;
              body := Completed result (storedSchedules ad.1)
                        (skippedSchedules ad.1) (totalDaysStored ad.1) |},
           putLog (utcDateString t) {| log_result := result; log_skip := None |} ad.2)
    end.


(** The parts of the database that hold the schedules. *)
Definition sameSchedules (d d' : DB) : Prop :=
  dayRecords d' = dayRecords d /\ daysList d' = daysList d /\
  weekRecords d' = weekRecords d /\ latestUpdate d' = latestUpdate d.

(* ================================================================== *)
(** * Predicates on strings                                         *)
(* ================================================================== *)

(** [s] does not contain the character [c]. *)
Fixpoint noChar (c : ascii) (s : string) : bool :=
  match s with
  | EmptyString => true
  | String a r => negb (Ascii.eqb a c) && noChar c r
  end.

(** Printed digits contain none of the separators of the program. *)
Definition notDigitNorMinus (c : ascii) : Prop :=
  JS.isDigit c = false /\ Ascii.eqb "-" c = false.

(** The numbers a two-digit field can hold. *)
Definition upTo99 : list Z := Z.of_nat <$> seq 0 100.

(** Printing [z] on two digits and reading it back gives [z]. *)
Definition twoDigitsRead (z : Z) : bool :=
  match JS.Number (JS.pad 2 z) with
  | JS.Num x => x =? z
  | JS.NaN => false
  end.

(* ================================================================== *)
(** * Sample data                                                   *)
(* ================================================================== *)

(** A store whose date index holds the single date [iso] and whose last
    update was recorded at [updated]. *)
Definition storeUpTo (iso : string) (updated : Z) : DB :=
  putLatestUpdate updated (zadd updated iso emptyDB).

(** A day without sessions. *)
Definition restDay (dt : string) (name : string) : DaySchedule :=
  {| date := dt; dayName := name; isoDate := None; sourceUrl := None;
     scrapedAt := None; trainingSessions := [] |}.

(** A training session of the given type. *)
Definition session (kind : string) : TrainingSession :=
  {| type := kind; exercises := ["ROW"; "box jump"]; trainingMethod := "2 x EMOM";
     mainPartDuration := "21 min" |}.

(** A day with one session. *)
Definition trainingDay (dt name kind : string) : DaySchedule :=
  {| date := dt; dayName := name; isoDate := None; sourceUrl := None;
     scrapedAt := None; trainingSessions := [session kind] |}.

(** A submission with the given week identifier and days. *)
Definition weekOf (wk : string) (ds : list DaySchedule) : WeekSchedule :=
  {| week := wk; week_sourceUrl := "https://blog/post/plan-treningowy";
     week_scrapedAt := "2024-10-19T06:00:00.000Z"; days := ds |}.

(** The canonical dates of the records returned, in order. *)
Definition isoDates (r : Exn + list DaySchedule) : list (option string) :=
  match r with
  | inr l => isoDate <$> l
  | inl _ => []
  end.

(** A source whose category page lists no link. *)
Definition silentSource : Collaborators :=
  {| categoryLinks := inr (Some []);
     postMarkdown := fun _ => inr None;
     generateObject := fun _ => inr None |}.

(** A source with two posts; the model parses the first one and gives
    nothing for the second. *)
Definition twoPosts : Collaborators :=
  {| categoryLinks :=
       inr (Some [LinkStr "https://blog/post/plan-treningowy";
                  LinkObj (Some "https://blog/post/plan-treningowy-20-10")]);
     postMarkdown := fun u =>
       if String.eqb u "https://blog/post/plan-treningowy"
       then inr (Some "Tydzien 27/10-02/11") else inr (Some "Tydzien ???");
     generateObject := fun md =>
       if String.eqb md "Tydzien 27/10-02/11"
       then inr (Some {| parsed_week := "27/10/2024-02/11/2024";
                         parsed_days := [trainingDay "27.10" "Niedziela" "Speed";
                                         restDay "28.10" "Poniedzialek"] |})
       else inr None |}.


(* ================================================================== *)
(** * Statements of the specification that the code does not satisfy *)
(* ================================================================== *)

(** Each of these propositions words a sentence of the specification
    over the embedding; each is refuted below at a concrete input, and
    the statement that does hold is proved next to the refutation. *)

(** The claim C3 as the specification words it: a day and month that
    denote no day of the calendar make the Date Normalizer fail. *)
Definition rejectsUnrealDates : Prop :=
  forall (w : World) (day month : Z),
    0 <= day <= 99 -> 0 <= month <= 99 ->
    realDate (normalizedYear (JS.getFullYear (tz w) (clock w))
                             (JS.getMonth (tz w) (clock w) + 1) month)
             month day = false ->
    exists e, fst (convertToISODate (partialDate day month) w) = inl e.



(** Two documents are acquired, in either order. *)
Definition acquiresPair (c : Collaborators) (w : World) (good bad : Post) : Prop :=
  fst (scrapeAllBlogPosts c w) = inr [good; bad] \/
  fst (scrapeAllBlogPosts c w) = inr [bad; good].

(** The claim C5 as the specification words it: of two documents, one
    parsing and one failing, the failure is reported in the errors of
    the run, which counts one processed schedule. *)
Definition parseFailureReported : Prop :=
  forall (c : Collaborators) (secret auth : option string) (d : DB) (t z : Z)
         (sc : SkipCheck) (good bad : Post) (s : WeekSchedule) (e : Exn),
    authorized secret auth = true ->
    fst (shouldSkipScraping (quiet d t z)) = inr sc -> shouldSkip sc = false ->
    acquiresPair c (quiet d t z) good bad ->
    fst (parseScheduleWithLLM c (markdown good) (url good) (quiet d t z)) = inr s ->
    fst (parseScheduleWithLLM c (markdown bad) (url bad) (quiet d t z)) = inl e ->
    exists r res, fst (POST c secret auth (quiet d t z)) = inr r /\
                  report r = Some res /\
                  schedulesProcessed res = 1%nat /\
                  ("Failed to parse " ++ url bad ++ ": " ++ message e) ∈ errors res.


(* ================================================================== *)
(** * Relations between the worlds before and after a call            *)
(* ================================================================== *)

(** The call left the clock and the zone as they were. *)
Definition sameTime (w w' : World) : Prop :=
  clock w' = clock w /\ tz w' = tz w.

(** The call left the database, the clock and the zone as they were. *)
Definition untouched (w w' : World) : Prop :=
  db w' = db w /\ sameTime w w'.

(** Every run of [m] relates the world before to the world after. *)
Definition respects (R : World -> World -> Prop) {A} (m : M A) : Prop :=
  forall w, R w (snd (m w)).

(** [m] answers with a value in every world. *)
Definition neverThrows {A} (m : M A) : Prop :=
  forall w, exists a, fst (m w) = inr a.

(** Every day record is listed in the date index. *)
Definition indexed (d : DB) : Prop :=
  forall K, is_Some (dayRecords d !! K) -> is_Some (daysList d !! K).

(* ================================================================== *)
(** * Accounting of the storing loop                                   *)
(* ================================================================== *)

(** One turn of the storing loop files the submission in exactly one of
    the three lists. *)
Definition stepped (s : WeekSchedule) (a a' : StoreAcc) : Prop :=
  a' = pushSkipped (week s) a \/
  (exists n, (0 < n)%nat /\ a' = pushStored (week s) n a) \/
  a' = pushError ("Failed to store schedule for week " ++ week s) a.

(** The number of submissions filed so far. *)
Definition tally (a : StoreAcc) : nat :=
  (length (storedSchedules a) + length (skippedSchedules a) +
   length (storeErrors a))%nat.

(** The database [d'] holds a schedule value under every key under
    which [d] holds one.  The run logs, which expire, are left aside. *)
Definition retains (d d' : DB) : Prop :=
  (forall K, is_Some (dayRecords d !! K) -> is_Some (dayRecords d' !! K)) /\
  (forall K, is_Some (daysList d !! K) -> is_Some (daysList d' !! K)) /\
  (forall K, is_Some (weekRecords d !! K) -> is_Some (weekRecords d' !! K)) /\
  (is_Some (latestUpdate d) -> is_Some (latestUpdate d')).

(** No schedule value was deleted between [w] and [w']. *)
Definition grows (w w' : World) : Prop := retains (db w) (db w').

(** The week of the submission is recorded in [d] and each of its days
    is stored and indexed there, under the canonical date the day has at
    zone [z] and instant [t]. *)
Definition persisted (z t : Z) (d : DB) (s : WeekSchedule) : Prop :=
  is_Some (weekRecords d !! week s) /\
  forall day, day ∈ days s ->
    exists K, normalize z t (date day) = inr K /\
              is_Some (dayRecords d !! K) /\ is_Some (daysList d !! K).

(* ================================================================== *)
(** * Further sample data                                              *)
(* ================================================================== *)

(** A source whose category page cannot be scraped. *)
Definition unreachableSource : Collaborators :=
  {| categoryLinks := inl (Error "Request timed out");
     postMarkdown := fun _ => inr None;
     generateObject := fun _ => inr None |}.

(* ================================================================== *)
(** * The model on sample inputs                                       *)
(* ================================================================== *)

Example split_ex : JS.split "." "30.12" = ["30"; "12"].
Proof. reflexivity. Qed.

Example number_ex : JS.Number "07" = JS.Num 7.
Proof. reflexivity. Qed.

Example iso_ex : JS.toISOString (JS.utcTime 2025 1 3 12 30 15 7) = "2025-01-03T12:30:15.007Z".
Proof. vm_compute. reflexivity. Qed.

Example civil_ex : JS.civilFromDays (JS.daysFromCivil 2024 2 29) = (2024, 2, 29).
Proof. reflexivity. Qed.

Example parse_ex : JS.parseDate "2025-02-30" = Some (JS.utcTime 2025 3 2 0 0 0 0).
Proof. reflexivity. Qed.

(* ================================================================== *)
(** * Strings: splitting and printing                                  *)
(* ================================================================== *)

Section StringFacts.

Lemma split_noChar c s : noChar c s = true -> JS.split c s = [s].
Proof.
  induction s as [|a r IH]; simpl; [reflexivity|].
  intros [Ha Hr]%andb_prop. apply negb_true_iff in Ha. rewrite Ha.
  rewrite (IH Hr). reflexivity.
Qed.

Lemma split_app c s t :
  noChar c s = true -> JS.split c (s ++ String c t) = s :: JS.split c t.
Proof.
  induction s as [|a r IH]; simpl.
  - intros _. rewrite Ascii.eqb_refl. reflexivity.
  - intros [Ha Hr]%andb_prop. apply negb_true_iff in Ha. rewrite Ha.
    rewrite (IH Hr). reflexivity.
Qed.

Lemma string_app_assoc (s t u : string) : (s ++ t) ++ u = s ++ t ++ u.
Proof.
  induction s as [|a r IH]; [reflexivity|].
  change (String a ((r ++ t) ++ u) = String a (r ++ t ++ u)). f_equal. exact IH.
Qed.

Lemma noChar_app c s t :
  noChar c (s ++ t) = noChar c s && noChar c t.
Proof.
  induction s as [|a r IH]; simpl; [reflexivity|].
  rewrite IH. apply andb_assoc.
Qed.

Lemma noChar_replicate c a n :
  Ascii.eqb a c = false -> noChar c (JS.replicate n a) = true.
Proof. intros H. induction n; simpl; [reflexivity|]. rewrite H, IHn. reflexivity. Qed.

(** [includes s "c"] for a one-character pattern. *)
Lemma includes_char c s :
  JS.includes s (String c EmptyString) = negb (noChar c s).
Proof.
  induction s as [|a r IH]; simpl; [reflexivity|].
  rewrite IH. rewrite Ascii.eqb_sym.
  destruct (Ascii.eqb a c); simpl.
  - destruct r; reflexivity.
  - reflexivity.
Qed.

Lemma digit_neq c a :
  JS.isDigit c = false -> JS.isDigit a = true -> Ascii.eqb a c = false.
Proof.
  intros Hc Ha. destruct (Ascii.eqb a c) eqn:E; [|reflexivity].
  apply Ascii.eqb_eq in E. congruence.
Qed.

Lemma noChar_uint c u :
  notDigitNorMinus c -> noChar c (NilEmpty.string_of_uint u) = true.
Proof.
  intros [Hd _].
  induction u; cbn [NilEmpty.string_of_uint noChar]; [reflexivity|..];
    rewrite IHu, andb_true_r; apply negb_true_iff;
    apply digit_neq; [exact Hd|reflexivity| exact Hd|reflexivity| exact Hd|reflexivity|
                      exact Hd|reflexivity| exact Hd|reflexivity| exact Hd|reflexivity|
                      exact Hd|reflexivity| exact Hd|reflexivity| exact Hd|reflexivity|
                      exact Hd|reflexivity].
Qed.

Lemma noChar_showZ c z : notDigitNorMinus c -> noChar c (JS.showZ z) = true.
Proof.
  intros H. unfold JS.showZ, JS.toString, NilZero.string_of_int.
  assert (Hu : forall u, noChar c (NilZero.string_of_uint u) = true).
  { intros u. unfold NilZero.string_of_uint.
    destruct u; try apply (noChar_uint c _ H).
    destruct H as [Hd _]. cbn [noChar]. rewrite andb_true_r. apply negb_true_iff.
    apply digit_neq; [exact Hd|reflexivity]. }
  destruct (Z.to_int z); [apply Hu|].
  cbn [noChar]. rewrite Hu, andb_true_r. apply negb_true_iff. apply H.
Qed.

Lemma noChar_pad c n z : notDigitNorMinus c -> noChar c (JS.pad n z) = true.
Proof.
  intros H. unfold JS.pad, JS.padStart. rewrite noChar_app.
  rewrite noChar_showZ by exact H. rewrite andb_true_r.
  apply noChar_replicate.
  destruct H as [Hd _]. apply digit_neq; [exact Hd|reflexivity].
Qed.

Lemma T_not_printed : notDigitNorMinus "T".
Proof. split; reflexivity. Qed.

Lemma noChar_isoYear y : noChar "T" (JS.isoYear y) = true.
Proof.
  unfold JS.isoYear. destruct (_ && _); [apply noChar_pad, T_not_printed|].
  destruct (y <? 0); rewrite noChar_app, noChar_pad by apply T_not_printed;
    reflexivity.
Qed.

(** The date part of [toISOString]: the UTC calendar day of the instant. *)
Lemma utcDateString_civil t :
  utcDateString t =
  let '(y, m, d) := JS.civilFromDays (t / JS.msPerDay) in
  JS.isoYear y ++ "-" ++ JS.pad 2 m ++ "-" ++ JS.pad 2 d.
Proof.
  unfold utcDateString, JS.toISOString.
  destruct (JS.civilFromDays (t / JS.msPerDay)) as [[y m] d].
  set (rest := JS.pad 2 (_ / 3600000) ++ _).
  replace (JS.isoYear y ++ "-" ++ JS.pad 2 m ++ "-" ++ JS.pad 2 d ++ "T" ++ rest)
    with ((JS.isoYear y ++ "-" ++ JS.pad 2 m ++ "-" ++ JS.pad 2 d) ++ String "T" rest).
  - rewrite split_app; [reflexivity|].
    rewrite !noChar_app, noChar_isoYear, !noChar_pad by apply T_not_printed.
    reflexivity.
  - rewrite !string_app_assoc. reflexivity.
Qed.

End StringFacts.

(* ================================================================== *)
(** * The date index is a sorted set                                   *)
(* ================================================================== *)

(** [zsort] is an insertion sort for the order of Redis sorted sets: its
    result is sorted and holds the same entries.  The listing of the
    index therefore holds exactly its members, whatever the order in
    which the finite map enumerates them. *)

Section SortedSet.

Lemma zle_total a b : zle a b = true \/ zle b a = true.
Proof.
  unfold zle. destruct (Z.ltb_spec a.2 b.2); [left; reflexivity|].
  destruct (Z.ltb_spec b.2 a.2); [right; reflexivity|].
  assert (E : a.2 = b.2) by lia. rewrite E, Z.eqb_refl. cbn.
  destruct (String.leb_total a.1 b.1) as [H1|H1]; rewrite H1; auto.
Qed.

Lemma zinsert_perm x l : zinsert x l ≡ₚ x :: l.
Proof.
  induction l as [|y r IH]; cbn; [reflexivity|].
  destruct (zle x y); [reflexivity|]. rewrite IH. apply Permutation_swap.
Qed.

Lemma zsort_perm l : zsort l ≡ₚ l.
Proof.
  induction l as [|x r IH]; cbn; [reflexivity|].
  rewrite zinsert_perm, IH. reflexivity.
Qed.

Lemma zinsert_sorted x l : Sorted zleP l -> Sorted zleP (zinsert x l).
Proof.
  induction l as [|y r IH]; intros Hs; cbn.
  - repeat constructor.
  - destruct (zle x y) eqn:E.
    + constructor; [exact Hs|]. constructor. exact E.
    + apply Sorted_inv in Hs as [Hr Hy]. constructor; [apply IH, Hr|].
      destruct r as [|z r']; cbn.
      * constructor. destruct (zle_total x y) as [H|H]; [congruence|exact H].
      * destruct (zle x z); constructor.
        -- destruct (zle_total x y) as [H|H]; [congruence|exact H].
        -- apply HdRel_inv in Hy. exact Hy.
Qed.

Lemma zsort_sorted l : Sorted zleP (zsort l).
Proof. induction l as [|x r IH]; cbn; [constructor|apply zinsert_sorted, IH]. Qed.

Lemma zrangeAll_members rev (z : gmap string Z) iso :
  iso ∈ zrangeAll rev z <-> is_Some (z !! iso).
Proof.
  unfold zrangeAll.
  assert (H : iso ∈ (zsort (map_to_list z)).*1 <-> is_Some (z !! iso)).
  { rewrite zsort_perm. rewrite list_elem_of_fmap. split.
    - intros ([k v] & -> & Hin). apply elem_of_map_to_list in Hin. eauto.
    - intros [v Hv]. exists (iso, v). split; [reflexivity|].
      apply elem_of_map_to_list. exact Hv. }
  destruct rev; [rewrite elem_of_reverse|]; exact H.
Qed.

End SortedSet.

(* ================================================================== *)
(** * The key families do not meet                                     *)
(* ================================================================== *)

(** The database is embedded as one map per key family.  This is sound
    because the keys the program builds for different families are
    different strings, and each family's key determines its index. *)

Section Keys.

Lemma key_families_disjoint (a b : string) :
  dayKey a <> weekKey b /\ dayKey a <> logKey b /\ weekKey a <> logKey b /\
  dayKey a <> latestUpdateKey /\ weekKey a <> latestUpdateKey /\
  logKey a <> latestUpdateKey /\ weekKey a <> daysListKey /\
  logKey a <> daysListKey.
Proof.
  repeat split; intros H; cbv in H; discriminate H.
Qed.

Lemma dayKey_inj a b : dayKey a = dayKey b -> a = b.
Proof. intros H. cbv in H. injection H as H. exact H. Qed.

Lemma weekKey_inj a b : weekKey a = weekKey b -> a = b.
Proof. intros H. cbv in H. injection H as H. exact H. Qed.

Lemma showZ_head z :
  exists a r, JS.showZ z = String a r /\ (JS.isDigit a = true \/ a = "-"%char).
Proof.
  unfold JS.showZ, JS.toString, NilZero.string_of_int.
  destruct (Z.to_int z) as [u|u]; [|eauto].
  unfold NilZero.string_of_uint. destruct u; cbn [NilEmpty.string_of_uint]; eauto.
Qed.

(** The key of a day record, built from a converted date, is never the
    key of the date index. *)
Lemma dayKey_not_index y rest : dayKey (JS.showZ y ++ rest) <> daysListKey.
Proof.
  destruct (showZ_head y) as (a & r & E & Ha). rewrite E.
  intros H. cbv in H. injection H as H. subst a.
  destruct Ha as [Ha|Ha]; discriminate Ha.
Qed.

End Keys.

(* ================================================================== *)
(** * The Date Normalizer                                              *)
(* ================================================================== *)

Section Normalizer.

Lemma in_upTo99 z : 0 <= z <= 99 -> In z upTo99.
Proof.
  intros H. unfold upTo99. apply in_map_iff. exists (Z.to_nat z).
  split; [lia|]. apply in_seq. lia.
Qed.

Lemma twoDigits_all : forallb twoDigitsRead upTo99 = true.
Proof. vm_compute. reflexivity. Qed.

(** Printing a day or month number on two digits and reading it back. *)
Lemma Number_pad2 z : 0 <= z <= 99 -> JS.Number (JS.pad 2 z) = JS.Num z.
Proof.
  intros H. pose proof (proj1 (forallb_forall _ _) twoDigits_all z (in_upTo99 z H)) as E.
  unfold twoDigitsRead in E. destruct (JS.Number (JS.pad 2 z)); [discriminate|].
  apply Z.eqb_eq in E. congruence.
Qed.

Lemma dot_not_printed : notDigitNorMinus ".".
Proof. split; reflexivity. Qed.

Lemma split_partialDate day month :
  JS.split "." (partialDate day month) = [JS.pad 2 day; JS.pad 2 month].
Proof.
  unfold partialDate.
  change ("." ++ JS.pad 2 month) with (String "." (JS.pad 2 month)).
  rewrite split_app by (apply noChar_pad, dot_not_printed).
  rewrite split_noChar by (apply noChar_pad, dot_not_printed).
  reflexivity.
Qed.

(** The two successive adjustments of the year amount to the case
    distinction of the specification. *)
Lemma isoDateOf_month z now (day : JS.num) (month : Z) :
  isoDateOf z now day (Some (JS.Num month)) =
  inr (JS.showZ (normalizedYear (JS.getFullYear z now) (JS.getMonth z now + 1) month)
       ++ "-" ++ JS.pad 2 month ++ "-" ++ JS.padStart 2 "0" (JS.toString day)).
Proof.
  unfold isoDateOf, normalizedYear, JS.num_eqb.
  replace (JS.getMonth z now + 1 =? 1) with (JS.getMonth z now =? 0)
    by (destruct (Z.eqb_spec (JS.getMonth z now) 0), (Z.eqb_spec (JS.getMonth z now + 1) 1); lia).
  replace (JS.getMonth z now + 1 =? 12) with (JS.getMonth z now =? 11)
    by (destruct (Z.eqb_spec (JS.getMonth z now) 11), (Z.eqb_spec (JS.getMonth z now + 1) 12); lia).
  destruct (Z.eqb_spec (JS.getMonth z now) 0) as [E0|E0];
    destruct (Z.eqb_spec (JS.getMonth z now) 11) as [E11|E11];
    destruct (Z.eqb_spec month 12) as [E12|E12];
    destruct (Z.eqb_spec month 1) as [E1|E1];
    cbn [andb]; try reflexivity; lia.
Qed.

Lemma convertToISODate_partial w day month :
  0 <= day <= 99 -> 0 <= month <= 99 ->
  convertToISODate (partialDate day month) w =
  (inr (canonical (normalizedYear (JS.getFullYear (tz w) (clock w))
                                  (JS.getMonth (tz w) (clock w) + 1) month)
                  month day), w).
Proof.
  intros Hd Hm. unfold convertToISODate.
  rewrite split_partialDate. cbn [fmap list_fmap].
  rewrite (Number_pad2 _ Hd), (Number_pad2 _ Hm).
  unfold bind, Date_now, zone. rewrite isoDateOf_month. reflexivity.
Qed.

Lemma split_cons c s : exists a r, JS.split c s = a :: r.
Proof.
  induction s as [|x s IH]; cbn [JS.split]; [eauto|].
  destruct (Ascii.eqb x c); [eauto|].
  destruct IH as (a & r & E). rewrite E. eauto.
Qed.

Lemma split_two c s :
  noChar c s = false -> exists a b r, JS.split c s = a :: b :: r.
Proof.
  induction s as [|x s IH]; [discriminate|].
  cbn [noChar JS.split]. destruct (Ascii.eqb x c); cbn [negb andb].
  - intros _. destruct (split_cons c s) as (a & r & E). rewrite E. eauto.
  - intros H. destruct (IH H) as (a & b & r & E). rewrite E. eauto.
Qed.

(** A date with a dot is always converted; the world is left as it was. *)
Lemma convertToISODate_dotted w date :
  JS.includes date "." = true ->
  exists s, convertToISODate date w = (inr s, w).
Proof.
  intros H. rewrite includes_char in H. apply negb_true_iff in H.
  unfold convertToISODate.
  destruct (split_two _ _ H) as (a & b & r & E).
  rewrite E. cbn [fmap list_fmap]. unfold bind, Date_now, zone.
  unfold isoDateOf. eexists. reflexivity.
Qed.

(** A date without a dot has no month: the conversion throws. *)
Lemma convertToISODate_undotted w date :
  JS.includes date "." = false ->
  convertToISODate date w = (inl undefinedMonth, w).
Proof.
  intros H. rewrite includes_char in H. apply negb_false_iff in H.
  unfold convertToISODate. rewrite (split_noChar _ _ H). reflexivity.
Qed.

End Normalizer.

(* ================================================================== *)
(** * Runs without storage faults                                      *)
(* ================================================================== *)

(** In a quiet world every function of the storage layer is a function
    of the database, the clock and the zone.  The lemmas of this section
    give that function for each of them. *)

Section QuietRuns.

Lemma command_quiet {A} (f : DB -> A * DB) d t z :
  command f (quiet d t z) = (inr (f d).1, quiet (f d).2 t z).
Proof. unfold command, quiet. cbn. destruct (f d). reflexivity. Qed.

Lemma convertToISODate_run date w :
  convertToISODate date w = (normalize (tz w) (clock w) date, w).
Proof.
  unfold convertToISODate, normalize, bind, Date_now, zone.
  destruct (JS.Number <$> JS.split "." date) as [|day [|month r]]; [reflexivity|..];
    destruct (isoDateOf _ _ _ _); reflexivity.
Qed.

Lemma normalize_dotted z now date :
  JS.includes date "." = true -> exists s, normalize z now date = inr s.
Proof.
  intros H. destruct (convertToISODate_dotted (quiet emptyDB now z) date H) as [s E].
  rewrite convertToISODate_run in E. cbn [tz clock quiet] in E.
  exists s. congruence.
Qed.

Lemma normalize_undotted z now date :
  JS.includes date "." = false -> normalize z now date = inl undefinedMonth.
Proof.
  intros H. pose proof (convertToISODate_undotted (quiet emptyDB now z) date H) as E.
  rewrite convertToISODate_run in E. cbn [tz clock quiet] in E. congruence.
Qed.

Lemma storeDays_quiet schedule ds : forall n d t z,
  storeDays schedule t ds n (quiet d t z) =
  (if allDotted ds then inr (n + length ds)%nat else inl undefinedMonth,
   quiet (writeDays schedule z t ds d) t z).
Proof.
  induction ds as [|day rest IH]; intros n d t z.
  - cbn. rewrite Nat.add_0_r. reflexivity.
  - cbn [storeDays writeDays allDotted forallb length].
    unfold bind at 1. rewrite convertToISODate_run. cbn [tz clock quiet].
    fold (allDotted rest). unfold dotted at 1.
    destruct (JS.includes (date day) ".") eqn:Hdot.
    + destruct (normalize_dotted z t _ Hdot) as [iso E]. rewrite E.
      unfold bind at 1. unfold Redis.setDay. rewrite command_quiet. cbn [fst snd].
      unfold bind at 1. unfold Redis.zaddDay. rewrite command_quiet. cbn [fst snd].
      rewrite IH. cbn [andb]. replace (S n + length rest)%nat with (n + S (length rest))%nat by lia.
      reflexivity.
    + rewrite (normalize_undotted z t _ Hdot). reflexivity.
Qed.

Lemma storeWeekSchedule_quiet s d t z :
  storeWeekSchedule s (quiet d t z) =
  if allDotted (days s)
  then (inr (length (days s)),
        quiet (putLatestUpdate t (putWeek (week s) (weekMetaOf s)
                 (writeDays s z t (days s) d))) t z)
  else (inr 0%nat, quiet (writeDays s z t (days s) d) t z).
Proof.
  unfold storeWeekSchedule, try, bind at 1, Date_now. cbn [clock quiet].
  unfold bind at 1. rewrite storeDays_quiet.
  destruct (allDotted (days s)); [|reflexivity].
  unfold bind at 1, Redis.setWeek. rewrite command_quiet. cbn [fst snd].
  unfold bind at 1, Redis.setLatestUpdate. rewrite command_quiet. reflexivity.
Qed.

Lemma weekScheduleExists_quiet wk d t z :
  weekScheduleExists wk (quiet d t z) =
  (inr (bool_decide (is_Some (weekRecords d !! wk))), quiet d t z).
Proof.
  unfold weekScheduleExists, try, bind, Redis.existsWeek. rewrite command_quiet.
  cbn [fst snd ret]. destruct (weekRecords d !! wk) eqn:E.
  - rewrite bool_decide_eq_true_2 by eauto. reflexivity.
  - rewrite bool_decide_eq_false_2; [reflexivity|]. intros [? ?]; discriminate.
Qed.

Lemma getDayScheduleByISO_quiet iso d t z :
  getDayScheduleByISO iso (quiet d t z) = (inr (dayRecords d !! iso), quiet d t z).
Proof. unfold getDayScheduleByISO, try, Redis.getDay. rewrite command_quiet. reflexivity. Qed.

Lemma fetchAll_quiet dates d t z :
  fetchAll dates (quiet d t z) =
  (inr ((fun iso => dayRecords d !! iso) <$> dates), quiet d t z).
Proof.
  induction dates as [|iso r IH]; [reflexivity|].
  cbn [fetchAll]. unfold bind. rewrite getDayScheduleByISO_quiet, IH. reflexivity.
Qed.

(** [getAllDaySchedules] lists the records in the reverse order of the
    date index, which is the order of the scores written by [zadd]. *)
Lemma getAllDaySchedules_quiet d t z :
  getAllDaySchedules (quiet d t z) =
  (inr (omap (fun iso => dayRecords d !! iso) (zrangeAll true (daysList d))),
   quiet d t z).
Proof.
  unfold getAllDaySchedules, try, bind, Redis.zrangeDays.
  rewrite command_quiet. cbn [fst snd].
  destruct (zrangeAll true (daysList d)) as [|iso r] eqn:E; [reflexivity|].
  rewrite fetchAll_quiet. cbn [ret]. f_equal. f_equal.
  generalize (iso :: r). intros l. induction l as [|x l IH]; [reflexivity|].
  cbn. destruct (dayRecords d !! x); cbn; rewrite IH; reflexivity.
Qed.

Lemma logScrapingOperation_quiet e d t z :
  logScrapingOperation e (quiet d t z) =
  (inr tt, quiet (putLog (utcDateString t) e d) t z).
Proof.
  unfold logScrapingOperation, try, bind, Date_now, Redis.setLog. cbn [clock quiet].
  rewrite command_quiet. reflexivity.
Qed.

End QuietRuns.

(* ================================================================== *)
(** * The Freshness Evaluator                                          *)
(* ================================================================== *)

Section Freshness.

Lemma shouldSkipScraping_outcome w :
  fst (shouldSkipScraping w) = inr (skipOutcome w).
Proof.
  destruct w as [d t z fs].
  unfold shouldSkipScraping, skipOutcome, try, bind, Redis.zrangeDays,
    Redis.getLatestUpdate, command, Date_now, zone, verdict, daysSinceUpdate.
  cbn [faults db clock tz popFault setDB tail].
  destruct fs as [|[] fs]; try reflexivity.
  - destruct (zrangeAll false (daysList d)); [reflexivity|].
    cbn [faults db clock tz popFault setDB tail].
    destruct ((14 <=? _) && _); reflexivity.
  - destruct (zrangeAll false (daysList d)); [reflexivity|].
    cbn [faults db clock tz popFault setDB tail].
    destruct fs as [|[] fs]; try reflexivity;
      cbn [faults db clock tz popFault setDB tail];
      destruct ((14 <=? _) && _); reflexivity.
Qed.

Lemma shouldSkipScraping_quiet d t z :
  shouldSkipScraping (quiet d t z) =
  (inr (skipOutcome (quiet d t z)), quiet d t z).
Proof.
  unfold shouldSkipScraping, skipOutcome, try, bind, Redis.zrangeDays,
    Redis.getLatestUpdate, Date_now, zone, verdict, daysSinceUpdate.
  rewrite command_quiet. cbn [fst snd faults db clock tz quiet tail].
  destruct (zrangeAll false (daysList d)); [reflexivity|].
  rewrite command_quiet. cbn [fst snd faults db clock tz quiet tail].
  destruct ((14 <=? _) && _); reflexivity.
Qed.

Lemma laterDate_ge m s : m <= laterDate m s.
Proof.
  unfold laterDate, JS.dateGt. destruct (JS.parseDate s); cbn; [|lia].
  destruct (Z.ltb_spec m z); lia.
Qed.






Lemma verdict_skip ahead since :
  shouldSkip (verdict ahead since) = true <-> 14 <= ahead /\ since < 5.
Proof.
  unfold verdict.
  destruct (Z.leb_spec 14 ahead), (Z.ltb_spec since 5); cbn; split;
    intros; try discriminate; try reflexivity; lia.
Qed.




Lemma shouldSkipScraping_total w :
  exists w', shouldSkipScraping w = (inr (skipOutcome w), w').
Proof.
  pose proof (shouldSkipScraping_outcome w) as H.
  destruct (shouldSkipScraping w) as [r w']. cbn in H. subst r. eauto.
Qed.

Lemma logScrapingOperation_total e w :
  exists w', logScrapingOperation e w = (inr tt, w') /\
             dayRecords (db w') = dayRecords (db w) /\
             daysList (db w') = daysList (db w) /\
             weekRecords (db w') = weekRecords (db w) /\
             latestUpdate (db w') = latestUpdate (db w).
Proof.
  destruct w as [d t z fs].
  unfold logScrapingOperation, try, bind, Date_now, Redis.setLog, command.
  cbn [faults db clock]. destruct fs as [|[] fs]; eexists; (split; [reflexivity|]);
    cbn; auto.
Qed.


End Freshness.

(* ================================================================== *)
(** * The collaborators do not touch the world                         *)
(* ================================================================== *)

Section Collaborating.

Variable c : Collaborators.

Lemma worldFree_ret {A} (a : A) : worldFree (ret a).
Proof. exists (inr a). reflexivity. Qed.

Lemma worldFree_throw {A} e : worldFree (@throw A e).
Proof. exists (inl e). reflexivity. Qed.

Lemma worldFree_liftE {A} (r : Exn + A) : worldFree (liftE r).
Proof. destruct r; [apply worldFree_throw|apply worldFree_ret]. Qed.

Lemma worldFree_bind {A B} (m : M A) (k : A -> M B) :
  worldFree m -> (forall a, worldFree (k a)) -> worldFree (bind m k).
Proof.
  intros [r Hr] Hk. destruct r as [e|a].
  - exists (inl e). intros w. unfold bind. rewrite Hr. reflexivity.
  - destruct (Hk a) as [r' Hr']. exists r'. intros w. unfold bind. rewrite Hr. apply Hr'.
Qed.

Lemma worldFree_try {A} (m : M A) (h : Exn -> M A) :
  worldFree m -> (forall e, worldFree (h e)) -> worldFree (try m h).
Proof.
  intros [r Hr] Hh. destruct r as [e|a].
  - destruct (Hh e) as [r' Hr']. exists r'. intros w. unfold try. rewrite Hr. apply Hr'.
  - exists (inr a). intros w. unfold try. rewrite Hr. reflexivity.
Qed.

Lemma worldFree_mapM {A B} (f : A -> M B) l :
  (forall a, worldFree (f a)) -> worldFree (mapM f l).
Proof.
  intros Hf. induction l as [|a r IH]; cbn [mapM]; [apply worldFree_ret|].
  apply worldFree_bind; [apply Hf|]. intros b.
  apply worldFree_bind; [apply IH|]. intros bs. apply worldFree_ret.
Qed.

Lemma scrapeCategoryPage_worldFree : worldFree (scrapeCategoryPage c).
Proof.
  apply worldFree_try; [|intros; apply worldFree_throw].
  apply worldFree_bind; [apply worldFree_liftE|]. intros r.
  destruct (default [] r); apply worldFree_ret.
Qed.

Lemma scrapeBlogPost_worldFree u : worldFree (scrapeBlogPost c u).
Proof.
  apply worldFree_try; [|intros; apply worldFree_throw].
  apply worldFree_bind; [apply worldFree_liftE|]. intros [[|a md]|];
    try apply worldFree_throw; apply worldFree_ret.
Qed.

Lemma scrapeAllBlogPosts_worldFree : worldFree (scrapeAllBlogPosts c).
Proof.
  apply worldFree_try; [|intros; apply worldFree_throw].
  apply worldFree_bind; [apply scrapeCategoryPage_worldFree|]. intros [|u us].
  - apply worldFree_ret.
  - apply worldFree_mapM. intros a. apply scrapeBlogPost_worldFree.
Qed.

Lemma scrapeAllBlogPosts_run w : scrapeAllBlogPosts c w = (acquire c, w).
Proof.
  destruct scrapeAllBlogPosts_worldFree as [r Hr].
  unfold acquire. rewrite !Hr. reflexivity.
Qed.

Lemma parseScheduleWithLLM_run post w :
  parseScheduleWithLLM c (markdown post) (url post) w = (parseOne c (clock w) post, w).
Proof.
  unfold parseScheduleWithLLM, parseOne, try, bind, liftE, Date_now.
  destruct (generateObject c (markdown post)) as [e|[o|]]; reflexivity.
Qed.

Lemma parseLoop_run posts : forall ss es w,
  parseLoop c posts ss es w =
  (inr (app ss (omap (parsedSchedule c (clock w)) posts),
        app es (omap (parseFailure c (clock w)) posts)), w).
Proof.
  induction posts as [|p r IH]; intros ss es w.
  - cbn. rewrite !app_nil_r. reflexivity.
  - cbn [parseLoop]. unfold bind at 1, try, bind at 1.
    rewrite parseScheduleWithLLM_run.
    cbn [omap list_omap]. unfold parsedSchedule at 1, parseFailure at 1.
    destruct (parseOne c (clock w) p) as [e|s]; cbn [ret fst snd];
      rewrite IH; cbn [fst snd]; rewrite <- ?app_assoc; reflexivity.
Qed.

(** [parseAllSchedules] keeps the schedules of the documents that parse
    and drops the messages of those that do not. *)
Lemma parseAllSchedules_run posts w :
  parseAllSchedules c posts w = (inr (omap (parsedSchedule c (clock w)) posts), w).
Proof. unfold parseAllSchedules, bind. rewrite parseLoop_run. reflexivity. Qed.

End Collaborating.

(* ================================================================== *)
(** * The ingestion run without storage faults                         *)
(* ================================================================== *)

Section Ingestion.

Lemma storeStep_quiet s a d t z :
  storeStep s a (quiet d t z) =
  (inr (storeStepOn z t (a, d) s).1, quiet (storeStepOn z t (a, d) s).2 t z).
Proof.
  unfold storeStep, storeStepOn, try, bind at 1. rewrite weekScheduleExists_quiet.
  cbn [fst snd]. fold (recorded d (week s)).
  destruct (recorded d (week s)); [reflexivity|].
  unfold bind. rewrite storeWeekSchedule_quiet.
  unfold daysStoredOf, storeWeekDB.
  destruct (allDotted (days s)); cbn [fst snd].
  - destruct (0 <? length (days s))%nat; reflexivity.
  - reflexivity.
Qed.

Lemma storeLoop_quiet ss : forall a d t z,
  storeLoop ss a (quiet d t z) =
  (inr (fold_left (storeStepOn z t) ss (a, d)).1,
   quiet (fold_left (storeStepOn z t) ss (a, d)).2 t z).
Proof.
  induction ss as [|s r IH]; intros a d t z; [reflexivity|].
  cbn [storeLoop fold_left]. unfold bind. rewrite storeStep_quiet, IH.
  destruct (storeStepOn z t (a, d) s). reflexivity.
Qed.

Lemma POST_quiet c secret auth d t z :
  authorized secret auth = true ->
  POST c secret auth (quiet d t z) =
  (inr (runOn c d t z).1, quiet (runOn c d t z).2 t z).
Proof.
  intros Hauth. unfold POST, runOn. rewrite Hauth. cbn [negb].
  unfold try, bind at 1. rewrite shouldSkipScraping_quiet.
  destruct (shouldSkip (skipOutcome (quiet d t z))).
  - unfold bind, Date_now. cbn [clock quiet]. rewrite logScrapingOperation_quiet.
    reflexivity.
  - unfold bind at 1. rewrite scrapeAllBlogPosts_run.
    destruct (acquire c) as [e|posts].
    + unfold bind, Date_now. cbn [clock quiet]. rewrite logScrapingOperation_quiet.
      reflexivity.
    + destruct (isEmpty posts) eqn:Hposts.
      * unfold bind, Date_now. cbn [clock quiet]. rewrite logScrapingOperation_quiet.
        reflexivity.
      * unfold bind at 1. rewrite parseAllSchedules_run. cbn [clock quiet].
        unfold bind at 1. rewrite storeLoop_quiet.
        unfold bind, Date_now. cbn [clock quiet]. rewrite logScrapingOperation_quiet.
        reflexivity.
Qed.

Lemma POST_unauthorized c secret auth w :
  authorized secret auth = false ->
  POST c secret auth w = (inr {| status := 401; body := Unauthorized |}, w).
Proof. intros H. unfold POST, try. rewrite H. reflexivity. Qed.

End Ingestion.

(* ================================================================== *)
(** * What a stored submission writes                                  *)
(* ================================================================== *)

Section Writes.

(** Zone and instant of the run. *)
Variables z t : Z.

Lemma writeDays_weekRecords s ds : forall d,
  weekRecords (writeDays s z t ds d) = weekRecords d /\
  latestUpdate (writeDays s z t ds d) = latestUpdate d /\
  scrapingLogs (writeDays s z t ds d) = scrapingLogs d.
Proof.
  induction ds as [|day rest IH]; intros d; cbn [writeDays]; [auto|].
  destruct (normalize z t (date day)); [auto|].
  destruct (IH (zadd t s0 (putDay s0 (storedDay s day s0) d))) as (H1 & H2 & H3).
  rewrite H1, H2, H3. auto.
Qed.

(** After the day loop, the record under a key is the one that was there
    or one written from a day of the submission with that canonical
    date. *)
Lemma writeDays_lookup s ds : forall d K,
  dayRecords (writeDays s z t ds d) !! K = dayRecords d !! K \/
  exists day, day ∈ ds /\ normalize z t (date day) = inr K /\
              dayRecords (writeDays s z t ds d) !! K = Some (storedDay s day K).
Proof.
  induction ds as [|day rest IH]; intros d K; cbn [writeDays]; [auto|].
  destruct (normalize z t (date day)) as [e|iso] eqn:En; [auto|].
  destruct (IH (zadd t iso (putDay iso (storedDay s day iso) d)) K)
    as [Hsame|(day' & Hin & Hn & Hl)].
  - rewrite Hsame. cbn [dayRecords zadd putDay].
    destruct (decide (iso = K)) as [->|Hne].
    + right. exists day. rewrite lookup_insert_eq.
      split; [apply list_elem_of_here|]. split; [exact En|reflexivity].
    + left. apply lookup_insert_ne, Hne.
  - right. exists day'. split; [apply list_elem_of_further, Hin|]. split; assumption.
Qed.

(** When every date of the submission converts, each of its days ends
    up stored: the record under its canonical date comes from a day of
    this submission with that date (the last one, if several). *)
Lemma writeDays_written s ds : forall d day K,
  allDotted ds = true -> day ∈ ds -> normalize z t (date day) = inr K ->
  exists day', day' ∈ ds /\ normalize z t (date day') = inr K /\
               dayRecords (writeDays s z t ds d) !! K = Some (storedDay s day' K).
Proof.
  induction ds as [|a rest IH]; intros d day K Hall Hin Hn.
  - apply elem_of_nil in Hin. destruct Hin.
  - cbn [allDotted forallb] in Hall. apply andb_prop in Hall as [Ha Hrest].
    cbn [writeDays]. destruct (normalize_dotted z t _ Ha) as [iso Ea]. rewrite Ea.
    apply elem_of_cons in Hin as [->|Hin].
    + assert (iso = K) as -> by congruence.
      destruct (writeDays_lookup s rest
                  (zadd t K (putDay K (storedDay s a K) d)) K)
        as [Hsame|(day' & Hin' & Hn' & Hl)].
      * exists a. split; [apply list_elem_of_here|]. split; [exact Ea|].
        rewrite Hsame. cbn [dayRecords zadd putDay]. apply lookup_insert_eq.
      * exists day'. split; [apply list_elem_of_further, Hin'|]. split; assumption.
    + destruct (IH (zadd t iso (putDay iso (storedDay s a iso) d)) day K Hrest Hin Hn)
        as (day' & Hin' & Hn' & Hl).
      exists day'. split; [apply list_elem_of_further, Hin'|]. split; assumption.
Qed.




Lemma recorded_storeWeekDB_self s d :
  allDotted (days s) = true -> recorded (storeWeekDB z t s d) (week s) = true.
Proof.
  intros Hall. unfold recorded, storeWeekDB. rewrite Hall.
  apply bool_decide_eq_true. cbn [weekRecords putLatestUpdate putWeek].
  rewrite lookup_insert_eq. eauto.
Qed.










End Writes.

(* ================================================================== *)
(** * Running the pipeline again                                       *)
(* ================================================================== *)

Section Rerun.

Variable c : Collaborators.








End Rerun.

(* ================================================================== *)
(** * Properties of the specification                                  *)
(* ================================================================== *)

(** ** Date Normalizer *)

(** C2. For every partial date [DD.MM] (day and month numbers written on
    two digits) and every reference instant and zone, the Date
    Normalizer returns the canonical date whose year is the reference
    year, except that a December date seen from January gets the
    reference year minus one and a January date seen from December gets
    the reference year plus one.  With reference 2025-01-03 the partial
    date 30.12 gives 2024-12-30, and with reference 2024-12-20 the
    partial date 02.01 gives 2025-01-02. *)
Theorem convertToISODate_year_boundary :
  (forall (w : World) (day month : Z),
      0 <= day <= 99 -> 0 <= month <= 99 ->
      convertToISODate (partialDate day month) w =
      (inr (canonical
              (normalizedYear (JS.getFullYear (tz w) (clock w))
                              (JS.getMonth (tz w) (clock w) + 1) month)
              month day), w))
  /\ (forall d fs,
        fst (convertToISODate "30.12"
               {| db := d; clock := JS.utcTime 2025 1 3 12 0 0 0; tz := 0;
                  faults := fs |}) = inr "2024-12-30")
  /\ (forall d fs,
        fst (convertToISODate "02.01"
               {| db := d; clock := JS.utcTime 2024 12 20 12 0 0 0; tz := 0;
                  faults := fs |}) = inr "2025-01-02").
Proof.
  split; [|split].
  - intros w day month Hd Hm. apply convertToISODate_partial; assumption.
  - intros d fs. rewrite convertToISODate_run. vm_compute. reflexivity.
  - intros d fs. rewrite convertToISODate_run. vm_compute. reflexivity.
Qed.

Lemma convertToISODate_year_boundary_witness :
  convertToISODate (partialDate 30 12) (quiet emptyDB (JS.utcTime 2025 1 3 12 0 0 0) 0) =
  (inr (canonical
          (normalizedYear
             (JS.getFullYear 0 (JS.utcTime 2025 1 3 12 0 0 0))
             (JS.getMonth 0 (JS.utcTime 2025 1 3 12 0 0 0) + 1) 12) 12 30),
   quiet emptyDB (JS.utcTime 2025 1 3 12 0 0 0) 0).
Proof.
  apply (proj1 convertToISODate_year_boundary
           (quiet emptyDB (JS.utcTime 2025 1 3 12 0 0 0) 0) 30 12); lia.
Defined.

(** C3, counterexample. On 2025-06-15 the partial date 31.04 is converted
    to 2025-04-31 although April has thirty days. *)
Lemma convertToISODate_accepts_31_04 : ~ rejectsUnrealDates.
Proof.
  intros H.
  destruct (H (quiet emptyDB (JS.utcTime 2025 6 15 12 0 0 0) 0) 31 4) as [e He];
    [lia|lia|reflexivity|].
  vm_compute in He. discriminate He.
Qed.

(** C3, as amended. The Date Normalizer does not check the calendar.
    Every date string that contains a dot is converted, and a partial
    date [DD.MM] comes out as year-MM-DD with its day and month as
    given, whether or not that day exists (31.04 gives 2025-04-31).  The
    only failure is that of a string without a dot, which throws a
    [TypeError]; [getDaySchedule] turns it into an absent result.  The
    by-date route rejects, with status 400, exactly the strings that are
    not two digits, a dot and two digits. *)
Theorem convertToISODate_no_calendar_check :
  (forall (w : World) (s : string),
      (exists iso, convertToISODate s w = (inr iso, w)) <->
      JS.includes s "." = true)
  /\ (forall (w : World) (s : string),
        JS.includes s "." = false ->
        convertToISODate s w = (inl undefinedMonth, w) /\
        exists w', getDaySchedule s w = (inr None, w'))
  /\ (forall (w : World) (day month : Z),
        0 <= day <= 99 -> 0 <= month <= 99 ->
        exists y, fst (convertToISODate (partialDate day month) w) =
                  inr (canonical y month day))
  /\ (realDate 2025 4 31 = false /\
      fst (convertToISODate "31.04"
             (quiet emptyDB (JS.utcTime 2025 6 15 12 0 0 0) 0)) = inr "2025-04-31")
  /\ (forall (w : World) (s : string),
        exists r w', GET_date s w = (inr r, w') /\
                     (get_status r = 400 <-> datePattern s = false))
  /\ datePattern "31.04" = true.
Proof.
  split; [|split; [|split; [|split; [|split]]]].
  - intros w s. split.
    + intros [iso E]. destruct (JS.includes s ".") eqn:Hd; [reflexivity|].
      rewrite (convertToISODate_undotted w s Hd) in E. discriminate E.
    + intros Hd. apply convertToISODate_dotted, Hd.
  - intros w s Hd. split; [apply convertToISODate_undotted, Hd|].
    unfold getDaySchedule, try, bind.
    rewrite (convertToISODate_undotted w s Hd). eexists. reflexivity.
  - intros w day month Hd Hm. eexists.
    rewrite (convertToISODate_partial w day month Hd Hm). reflexivity.
  - split; vm_compute; reflexivity.
  - intros w s. unfold GET_date, try. destruct (datePattern s).
    + cbn [negb]. unfold bind.
      destruct (getDaySchedule s w) as [[e|r] w'] eqn:E;
        eexists; eexists; (split; [reflexivity|]); cbn; split; discriminate.
    + eexists; eexists. split; [reflexivity|]. cbn. split; reflexivity.
  - reflexivity.
Qed.

Lemma convertToISODate_no_calendar_check_witness :
  convertToISODate "3104" (quiet emptyDB 0 0) =
  (inl undefinedMonth, quiet emptyDB 0 0).
Proof.
  apply (proj1 (proj1 (proj2 convertToISODate_no_calendar_check)
                  (quiet emptyDB 0 0) "3104" eq_refl)).
Defined.

(** ** Freshness Evaluator *)



(** C8. Whenever one of the storage reads of [shouldSkipScraping] fails
    (the read of the date index, first, or the read of the last-update
    marker, second), the answer is not to skip. *)
Theorem shouldSkipScraping_read_failure (w : World) :
  faults w !! 0%nat = Some true \/ faults w !! 1%nat = Some true ->
  exists r, fst (shouldSkipScraping w) = inr r /\ shouldSkip r = false.
Proof.
  intros H. exists (skipOutcome w). split; [apply shouldSkipScraping_outcome|].
  unfold skipOutcome. destruct (faults w) as [|[] [|[] fs]]; cbn [tail];
    try reflexivity;
    try (destruct H as [H|H]; cbn in H; discriminate H);
    destruct (zrangeAll false (daysList (db w))); reflexivity.
Qed.

Lemma shouldSkipScraping_read_failure_witness :
  exists r,
    fst (shouldSkipScraping
           {| db := storeUpTo "2024-11-04" (JS.utcTime 2024 10 21 0 0 0 0);
              clock := JS.utcTime 2024 10 21 6 0 0 0; tz := 0;
              faults := [false; true] |}) = inr r /\
    shouldSkip r = false.
Proof.
  apply shouldSkipScraping_read_failure. right. reflexivity.
Defined.

(** ** Query Facade *)

(** C10. [getTodaySchedule] looks up the record stored under the UTC
    calendar date of the current instant, whatever the zone of the
    process; when the read fails it answers absent.  At 22:30 UTC on
    2025-06-15 in a zone two hours east of UTC the local date is the
    16th, and the record returned is the one stored under 2025-06-15. *)
Theorem getTodaySchedule_utc_date :
  (forall w : World,
      fst (getTodaySchedule w) =
      inr (match faults w with
           | true :: _ => None
           | _ => dayRecords (db w) !! utcDateString (clock w)
           end))
  /\ (forall t : Z,
        utcDateString t =
        let '(y, m, d) := JS.civilFromDays (t / JS.msPerDay) in
        JS.isoYear y ++ "-" ++ JS.pad 2 m ++ "-" ++ JS.pad 2 d)
  /\ (let now := JS.utcTime 2025 6 15 22 30 0 0 in
      let zone := 2 * 3600000 in
      let d := putDay "2025-06-16" (restDay "16.06" "Poniedzialek")
                 (putDay "2025-06-15" (restDay "15.06" "Niedziela") emptyDB) in
      (JS.getFullYear zone now, JS.getMonth zone now + 1, JS.getDate zone now)
        = (2025, 6, 16) /\
      utcDateString now = "2025-06-15" /\
      fst (getTodaySchedule (quiet d now zone)) =
        inr (Some (restDay "15.06" "Niedziela"))).
Proof.
  split; [|split].
  - intros [d t z fs]. unfold getTodaySchedule, try, bind, Date_now,
      getDayScheduleByISO, try, Redis.getDay, command. cbn [faults db clock].
    destruct fs as [|[] fs]; reflexivity.
  - apply utcDateString_civil.
  - cbv zeta. split; [vm_compute; reflexivity|]. split; [vm_compute; reflexivity|].
    vm_compute. reflexivity.
Qed.

(** C9, on the code. The week of 27 October is ingested on the 19th and
    the week of 20 October on the 20th.  [getAllDaySchedules] then lists
    the days of 20 and 21 October before those of 27 and 28 October: the
    order is that of the ingestion instants, which are the scores of the
    date index, and not that of the canonical dates. *)
Theorem getAllDaySchedules_ingestion_order :
  let next := weekOf "27/10/2024-02/11/2024"
                [trainingDay "27.10" "Niedziela" "Speed";
                 trainingDay "28.10" "Poniedzialek" "Athletic"] in
  let current := weekOf "20/10/2024-26/10/2024"
                   [trainingDay "20.10" "Niedziela" "Speed";
                    trainingDay "21.10" "Poniedzialek" "Athletic"] in
  let w1 := snd (storeWeekSchedule next
                   (quiet emptyDB (JS.utcTime 2024 10 19 6 0 0 0) 0)) in
  let w2 := snd (storeWeekSchedule current
                   (atClock (JS.utcTime 2024 10 20 6 0 0 0) w1)) in
  isoDates (fst (getAllDaySchedules w2)) =
  [Some "2024-10-21"; Some "2024-10-20"; Some "2024-10-28"; Some "2024-10-27"].
Proof. vm_compute. reflexivity. Qed.

(** ** Ingestion Pipeline *)







(** C5, counterexample. The run over [twoPosts] stores one schedule and
    its report has no error. *)
Lemma POST_drops_parse_failure : ~ parseFailureReported.
Proof.
  intros H.
  destruct (H twoPosts (Some "s3cret") (Some "Bearer s3cret")
              emptyDB (JS.utcTime 2024 10 21 6 0 0 0) 0 emptyCheck
              {| markdown := "Tydzien 27/10-02/11";
                 url := "https://blog/post/plan-treningowy" |}
              {| markdown := "Tydzien ???";
                 url := "https://blog/post/plan-treningowy-20-10" |}
              {| week := "27/10/2024-02/11/2024";
                 week_sourceUrl := "https://blog/post/plan-treningowy";
                 week_scrapedAt := "2024-10-21T06:00:00.000Z";
                 days := [trainingDay "27.10" "Niedziela" "Speed";
                          restDay "28.10" "Poniedzialek"] |}
              (Error "LLM failed to generate valid object"))
    as (r & res & Hr & Hrep & _ & Herr);
    try (vm_compute; reflexivity).
  - left. vm_compute. reflexivity.
  - vm_compute in Hr. injection Hr as <-. vm_compute in Hrep. injection Hrep as <-.
    cbn [errors] in Herr. apply elem_of_nil in Herr. exact Herr.
Qed.

(** C5, as amended. In an authorized run without storage faults that is
    not skipped and acquires two documents, one parsing to a submission
    with a fresh week identifier, at least one day and convertible
    dates, the other failing to parse: the failing document is skipped
    and the run goes on (status 200); the report has
    [schedulesProcessed = 1] and the days of the valid document are
    stored.  The message of the parse failure is not part of the report:
    its errors are empty and it says success. *)
Theorem POST_partial_batch (c : Collaborators) (secret auth : option string)
  (d : DB) (t z : Z) (sc : SkipCheck) (good bad : Post) (s : WeekSchedule) (e : Exn) :
  authorized secret auth = true ->
  fst (shouldSkipScraping (quiet d t z)) = inr sc -> shouldSkip sc = false ->
  acquiresPair c (quiet d t z) good bad ->
  fst (parseScheduleWithLLM c (markdown good) (url good) (quiet d t z)) = inr s ->
  fst (parseScheduleWithLLM c (markdown bad) (url bad) (quiet d t z)) = inl e ->
  weekRecords d !! week s = None ->
  days s <> [] ->
  allDotted (days s) = true ->
  exists r res w',
    POST c secret auth (quiet d t z) = (inr r, w') /\
    status r = 200 /\
    body r = Completed res [week s] [] (length (days s)) /\
    success res = true /\ schedulesProcessed res = 1%nat /\ errors res = [] /\
    is_Some (weekRecords (db w') !! week s) /\
    forall day K,
      day ∈ days s ->
      fst (convertToISODate (date day) (quiet d t z)) = inr K ->
      exists day', day' ∈ days s /\
                   fst (convertToISODate (date day') (quiet d t z)) = inr K /\
                   dayRecords (db w') !! K = Some (storedDay s day' K).
Proof.
  intros Hauth Hsc Hskip Hacq Hgood Hbad Hnew Hdays Hall.
  rewrite shouldSkipScraping_outcome in Hsc. injection Hsc as <-.
  rewrite parseScheduleWithLLM_run in Hgood, Hbad. cbn [fst clock quiet] in Hgood, Hbad.
  unfold acquiresPair in Hacq. rewrite scrapeAllBlogPosts_run in Hacq. cbn [fst] in Hacq.
  assert (Hparsed : exists posts, acquire c = inr posts /\ isEmpty posts = false /\
                      omap (parsedSchedule c t) posts = [s]).
  { destruct Hacq as [E|E]; eexists; (split; [exact E|]); (split; [reflexivity|]);
      cbn [omap list_omap]; unfold parsedSchedule; rewrite Hgood, Hbad; reflexivity. }
  destruct Hparsed as (posts & Eacq & Hne & Eparsed).
  rewrite (POST_quiet c secret auth d t z Hauth).
  unfold runOn. rewrite Hskip, Eacq, Hne, Eparsed. cbn [fold_left].
  assert (Hstep : storeStepOn z t (noAcc, d) s =
                  (pushStored (week s) (length (days s)) noAcc, storeWeekDB z t s d)).
  { unfold storeStepOn, recorded. cbn [fst snd].
    rewrite bool_decide_eq_false_2 by (rewrite Hnew; intros [? ?]; discriminate).
    unfold daysStoredOf. rewrite Hall.
    destruct (days s) as [|x xs]; [contradiction|]. reflexivity. }
  rewrite Hstep. cbn [fst snd pushStored noAcc storedSchedules skippedSchedules
                        storeErrors totalDaysStored app isEmpty length Nat.add].
  eexists. eexists. eexists. split; [reflexivity|].
  cbn [status body success schedulesProcessed errors resultAt db quiet].
  split; [reflexivity|]. split; [reflexivity|]. split; [reflexivity|].
  split; [reflexivity|]. split; [reflexivity|].
  split.
  - cbn [weekRecords putLog]. pose proof (recorded_storeWeekDB_self z t s d Hall) as Hr.
    unfold recorded in Hr. apply bool_decide_eq_true in Hr. exact Hr.
  - intros day K Hin HK. rewrite convertToISODate_run in HK.
    cbn [fst tz clock quiet] in HK.
    destruct (writeDays_written z t s (days s) d day K Hall Hin HK)
      as (day' & Hin' & Hn' & Hl).
    exists day'. split; [exact Hin'|]. split.
    + rewrite convertToISODate_run. exact Hn'.
    + cbn [dayRecords putLog]. unfold storeWeekDB. rewrite Hall. exact Hl.
Qed.

Lemma POST_partial_batch_witness :
  let s := {| week := "27/10/2024-02/11/2024";
              week_sourceUrl := "https://blog/post/plan-treningowy";
              week_scrapedAt := "2024-10-21T06:00:00.000Z";
              days := [trainingDay "27.10" "Niedziela" "Speed";
                       restDay "28.10" "Poniedzialek"] |} in
  let w := quiet emptyDB (JS.utcTime 2024 10 21 6 0 0 0) 0 in
  exists r res w',
    POST twoPosts (Some "s3cret") (Some "Bearer s3cret") w = (inr r, w') /\
    status r = 200 /\
    body r = Completed res [week s] [] (length (days s)) /\
    success res = true /\ schedulesProcessed res = 1%nat /\ errors res = [] /\
    is_Some (weekRecords (db w') !! week s) /\
    forall day K,
      day ∈ days s ->
      fst (convertToISODate (date day) w) = inr K ->
      exists day', day' ∈ days s /\
                   fst (convertToISODate (date day') w) = inr K /\
                   dayRecords (db w') !! K = Some (storedDay s day' K).
Proof.
  cbv zeta.
  apply (POST_partial_batch twoPosts (Some "s3cret") (Some "Bearer s3cret")
           emptyDB (JS.utcTime 2024 10 21 6 0 0 0) 0 emptyCheck
           {| markdown := "Tydzien 27/10-02/11";
              url := "https://blog/post/plan-treningowy" |}
           {| markdown := "Tydzien ???";
              url := "https://blog/post/plan-treningowy-20-10" |}
           _ (Error "LLM failed to generate valid object")).
  - reflexivity.
  - vm_compute; reflexivity.
  - reflexivity.
  - left. vm_compute. reflexivity.
  - vm_compute; reflexivity.
  - vm_compute; reflexivity.
  - reflexivity.
  - discriminate.
  - vm_compute; reflexivity.
Defined.




(* ================================================================== *)
(** * What a call does to the world                                    *)
(* ================================================================== *)

(** A relation between worlds that is reflexive and transitive passes
    through the combinators of the monad. *)

Section Respecting.

Variable R : World -> World -> Prop.
Hypothesis R_refl : forall w, R w w.
Hypothesis R_trans : forall w1 w2 w3, R w1 w2 -> R w2 w3 -> R w1 w3.

Lemma respects_ret {A} (a : A) : respects R (ret a).
Proof. intros w. apply R_refl. Qed.

Lemma respects_throw {A} e : respects R (@throw A e).
Proof. intros w. apply R_refl. Qed.

Lemma respects_Date_now : respects R Date_now.
Proof. intros w. apply R_refl. Qed.

Lemma respects_zone : respects R zone.
Proof. intros w. apply R_refl. Qed.

Lemma respects_bind {A B} (m : M A) (k : A -> M B) :
  respects R m -> (forall a, respects R (k a)) -> respects R (bind m k).
Proof.
  intros Hm Hk w. unfold bind. specialize (Hm w).
  destruct (m w) as [[e|a] w']; cbn [snd] in *; [exact Hm|].
  apply (R_trans _ w'); [exact Hm|apply Hk].
Qed.

Lemma respects_try {A} (m : M A) (h : Exn -> M A) :
  respects R m -> (forall e, respects R (h e)) -> respects R (try m h).
Proof.
  intros Hm Hh w. unfold try. specialize (Hm w).
  destruct (m w) as [[e|a] w']; cbn [snd] in *; [|exact Hm].
  apply (R_trans _ w'); [exact Hm|apply Hh].
Qed.

Lemma respects_convertToISODate s : respects R (convertToISODate s).
Proof. intros w. rewrite convertToISODate_run. apply R_refl. Qed.

End Respecting.

Section TimeAndStore.

Lemma sameTime_refl w : sameTime w w.
Proof. split; reflexivity. Qed.

Lemma sameTime_trans w1 w2 w3 : sameTime w1 w2 -> sameTime w2 w3 -> sameTime w1 w3.
Proof. intros [H1 H2] [H3 H4]. split; congruence. Qed.

Lemma untouched_refl w : untouched w w.
Proof. split; [reflexivity|apply sameTime_refl]. Qed.

Lemma untouched_trans w1 w2 w3 : untouched w1 w2 -> untouched w2 w3 -> untouched w1 w3.
Proof.
  intros [H1 H2] [H3 H4]. split; [congruence|].
  apply (sameTime_trans _ w2); assumption.
Qed.

(** A command changes neither the clock nor the zone. *)
Lemma command_sameTime {A} (f : DB -> A * DB) : respects sameTime (command f).
Proof.
  intros [d t z fs]. unfold command. cbn [faults db].
  destruct fs as [|[] fs]; [destruct (f d)|..|destruct (f d)]; split; reflexivity.
Qed.

(** A command that returns the database it was given is a read. *)
Lemma command_untouched {A} (g : DB -> A) :
  respects untouched (command (fun d => (g d, d))).
Proof.
  intros [d t z fs]. unfold command. cbn [faults db].
  destruct fs as [|[] fs]; repeat split; reflexivity.
Qed.

Lemma fetchAll_untouched dates : respects untouched (fetchAll dates).
Proof.
  induction dates as [|iso r IH]; cbn [fetchAll].
  - apply respects_ret, untouched_refl.
  - apply respects_bind; [apply untouched_trans|..].
    + apply respects_try; [apply untouched_trans|..].
      * apply command_untouched.
      * intros e. apply respects_ret, untouched_refl.
    + intros s. apply respects_bind; [apply untouched_trans|exact IH|].
      intros ss. apply respects_ret, untouched_refl.
Qed.

End TimeAndStore.

(** Goals of the form [respects untouched m], for [m] built from reads. *)
Ltac reads :=
  repeat first
    [ apply command_untouched
    | apply fetchAll_untouched
    | apply respects_ret; [apply untouched_refl]
    | apply respects_throw; [apply untouched_refl]
    | apply respects_Date_now; [apply untouched_refl]
    | apply respects_zone; [apply untouched_refl]
    | apply respects_convertToISODate; [apply untouched_refl]
    | apply respects_bind; [apply untouched_trans| |intro]
    | apply respects_try; [apply untouched_trans| |intro] ].

Section QueriesOnlyRead.

Lemma getDayScheduleByISO_untouched iso : respects untouched (getDayScheduleByISO iso).
Proof. unfold getDayScheduleByISO, Redis.getDay. reads. Qed.

Lemma getDaySchedule_untouched s : respects untouched (getDaySchedule s).
Proof. unfold getDaySchedule. reads; try apply getDayScheduleByISO_untouched. Qed.

Lemma getTodaySchedule_untouched : respects untouched getTodaySchedule.
Proof. unfold getTodaySchedule. reads; try apply getDayScheduleByISO_untouched. Qed.

Lemma getAllDaySchedules_untouched : respects untouched getAllDaySchedules.
Proof.
  unfold getAllDaySchedules, Redis.zrangeDays. reads.
  destruct a; reads.
Qed.

Lemma exists_untouched iso wk :
  respects untouched (dayScheduleExists iso) /\
  respects untouched (weekScheduleExists wk).
Proof.
  unfold dayScheduleExists, weekScheduleExists, Redis.existsDay, Redis.existsWeek.
  split; reads.
Qed.

Lemma shouldSkipScraping_untouched : respects untouched shouldSkipScraping.
Proof.
  unfold shouldSkipScraping, Redis.zrangeDays, Redis.getLatestUpdate. reads.
  destruct a; reads. destruct (_ && _); reads.
Qed.

End QueriesOnlyRead.

(* ================================================================== *)
(** * Functions that catch their own failures                        *)
(* ================================================================== *)

Section NeverThrowing.

Lemma neverThrows_ret {A} (a : A) : neverThrows (ret a).
Proof. intros w. exists a. reflexivity. Qed.

(** A [try] whose handler answers always answers. *)
Lemma neverThrows_try {A} (m : M A) (h : Exn -> M A) :
  (forall e, neverThrows (h e)) -> neverThrows (try m h).
Proof.
  intros Hh w. unfold try. destruct (m w) as [[e|a] w']; [apply Hh|].
  exists a. reflexivity.
Qed.

Lemma storage_reads_neverThrow :
  (forall iso, neverThrows (getDayScheduleByISO iso)) /\
  (forall s, neverThrows (getDaySchedule s)) /\
  neverThrows getTodaySchedule /\ neverThrows getAllDaySchedules /\
  (forall iso, neverThrows (dayScheduleExists iso)) /\
  (forall wk, neverThrows (weekScheduleExists wk)) /\
  neverThrows shouldSkipScraping.
Proof.
  repeat split; intros; apply neverThrows_try; intros; apply neverThrows_ret.
Qed.

Lemma storage_writes_neverThrow :
  (forall s, neverThrows (storeWeekSchedule s)) /\
  (forall e, neverThrows (logScrapingOperation e)).
Proof. split; intros; apply neverThrows_try; intros; apply neverThrows_ret. Qed.

End NeverThrowing.

Section ReadRoutes.

Lemma datePattern_shape s :
  datePattern s = true ->
  exists a b c d, s = String a (String b (String "." (String c (String d "")))).
Proof.
  destruct s as [|a [|b [|p [|c [|d [|x r]]]]]]; try discriminate;
    destruct p as [[] [] [] [] [] [] [] []]; try discriminate.
  intros _. eauto.
Qed.

Lemma datePattern_dotted s : datePattern s = true -> JS.includes s "." = true.
Proof.
  intros H. destruct (datePattern_shape s H) as (a & b & c & d & ->).
  rewrite includes_char. apply negb_true_iff. cbn [noChar].
  rewrite Ascii.eqb_refl. cbn [negb].
  rewrite andb_false_l, !andb_false_r. reflexivity.
Qed.

(** A lookup whose read fails answers absent. *)
Lemma getDayScheduleByISO_fault iso w :
  faults w !! 0%nat = Some true ->
  getDayScheduleByISO iso w = (inr None, popFault w).
Proof.
  destruct w as [d t z fs]. cbn [faults]. intros H.
  destruct fs as [|[] fs]; try discriminate H. reflexivity.
Qed.

Lemma getDaySchedule_fault s w :
  JS.includes s "." = true -> faults w !! 0%nat = Some true ->
  getDaySchedule s w = (inr None, popFault w).
Proof.
  intros Hd Hf. unfold getDaySchedule, try, bind.
  destruct (convertToISODate_dotted w s Hd) as [iso E]. rewrite E.
  rewrite (getDayScheduleByISO_fault iso w Hf). reflexivity.
Qed.

End ReadRoutes.

(* ================================================================== *)
(** * The storing loop in any world                                  *)
(* ================================================================== *)

Section WritesKeepTime.

(** Goals of the form [respects sameTime m]. *)
Ltac timed :=
  repeat first
    [ apply command_sameTime
    | apply respects_ret; [apply sameTime_refl]
    | apply respects_throw; [apply sameTime_refl]
    | apply respects_Date_now; [apply sameTime_refl]
    | apply respects_zone; [apply sameTime_refl]
    | apply respects_convertToISODate; [apply sameTime_refl]
    | apply respects_bind; [apply sameTime_trans| |intro]
    | apply respects_try; [apply sameTime_trans| |intro] ].

Lemma untouched_sameTime {A} (m : M A) : respects untouched m -> respects sameTime m.
Proof. intros H w. apply H. Qed.

Lemma storeDays_sameTime s now ds : forall n, respects sameTime (storeDays s now ds n).
Proof.
  induction ds as [|day rest IH]; intros n; cbn [storeDays].
  - timed.
  - unfold Redis.setDay, Redis.zaddDay. timed. apply IH.
Qed.

Lemma storeWeekSchedule_sameTime s : respects sameTime (storeWeekSchedule s).
Proof.
  unfold storeWeekSchedule, Redis.setWeek, Redis.setLatestUpdate. timed.
  apply storeDays_sameTime.
Qed.

Lemma logScrapingOperation_sameTime e : respects sameTime (logScrapingOperation e).
Proof. unfold logScrapingOperation, Redis.setLog. timed. Qed.

(** One turn of the storing loop always ends in one of its three
    regular ways: the handler of the turn is never reached, since the
    two functions it calls catch their own failures. *)
Lemma storeStep_general s a w :
  exists a' w', storeStep s a w = (inr a', w') /\ sameTime w w' /\ stepped s a a'.
Proof.
  pose proof (untouched_sameTime _ (proj2 (exists_untouched "" (week s))) w) as Ht1.
  destruct storage_reads_neverThrow as (_ & _ & _ & _ & _ & Hex & _).
  destruct storage_writes_neverThrow as (Hst & _).
  unfold storeStep, try, bind. destruct (Hex (week s) w) as [b Hb].
  destruct (weekScheduleExists (week s) w) as [[e|[]] w1]; cbn [fst snd] in Ht1, Hb;
    [discriminate Hb|..].
  - eexists; eexists. split; [reflexivity|]. split; [exact Ht1|]. left. reflexivity.
  - pose proof (storeWeekSchedule_sameTime s w1) as Ht2.
    destruct (Hst s w1) as [n' Hn'].
    destruct (storeWeekSchedule s w1) as [[e|n] w2]; cbn [fst snd] in Ht2, Hn';
      [discriminate Hn'|].
    destruct (0 <? n)%nat eqn:Hn; eexists; eexists; (split; [reflexivity|]);
      (split; [apply (sameTime_trans _ w1); assumption|]).
    + right. left. exists n. split; [apply Nat.ltb_lt, Hn|reflexivity].
    + right. right. reflexivity.
Qed.

Lemma stepped_tally s a a' : stepped s a a' -> tally a' = S (tally a).
Proof.
  unfold tally.
  intros [->|[(n & _ & ->)| ->]]; cbn [pushSkipped pushStored pushError
    storedSchedules skippedSchedules storeErrors]; rewrite length_app; cbn; lia.
Qed.

Lemma stepped_days s a a' :
  stepped s a a' ->
  (length (storedSchedules a) <= totalDaysStored a)%nat ->
  (length (storedSchedules a') <= totalDaysStored a')%nat.
Proof.
  intros [->|[(n & Hn & ->)| ->]] H; cbn [pushSkipped pushStored pushError
    storedSchedules totalDaysStored]; [exact H| |exact H].
  rewrite length_app. cbn. lia.
Qed.

Lemma stepped_weeks s a a' wk :
  stepped s a a' ->
  wk ∈ app (storedSchedules a') (skippedSchedules a') ->
  wk ∈ app (storedSchedules a) (skippedSchedules a) \/ wk = week s.
Proof.
  intros [->|[(n & _ & ->)| ->]]; cbn [pushSkipped pushStored pushError
    storedSchedules skippedSchedules]; rewrite ?elem_of_app; rewrite ?list_elem_of_singleton;
    tauto.
Qed.

(** The storing loop always ends, keeps the clock, and files every
    submission once. *)
Lemma storeLoop_general ss : forall a w,
  exists a' w',
    storeLoop ss a w = (inr a', w') /\ sameTime w w' /\
    tally a' = (tally a + length ss)%nat /\
    ((length (storedSchedules a) <= totalDaysStored a)%nat ->
     (length (storedSchedules a') <= totalDaysStored a')%nat) /\
    (forall wk, wk ∈ app (storedSchedules a') (skippedSchedules a') ->
                wk ∈ app (storedSchedules a) (skippedSchedules a) \/
                exists s, s ∈ ss /\ wk = week s).
Proof.
  induction ss as [|s r IH]; intros a w.
  - exists a, w. split; [reflexivity|]. split; [apply sameTime_refl|].
    split; [cbn; lia|]. split; [auto|]. auto.
  - cbn [storeLoop]. unfold bind.
    destruct (storeStep_general s a w) as (a1 & w1 & E1 & Ht1 & Hs). rewrite E1.
    destruct (IH a1 w1) as (a' & w' & E & Ht & Htally & Hdays & Hweeks).
    exists a', w'. split; [exact E|].
    split; [apply (sameTime_trans _ w1); assumption|].
    split; [rewrite Htally, (stepped_tally s a a1 Hs); cbn; lia|].
    split; [intros H; apply Hdays, (stepped_days s a a1 Hs H)|].
    intros wk Hwk. destruct (Hweeks wk Hwk) as [H|(s' & Hin & ->)].
    + destruct (stepped_weeks s a a1 wk Hs H) as [H2 | ->]; [left; exact H2|].
      right. exists s. split; [apply list_elem_of_here|reflexivity].
    + right. exists s'. split; [apply list_elem_of_further, Hin|reflexivity].
Qed.

End WritesKeepTime.

(* ================================================================== *)
(** * The ingestion run in any world                                 *)
(* ================================================================== *)

Section RunInAnyWorld.

Variable c : Collaborators.
Variables secret auth : option string.

(** The four ways an authorized run can end, in any world: skipped,
    failed acquisition, no document, or a completed storing loop.  The
    world [w1] is the one the freshness check leaves. *)
Lemma POST_cases w :
  authorized secret auth = true ->
  exists w1 w',
    shouldSkipScraping w = (inr (skipOutcome w), w1) /\ untouched w w1 /\
    sameTime w w' /\
    ((shouldSkip (skipOutcome w) = true /\
      POST c secret auth w =
        (inr {| status := 200;
                body := Skipped (resultAt (clock w) true 0 [] [])
                          (reason (skipOutcome w)) (daysAhead (skipOutcome w)) |}, w') /\
      exists l, logScrapingOperation l w1 = (inr tt, w')) \/
     (shouldSkip (skipOutcome w) = false /\
      exists e, acquire c = inl e /\
      POST c secret auth w =
        (inr {| status := 500;
                body := Fatal (resultAt (clock w) false 0 [message e] []) |}, w') /\
      exists l, logScrapingOperation l w1 = (inr tt, w')) \/
     (shouldSkip (skipOutcome w) = false /\ acquire c = inr [] /\
      POST c secret auth w =
        (inr {| status := 200;
                body := Plain (resultAt (clock w) false 0 ["No blog posts found"] []) |},
         w') /\
      exists l, logScrapingOperation l w1 = (inr tt, w')) \/
     (shouldSkip (skipOutcome w) = false /\
      exists posts a w2,
        acquire c = inr posts /\ posts <> [] /\
        storeLoop (omap (parsedSchedule c (clock w)) posts) noAcc w1 = (inr a, w2) /\
        POST c secret auth w =
          (inr {| status := 200;
                  body := Completed
                            (resultAt (clock w) (isEmpty (storeErrors a))
                               (length (storedSchedules a)) (storeErrors a)
                               (url <$> posts))
                            (storedSchedules a) (skippedSchedules a)
                            (totalDaysStored a) |}, w') /\
        exists l, logScrapingOperation l w2 = (inr tt, w'))).
Proof.
  intros Hauth.
  destruct (shouldSkipScraping_total w) as [w1 E1].
  pose proof (shouldSkipScraping_untouched w) as Hu. rewrite E1 in Hu. cbn [snd] in Hu.
  destruct Hu as [Hdb [Hclock Htz]].
  assert (Hlog : forall l w2, sameTime w w2 ->
            exists w', logScrapingOperation l w2 = (inr tt, w') /\ sameTime w w').
  { intros l w2 Ht. destruct (logScrapingOperation_total l w2) as (w' & E & _).
    exists w'. split; [exact E|].
    pose proof (logScrapingOperation_sameTime l w2) as H. rewrite E in H.
    apply (sameTime_trans _ w2); assumption. }
  assert (Ht1 : sameTime w w1) by (split; assumption).
  destruct (shouldSkip (skipOutcome w)) eqn:Hskip.
  - destruct (Hlog {| log_result := resultAt (clock w) true 0 [] [];
                      log_skip := Some (reason (skipOutcome w),
                                        daysAhead (skipOutcome w)) |} w1 Ht1)
      as (w' & E & Ht).
    exists w1, w'. split; [exact E1|]. split; [split; [exact Hdb|exact Ht1]|].
    split; [exact Ht|]. left. split; [reflexivity|]. split; [|eexists; exact E].
    unfold POST. rewrite Hauth. cbn [negb]. unfold try, bind at 1. rewrite E1, Hskip.
    unfold bind, Date_now. rewrite Hclock. unfold resultAt in E. rewrite E.
    reflexivity.
  - destruct (acquire c) as [e|posts] eqn:Hacq.
    + destruct (Hlog {| log_result := resultAt (clock w) false 0 [message e] [];
                        log_skip := None |} w1 Ht1) as (w' & E & Ht).
      exists w1, w'. split; [exact E1|]. split; [split; [exact Hdb|exact Ht1]|].
      split; [exact Ht|]. right. left. split; [reflexivity|]. exists e.
      split; [reflexivity|]. split; [|eexists; exact E].
      unfold POST. rewrite Hauth. cbn [negb]. unfold try, bind at 1. rewrite E1, Hskip.
      unfold bind at 1. rewrite scrapeAllBlogPosts_run, Hacq.
      unfold bind, Date_now. rewrite Hclock. unfold resultAt in E. rewrite E.
      reflexivity.
    + destruct posts as [|p ps].
      * destruct (Hlog {| log_result := resultAt (clock w) false 0
                                          ["No blog posts found"] [];
                          log_skip := None |} w1 Ht1) as (w' & E & Ht).
        exists w1, w'. split; [exact E1|]. split; [split; [exact Hdb|exact Ht1]|].
        split; [exact Ht|]. right. right. left. split; [reflexivity|].
        split; [reflexivity|]. split; [|eexists; exact E].
        unfold POST. rewrite Hauth. cbn [negb]. unfold try, bind at 1.
        rewrite E1, Hskip. unfold bind at 1. rewrite scrapeAllBlogPosts_run, Hacq.
        cbn [isEmpty]. unfold bind, Date_now. rewrite Hclock.
        unfold resultAt in E. rewrite E. reflexivity.
      * destruct (storeLoop_general
                    (omap (parsedSchedule c (clock w)) (p :: ps)) noAcc w1)
          as (a & w2 & E2 & Ht2 & _).
        destruct (Hlog {| log_result :=
                            resultAt (clock w) (isEmpty (storeErrors a))
                              (length (storedSchedules a)) (storeErrors a)
                              (url <$> p :: ps);
                          log_skip := None |} w2
                    (sameTime_trans _ _ _ Ht1 Ht2)) as (w' & E & Ht).
        exists w1, w'. split; [exact E1|]. split; [split; [exact Hdb|exact Ht1]|].
        split; [exact Ht|]. right. right. right. split; [reflexivity|].
        exists (p :: ps), a, w2. split; [reflexivity|]. split; [discriminate|].
        split; [exact E2|]. split; [|eexists; exact E].
        unfold POST. rewrite Hauth. cbn [negb]. unfold try, bind at 1.
        rewrite E1, Hskip. unfold bind at 1. rewrite scrapeAllBlogPosts_run, Hacq.
        cbn [isEmpty]. unfold bind at 1. rewrite parseAllSchedules_run, Hclock.
        unfold bind at 1. fold noAcc. rewrite E2.
        unfold bind, Date_now. destruct Ht2 as [Hc2 _]. rewrite Hc2, Hclock.
        unfold resultAt in E. rewrite E. reflexivity.
Qed.

End RunInAnyWorld.

(* ================================================================== *)
(** * The acquisition of the documents                                 *)
(* ================================================================== *)

Section Acquisition.

Variable c : Collaborators.

Lemma unique_elem l x : x ∈ unique l <-> x ∈ l.
Proof.
  induction l as [|a l IH]; cbn [unique]; [reflexivity|].
  rewrite !elem_of_cons, list_elem_of_filter, IH.
  destruct (decide (x = a)) as [->|Hne]; tauto.
Qed.

Lemma unique_NoDup l : NoDup (unique l).
Proof.
  induction l as [|a l IH]; cbn [unique]; [constructor|].
  apply NoDup_cons. split.
  - rewrite list_elem_of_filter. intros [H _]. apply H. reflexivity.
  - apply NoDup_filter, IH.
Qed.

(** The urls the category page yields, from the links of the answer. *)
Lemma scrapeCategoryPage_eq w :
  scrapeCategoryPage c w =
  (match categoryLinks c with
   | inl e => inl e
   | inr links =>
       inr (take 2 (unique (linkUrl <$> List.filter isPlanPost (default [] links))))
   end, w).
Proof.
  unfold scrapeCategoryPage, try, bind, liftE.
  destruct (categoryLinks c) as [e|[[|l r]|]]; reflexivity.
Qed.

Lemma scrapeBlogPost_eq u w :
  scrapeBlogPost c u w =
  (match postMarkdown c u with
   | inl e => inl e
   | inr None | inr (Some "") =>
       inl (Error ("Failed to scrape blog post (no markdown): " ++ u))
   | inr (Some md) => inr {| markdown := md; url := u |}
   end, w).
Proof.
  unfold scrapeBlogPost, try, bind, liftE.
  destruct (postMarkdown c u) as [e|[[|a s]|]]; reflexivity.
Qed.

(** A document is returned for a url exactly when its scrape answers
    with a non-empty markdown. *)
Lemma scrapeBlogPost_ok u w p :
  fst (scrapeBlogPost c u w) = inr p <->
  url p = u /\ markdown p <> "" /\ postMarkdown c u = inr (Some (markdown p)).
Proof.
  rewrite scrapeBlogPost_eq. cbn [fst].
  destruct (postMarkdown c u) as [e|[[|a s]|]]; split;
    try discriminate; try (intros (_ & H1 & H2); congruence).
  - intros [= <-]. cbn. split; [reflexivity|]. split; [discriminate|reflexivity].
  - destruct p as [md u']. cbn. intros (-> & _ & [= <-]). reflexivity.
Qed.

Lemma mapM_scrapeBlogPost us : forall w,
  snd (mapM (scrapeBlogPost c) us w) = w /\
  (forall posts, fst (mapM (scrapeBlogPost c) us w) = inr posts ->
     url <$> posts = us /\
     forall p, p ∈ posts ->
       markdown p <> "" /\ postMarkdown c (url p) = inr (Some (markdown p))) /\
  ((exists posts, fst (mapM (scrapeBlogPost c) us w) = inr posts) <->
   forall u, u ∈ us -> exists md, md <> "" /\ postMarkdown c u = inr (Some md)).
Proof.
  induction us as [|u us IH]; intros w.
  - cbn. split; [reflexivity|]. split.
    + intros posts [= <-]. split; [reflexivity|]. intros p Hp.
      apply elem_of_nil in Hp. destruct Hp.
    + split; [intros _ u Hu; apply elem_of_nil in Hu; destruct Hu|eauto].
  - assert (Estep : mapM (scrapeBlogPost c) (u :: us) w =
                     match scrapeBlogPost c u w with
                     | (inl e, w1) => (inl e, w1)
                     | (inr p, w1) =>
                         match mapM (scrapeBlogPost c) us w1 with
                         | (inl e, w2) => (inl e, w2)
                         | (inr ps, w2) => (inr (p :: ps), w2)
                         end
                     end) by reflexivity.
    rewrite Estep. clear Estep.
    pose proof (scrapeBlogPost_ok u w) as Hok.
    pose proof (scrapeBlogPost_eq u w) as Heq.
    destruct (scrapeBlogPost c u w) as [[e|p] w1].
    + injection Heq as Heq Hw1. subst w1. cbn [fst snd]. split; [reflexivity|].
      split; [intros posts H; discriminate H|].
      split; [intros [posts H]; discriminate H|].
      intros H. destruct (H u (list_elem_of_here _ _)) as (md & Hmd & E).
      rewrite E in Heq. destruct md; [contradiction|discriminate].
    + injection Heq as _ Hw1. subst w1. destruct (proj1 (Hok p) eq_refl) as (Hu & Hmd & E).
      destruct (IH w) as (Hw & Hposts & Hall).
      destruct (mapM (scrapeBlogPost c) us w) as [[e|ps] w2]; cbn [fst snd] in *.
      * split; [exact Hw|]. split; [intros posts H; discriminate H|].
        split; [intros [posts H]; discriminate H|].
        intros H. destruct (proj2 Hall) as [posts Hp]; [|discriminate Hp].
        intros u' Hu'. apply H, list_elem_of_further, Hu'.
      * split; [exact Hw|]. split.
        -- intros posts [= <-]. destruct (Hposts ps eq_refl) as [Hus Hps].
           split; [cbn; congruence|]. intros q Hq.
           apply elem_of_cons in Hq as [->|Hq]; [|apply Hps, Hq].
           split; [exact Hmd|]. rewrite Hu. exact E.
        -- split; [|eauto]. intros _ u' Hu'.
           apply elem_of_cons in Hu' as [->|Hu'].
           ++ exists (markdown p). split; assumption.
           ++ apply (proj1 Hall); eauto.
Qed.

Lemma scrapeAllBlogPosts_eq w :
  scrapeAllBlogPosts c w =
  match fst (scrapeCategoryPage c w) with
  | inl e => (inl e, w)
  | inr us => mapM (scrapeBlogPost c) us w
  end.
Proof.
  unfold scrapeAllBlogPosts, try, bind at 1. rewrite scrapeCategoryPage_eq. cbn [fst].
  destruct (categoryLinks c) as [e|links]; [reflexivity|].
  destruct (take 2 _) as [|u us]; [reflexivity|].
  destruct (mapM (scrapeBlogPost c) (u :: us) w) as [[e|ps] w']; reflexivity.
Qed.

Lemma acquire_at_most_two posts : acquire c = inr posts -> (length posts <= 2)%nat.
Proof.
  unfold acquire. rewrite scrapeAllBlogPosts_eq, scrapeCategoryPage_eq. cbn [fst].
  destruct (categoryLinks c) as [e|links]; [discriminate|].
  intros H. destruct (mapM_scrapeBlogPost (take 2 (unique (linkUrl <$>
                        List.filter isPlanPost (default [] links)))) (quiet emptyDB 0 0))
    as (_ & Hposts & _).
  destruct (Hposts posts H) as [Hus _].
  apply (f_equal length) in Hus. rewrite length_fmap, length_take in Hus. lia.
Qed.

End Acquisition.

(* ================================================================== *)
(** * The parsing of the documents                                     *)
(* ================================================================== *)

Section Parsing.

Variable c : Collaborators.

Lemma length_omap_le {A B} (f : A -> option B) l : (length (omap f l) <= length l)%nat.
Proof. induction l as [|a l IH]; cbn; [lia|]. destruct (f a); cbn; lia. Qed.

Lemma length_omap_all {A B} (f : A -> option B) l :
  length (omap f l) = length l <-> forall a, a ∈ l -> is_Some (f a).
Proof.
  induction l as [|a l IH]; cbn.
  - split; [intros _ a Ha; apply elem_of_nil in Ha; destruct Ha|reflexivity].
  - pose proof (length_omap_le f l) as Hle.
    destruct (f a) as [b|] eqn:E; cbn.
    + split.
      * intros [= H] a' Ha'. apply elem_of_cons in Ha' as [->|Ha'];
          [rewrite E; eauto|apply IH; assumption].
      * intros H. f_equal. apply IH. intros a' Ha'. apply H, list_elem_of_further, Ha'.
    + split; [lia|]. intros H. destruct (H a (list_elem_of_here _ _)) as [b Hb].
      congruence.
Qed.

End Parsing.

(* ================================================================== *)
(** * Outcomes of the run                                            *)
(* ================================================================== *)

Section RunOutcomes.

Lemma log_keeps_schedules l w w' :
  logScrapingOperation l w = (inr tt, w') -> sameSchedules (db w) (db w').
Proof.
  intros E. destruct (logScrapingOperation_total l w) as (w2 & E2 & H1 & H2 & H3 & H4).
  rewrite E in E2. injection E2 as <-. repeat split; assumption.
Qed.

Lemma sameSchedules_untouched w w1 d :
  untouched w w1 -> sameSchedules (db w1) d -> sameSchedules (db w) d.
Proof. intros [-> _] H. exact H. Qed.

Lemma isEmpty_true {A} (l : list A) : isEmpty l = true <-> l = [].
Proof. destruct l; cbn; split; congruence. Qed.

Lemma authorized_iff secret auth :
  authorized secret auth = true <->
  exists s, secret = Some s /\ s <> "" /\ auth = Some ("Bearer " ++ s).
Proof.
  unfold authorized. destruct secret as [[|a s]|].
  - split; [discriminate|]. intros (s & [= <-] & H & _). contradiction.
  - rewrite bool_decide_eq_true. split.
    + intros ->. eexists. split; [reflexivity|]. split; [discriminate|reflexivity].
    + intros (s' & [= <-] & _ & ->). reflexivity.
  - split; [discriminate|]. intros (s & H & _). discriminate H.
Qed.

End RunOutcomes.

(* ================================================================== *)
(** * Writes in any world                                              *)
(* ================================================================== *)

Section StoringInAnyWorld.

(** The two outcomes of a command. *)
Lemma command_cases {A} (f : DB -> A * DB) w :
  (faults w !! 0%nat = Some true /\
   command f w = (inl (RedisError "fetch failed"), popFault w)) \/
  (faults w !! 0%nat <> Some true /\
   command f w = (inr (f (db w)).1, setDB (f (db w)).2 (popFault w))).
Proof.
  destruct w as [d t z fs]. unfold command. cbn [faults db].
  destruct fs as [|[] fs]; [right|left|right]; cbn; try destruct (f d);
    split; try reflexivity; discriminate.
Qed.

Lemma retains_refl d : retains d d.
Proof. repeat split; auto. Qed.

Lemma retains_trans d1 d2 d3 : retains d1 d2 -> retains d2 d3 -> retains d1 d3.
Proof.
  intros (A1 & A2 & A3 & A4) (B1 & B2 & B3 & B4).
  repeat split; auto.
Qed.

Lemma retains_put d :
  (forall iso v, retains d (putDay iso v d)) /\
  (forall wk v, retains d (putWeek wk v d)) /\
  (forall t, retains d (putLatestUpdate t d)) /\
  (forall k v, retains d (putLog k v d)) /\
  (forall t iso, retains d (zadd t iso d)).
Proof.
  repeat split; cbn; intros; auto; rewrite lookup_insert_is_Some';
    auto.
Qed.

Lemma grows_refl w : grows w w.
Proof. apply retains_refl. Qed.

Lemma grows_trans w1 w2 w3 : grows w1 w2 -> grows w2 w3 -> grows w1 w3.
Proof. apply retains_trans. Qed.

Lemma untouched_grows {A} (m : M A) : respects untouched m -> respects grows m.
Proof. intros H w. destruct (H w) as [E _]. unfold grows. rewrite E. apply retains_refl. Qed.

Lemma command_grows {A} (f : DB -> A * DB) :
  (forall d, retains d (f d).2) -> respects grows (command f).
Proof.
  intros Hf w. destruct (command_cases f w) as [[_ E]|[_ E]]; rewrite E; cbn [snd].
  - apply retains_refl.
  - apply Hf.
Qed.

(** Goals of the form [respects grows m], for [m] built from writes. *)
Ltac grown_by known :=
  repeat first
    [ known
    | apply command_grows; intro; apply retains_put
    | apply respects_ret; [apply grows_refl]
    | apply respects_throw; [apply grows_refl]
    | apply respects_Date_now; [apply grows_refl]
    | apply respects_zone; [apply grows_refl]
    | apply respects_convertToISODate; [apply grows_refl]
    | apply respects_bind; [apply grows_trans| |intro]
    | apply respects_try; [apply grows_trans| |intro] ].

Ltac grown := grown_by fail.

Lemma storeDays_grows s now ds : forall n, respects grows (storeDays s now ds n).
Proof.
  induction ds as [|day rest IH]; intros n; cbn [storeDays].
  - grown.
  - unfold Redis.setDay, Redis.zaddDay. grown. apply IH.
Qed.

Lemma storeWeekSchedule_grows s : respects grows (storeWeekSchedule s).
Proof.
  unfold storeWeekSchedule, Redis.setWeek, Redis.setLatestUpdate. grown.
  apply storeDays_grows.
Qed.

Lemma logScrapingOperation_grows e : respects grows (logScrapingOperation e).
Proof. unfold logScrapingOperation, Redis.setLog. grown. Qed.

Lemma storeStep_grows s a : respects grows (storeStep s a).
Proof.
  unfold storeStep.
  grown_by ltac:(first [ apply untouched_grows, (proj2 (exists_untouched "" (week s)))
                       | apply storeWeekSchedule_grows ]).
  destruct a0; grown_by ltac:(apply storeWeekSchedule_grows).
  destruct (_ <? _)%nat; grown.
Qed.

Lemma storeLoop_grows ss : forall a, respects grows (storeLoop ss a).
Proof.
  induction ss as [|s r IH]; intros a; cbn [storeLoop];
    grown_by ltac:(first [apply storeStep_grows|apply IH]).
Qed.

Lemma worldFree_respects R {A} (m : M A) :
  (forall w, R w w) -> worldFree m -> respects R m.
Proof. intros HR [r Hr] w. rewrite Hr. apply HR. Qed.

Lemma POST_grows c secret auth : respects grows (POST c secret auth).
Proof.
  assert (Hparse : forall posts, respects grows (parseAllSchedules c posts))
    by (intros posts w; rewrite parseAllSchedules_run; apply grows_refl).
  unfold POST.
  apply respects_try; [apply grows_trans| |];
    [|intros e; grown_by ltac:(apply logScrapingOperation_grows)].
  destruct (negb _); [grown|].
  apply respects_bind;
    [apply grows_trans|apply untouched_grows, shouldSkipScraping_untouched|].
  intros sc. destruct (shouldSkip sc);
    [grown_by ltac:(apply logScrapingOperation_grows)|].
  apply respects_bind; [apply grows_trans| |].
  { apply worldFree_respects; [apply grows_refl|apply scrapeAllBlogPosts_worldFree]. }
  intros posts. destruct (isEmpty posts);
    grown_by ltac:(first [ apply logScrapingOperation_grows | apply Hparse
                         | apply storeLoop_grows ]).
Qed.

(** The day loop, when it completes: every date had its dot, and the
    database is the one written day by day. *)
Lemma storeDays_result s ds : forall n w m w',
  storeDays s (clock w) ds n w = (inr m, w') ->
  m = (n + length ds)%nat /\ allDotted ds = true /\
  db w' = writeDays s (tz w) (clock w) ds (db w).
Proof.
  induction ds as [|day rest IH]; intros n w m w' H.
  - cbn in H. injection H as <- <-. split; [cbn; lia|]. split; reflexivity.
  - cbn [storeDays] in H. unfold bind at 1 in H. rewrite convertToISODate_run in H.
    cbn [writeDays allDotted forallb].
    destruct (normalize (tz w) (clock w) (date day)) as [e|iso] eqn:En;
      [discriminate H|].
    assert (Hd : dotted day = true).
    { unfold dotted. destruct (JS.includes (date day) ".") eqn:Ei; [reflexivity|].
      rewrite (normalize_undotted _ _ _ Ei) in En. discriminate En. }
    rewrite Hd. cbn [andb]. unfold bind at 1 in H. unfold Redis.setDay in H.
    destruct (command_cases (fun d => (tt, putDay iso (storedDay s day iso) d)) w)
      as [[_ E]|[_ E]]; rewrite E in H; [discriminate H|]. cbn [fst snd] in H.
    unfold bind at 1 in H. unfold Redis.zaddDay in H.
    match type of H with
    | context [command ?f ?w1] =>
        destruct (command_cases f w1) as [[_ E']|[_ E']]; rewrite E' in H;
          [discriminate H|]
    end.
    cbn [fst snd] in H.
    match type of H with
    | storeDays _ _ _ _ ?w2 = _ =>
        change (clock w) with (clock w2) in H; apply IH in H as (-> & Hall & Hdb);
          change (clock w2) with (clock w) in Hdb; change (tz w2) with (tz w) in Hdb
    end.
    split; [cbn; lia|]. split; [exact Hall|]. exact Hdb.
Qed.

(** [storeWeekSchedule] always answers; a positive count tells that
    every write of the call was made. *)
Lemma storeWeekSchedule_general s w :
  exists n w',
    storeWeekSchedule s w = (inr n, w') /\
    ((0 < n)%nat ->
     n = length (days s) /\ allDotted (days s) = true /\
     db w' = storeWeekDB (tz w) (clock w) s (db w)).
Proof.
  unfold storeWeekSchedule, try, bind, Date_now.
  destruct (storeDays s (clock w) (days s) 0 w) as [[e|m] w1] eqn:E.
  - eexists; eexists. split; [reflexivity|]. lia.
  - apply storeDays_result in E as (-> & Hall & Hdb).
    unfold Redis.setWeek.
    match goal with
    | |- context [command ?f w1] =>
        destruct (command_cases f w1) as [[_ E1]|[_ E1]]; rewrite E1
    end; [eexists; eexists; split; [reflexivity|lia]|].
    cbn [fst snd]. unfold Redis.setLatestUpdate.
    match goal with
    | |- context [command ?f ?w2] =>
        destruct (command_cases f w2) as [[_ E2]|[_ E2]]; rewrite E2
    end; [eexists; eexists; split; [reflexivity|lia]|].
    eexists; eexists. split; [reflexivity|]. intros _.
    split; [reflexivity|]. split; [exact Hall|].
    unfold storeWeekDB. rewrite Hall. cbn. rewrite Hdb. reflexivity.
Qed.

End StoringInAnyWorld.

(* ================================================================== *)
(** * What the storing loop leaves in the store                      *)
(* ================================================================== *)

Section Persisting.

Lemma weekScheduleExists_cases wk w :
  weekScheduleExists wk w =
  (inr (match faults w with
        | true :: _ => false
        | _ => recorded (db w) wk
        end), popFault w).
Proof.
  unfold weekScheduleExists, try, bind, Redis.existsWeek.
  match goal with
  | |- context [command ?f w] => destruct (command_cases f w) as [[Hf E]|[Hf E]]
  end; rewrite E; cbn [fst snd ret].
  - destruct (faults w) as [|[] fs]; try discriminate Hf. reflexivity.
  - assert (Eb : (match weekRecords (db w) !! wk with Some _ => 1 | None => 0 end =? 1)
                 = recorded (db w) wk).
    { unfold recorded. destruct (weekRecords (db w) !! wk) eqn:Ew.
      - rewrite bool_decide_eq_true_2 by eauto. reflexivity.
      - rewrite bool_decide_eq_false_2; [reflexivity|]. intros [? ?]; discriminate. }
    rewrite Eb. destruct w as [d t z [|[] fs]]; try reflexivity.
    cbn in Hf. congruence.
Qed.

Lemma writeDays_index_kept s z t ds : forall d K,
  daysList d !! K = Some t -> daysList (writeDays s z t ds d) !! K = Some t.
Proof.
  induction ds as [|day rest IH]; intros d K H; cbn [writeDays]; [exact H|].
  destruct (normalize z t (date day)) as [e|iso]; [exact H|].
  apply IH. cbn [daysList zadd putDay].
  destruct (decide (iso = K)) as [->|Hne];
    [apply lookup_insert_eq|rewrite lookup_insert_ne by exact Hne; exact H].
Qed.

(** Every day written by the loop is indexed with the instant of the
    call as score. *)
Lemma writeDays_index s z t ds : forall d day K,
  allDotted ds = true -> day ∈ ds -> normalize z t (date day) = inr K ->
  daysList (writeDays s z t ds d) !! K = Some t.
Proof.
  induction ds as [|day0 rest IH]; intros d day K Hall Hin HK.
  - apply elem_of_nil in Hin. destruct Hin.
  - cbn [allDotted forallb] in Hall. apply andb_true_iff in Hall as [Hd Hall].
    cbn [writeDays].
    destruct (normalize_dotted z t (date day0) Hd) as [iso Eiso]. rewrite Eiso.
    apply elem_of_cons in Hin as [->|Hin].
    + rewrite HK in Eiso. injection Eiso as ->.
      apply writeDays_index_kept. cbn. apply lookup_insert_eq.
    + apply (IH _ day K Hall Hin HK).
Qed.

(** The day loop keeps the date index in step with the day records. *)
Lemma writeDays_indexed s z t ds : forall d,
  indexed d -> indexed (writeDays s z t ds d).
Proof.
  induction ds as [|day rest IH]; intros d H; cbn [writeDays]; [exact H|].
  destruct (normalize z t (date day)) as [e|iso]; [exact H|].
  apply IH. intros K. cbn [dayRecords daysList zadd putDay].
  rewrite !lookup_insert_is_Some'. intros [->|HK]; [left; reflexivity|].
  right. apply H, HK.
Qed.

Lemma storeWeekDB_indexed z t s d : indexed d -> indexed (storeWeekDB z t s d).
Proof.
  intros H. unfold storeWeekDB.
  destruct (allDotted (days s)); [|apply writeDays_indexed, H].
  intros K. cbn. apply writeDays_indexed, H.
Qed.

Lemma persisted_retains z t d d' s :
  retains d d' -> persisted z t d s -> persisted z t d' s.
Proof.
  intros (H1 & H2 & H3 & _) [Hw Hd]. split; [apply H3, Hw|].
  intros day Hin. destruct (Hd day Hin) as (K & HK & Hr & Hi).
  exists K. split; [exact HK|]. split; [apply H1, Hr|apply H2, Hi].
Qed.

Lemma storeWeekDB_persisted z t s d :
  allDotted (days s) = true -> persisted z t (storeWeekDB z t s d) s.
Proof.
  intros Hall. split.
  - pose proof (recorded_storeWeekDB_self z t s d Hall) as H.
    apply bool_decide_eq_true in H. exact H.
  - intros day Hin.
    assert (Hd : dotted day = true).
    { unfold allDotted in Hall. rewrite forallb_forall in Hall.
      apply Hall, list_elem_of_In, Hin. }
    destruct (normalize_dotted z t (date day) Hd) as [K HK].
    exists K. split; [exact HK|]. unfold storeWeekDB. rewrite Hall. cbn.
    destruct (writeDays_written z t s (days s) d day K Hall Hin HK)
      as (day' & _ & _ & Hl).
    split; [rewrite Hl; eauto|].
    rewrite (writeDays_index s z t (days s) d day K Hall Hin HK). eauto.
Qed.

(** One turn of the storing loop, in any world. *)
Lemma storeStep_outcome s a w :
  exists a' w',
    storeStep s a w = (inr a', w') /\
    ((a' = pushSkipped (week s) a /\ is_Some (weekRecords (db w') !! week s) /\
      db w' = db w) \/
     (exists n, (0 < n)%nat /\ a' = pushStored (week s) n a /\
                persisted (tz w) (clock w) (db w') s) \/
     a' = pushError ("Failed to store schedule for week " ++ week s) a).
Proof.
  unfold storeStep, try, bind. rewrite weekScheduleExists_cases.
  set (b := match faults w with true :: _ => false | _ => recorded (db w) (week s) end).
  assert (Hb : b = true -> is_Some (weekRecords (db w) !! week s)).
  { unfold b, recorded. destruct (faults w) as [|[] fs]; try discriminate;
      intros H; apply bool_decide_eq_true in H; exact H. }
  destruct b.
  - eexists; eexists. split; [reflexivity|]. left. split; [reflexivity|].
    split; [apply Hb; reflexivity|reflexivity].
  - destruct (storeWeekSchedule_general s (popFault w)) as (n & w' & E & Hn).
    rewrite E. destruct (0 <? n)%nat eqn:Hpos.
    + apply Nat.ltb_lt in Hpos. destruct (Hn Hpos) as (_ & Hall & Hdb).
      eexists; eexists. split; [reflexivity|]. right. left.
      exists n. split; [exact Hpos|]. split; [reflexivity|].
      rewrite Hdb. apply (storeWeekDB_persisted _ _ _ _ Hall).
    + eexists; eexists. split; [reflexivity|]. right. right. reflexivity.
Qed.

(** The storing loop, in any world: what its three lists hold at the
    end. *)
Lemma storeLoop_outcome ss : forall a w,
  exists a' w',
    storeLoop ss a w = (inr a', w') /\
    (forall wk, wk ∈ skippedSchedules a' ->
       wk ∈ skippedSchedules a \/ is_Some (weekRecords (db w') !! wk)) /\
    (forall wk, wk ∈ storedSchedules a' ->
       wk ∈ storedSchedules a \/
       exists s, s ∈ ss /\ week s = wk /\ persisted (tz w) (clock w) (db w') s) /\
    (forall msg, msg ∈ storeErrors a' ->
       msg ∈ storeErrors a \/
       exists s, s ∈ ss /\ msg = "Failed to store schedule for week " ++ week s).
Proof.
  induction ss as [|s r IH]; intros a w.
  - exists a, w. split; [reflexivity|]. repeat split; auto.
  - cbn [storeLoop]. unfold bind.
    destruct (storeStep_outcome s a w) as (a1 & w1 & E1 & Hstep). rewrite E1.
    pose proof (storeStep_general s a w) as (a1' & w1' & E1' & [Hc Hz] & _).
    rewrite E1 in E1'. injection E1' as <- <-.
    destruct (IH a1 w1) as (a' & w' & E & Hsk & Hst & Her). rewrite Hc, Hz in Hst.
    pose proof (storeLoop_grows r a1 w1) as Hg. rewrite E in Hg. cbn [snd] in Hg.
    exists a', w'. split; [exact E|]. split; [|split].
    + intros wk Hwk. destruct (Hsk wk Hwk) as [H|H]; [|right; exact H].
      destruct Hstep as [(-> & Hrec & _)|[(n & _ & -> & _)| ->]]; cbn in H;
        [|left; exact H|left; exact H].
      apply elem_of_app in H as [H|H]; [left; exact H|].
      apply list_elem_of_singleton in H as ->. right.
      destruct Hg as (_ & _ & H3 & _). apply H3, Hrec.
    + intros wk Hwk. destruct (Hst wk Hwk) as [H|(s' & Hin & Hw & Hp)].
      * destruct Hstep as [(-> & _)|[(n & _ & -> & Hp)| ->]]; cbn in H;
          [left; exact H| |left; exact H].
        apply elem_of_app in H as [H|H]; [left; exact H|].
        apply list_elem_of_singleton in H as ->. right.
        exists s. split; [apply list_elem_of_here|]. split; [reflexivity|].
        apply (persisted_retains _ _ (db w1)); assumption.
      * right. exists s'. split; [apply list_elem_of_further, Hin|]. auto.
    + intros msg Hmsg. destruct (Her msg Hmsg) as [H|(s' & Hin & ->)].
      * destruct Hstep as [(-> & _)|[(n & _ & -> & _)| ->]]; cbn in H;
          [left; exact H|left; exact H|].
        apply elem_of_app in H as [H|H]; [left; exact H|].
        apply list_elem_of_singleton in H as ->. right.
        exists s. split; [apply list_elem_of_here|reflexivity].
      * right. exists s'. split; [apply list_elem_of_further, Hin|reflexivity].
Qed.

(** The storing loop changes the database only in a turn that files a
    stored week or an error. *)
Lemma storeLoop_changes ss : forall a w a' w',
  storeLoop ss a w = (inr a', w') ->
  (length (storedSchedules a) + length (storeErrors a)
     <= length (storedSchedules a') + length (storeErrors a'))%nat /\
  ((length (storedSchedules a') + length (storeErrors a')
      = length (storedSchedules a) + length (storeErrors a))%nat ->
   db w' = db w).
Proof.
  induction ss as [|s r IH]; intros a w a' w' H.
  - cbn in H. injection H as <- <-. split; [lia|reflexivity].
  - cbn [storeLoop] in H. unfold bind in H.
    destruct (storeStep_outcome s a w) as (a1 & w1 & E1 & Hstep). rewrite E1 in H.
    destruct (IH a1 w1 a' w' H) as [Hle Heq].
    destruct Hstep as [(-> & _ & Hdb)|[(n & _ & -> & _)| ->]];
      cbn [pushSkipped pushStored pushError storedSchedules storeErrors] in Hle, Heq;
      try rewrite length_app in Hle; try rewrite length_app in Heq; cbn [length] in *.
    + split; [exact Hle|]. intros E. rewrite (Heq E). exact Hdb.
    + split; lia.
    + split; lia.
Qed.

End Persisting.

(* ================================================================== *)
(** * Reads after writes, without storage faults                       *)
(* ================================================================== *)

Section ReadsAfterWrites.

Lemma dayScheduleExists_quiet iso d t z :
  dayScheduleExists iso (quiet d t z) =
  (inr (bool_decide (is_Some (dayRecords d !! iso))), quiet d t z).
Proof.
  unfold dayScheduleExists, try, bind, Redis.existsDay. rewrite command_quiet.
  cbn [fst snd ret]. destruct (dayRecords d !! iso) eqn:E.
  - rewrite bool_decide_eq_true_2 by eauto. reflexivity.
  - rewrite bool_decide_eq_false_2; [reflexivity|]. intros [? ?]; discriminate.
Qed.

Lemma getDaySchedule_quiet s d t z :
  getDaySchedule s (quiet d t z) =
  (inr (match normalize z t s with
        | inr K => dayRecords d !! K
        | inl _ => None
        end), quiet d t z).
Proof.
  unfold getDaySchedule, try, bind. rewrite convertToISODate_run.
  cbn [tz clock quiet]. destruct (normalize z t s) as [e|K]; [reflexivity|].
  rewrite getDayScheduleByISO_quiet. reflexivity.
Qed.

Lemma omap_fmap_fst {A B C} (f : A -> option C) (l : list (A * B)) :
  omap f l.*1 = omap (fun k => f k.1) l.
Proof.
  induction l as [|[a b] l IH]; [reflexivity|]. cbn. rewrite IH. reflexivity.
Qed.

(** A record whose date is indexed is among the records listed. *)
Lemma getAllDaySchedules_lists d t z K rec :
  dayRecords d !! K = Some rec -> is_Some (daysList d !! K) ->
  exists l, fst (getAllDaySchedules (quiet d t z)) = inr l /\ rec ∈ l.
Proof.
  intros Hrec Hidx. rewrite getAllDaySchedules_quiet. eexists. split; [reflexivity|].
  apply list_elem_of_omap. exists K. split; [|exact Hrec].
  apply zrangeAll_members, Hidx.
Qed.

Lemma storeStepOn_logs z t ad s :
  scrapingLogs (storeStepOn z t ad s).2 = scrapingLogs ad.2.
Proof.
  unfold storeStepOn. destruct (recorded ad.2 (week s)); [reflexivity|].
  cbn [snd]. unfold storeWeekDB.
  destruct (allDotted (days s)); cbn [scrapingLogs putLatestUpdate putWeek];
    apply writeDays_weekRecords.
Qed.

Lemma fold_storeStepOn_logs z t ss : forall ad,
  scrapingLogs (fold_left (storeStepOn z t) ss ad).2 = scrapingLogs ad.2.
Proof.
  induction ss as [|s r IH]; intros ad; [reflexivity|].
  cbn [fold_left]. rewrite IH. apply storeStepOn_logs.
Qed.

Lemma storeStepOn_indexed z t ad s : indexed ad.2 -> indexed (storeStepOn z t ad s).2.
Proof.
  intros H. unfold storeStepOn. destruct (recorded ad.2 (week s)); [exact H|].
  cbn [snd]. apply storeWeekDB_indexed, H.
Qed.

Lemma fold_storeStepOn_indexed z t ss : forall ad,
  indexed ad.2 -> indexed (fold_left (storeStepOn z t) ss ad).2.
Proof.
  induction ss as [|s r IH]; intros ad H; [exact H|].
  cbn [fold_left]. apply IH, storeStepOn_indexed, H.
Qed.

Lemma runOn_indexed c d t z : indexed d -> indexed (runOn c d t z).2.
Proof.
  intros H. unfold runOn.
  destruct (shouldSkip _); [exact H|].
  destruct (acquire c) as [e|posts]; [exact H|].
  destruct (isEmpty posts); [exact H|].
  cbn [snd]. intros K. cbn [dayRecords daysList putLog].
  apply fold_storeStepOn_indexed, H.
Qed.

(** The log a run leaves: its report, under the UTC day of the run. *)
Lemma runOn_log c d t z :
  exists res l,
    report (runOn c d t z).1 = Some res /\
    scrapingLogs (runOn c d t z).2 = <[utcDateString t := l]> (scrapingLogs d) /\
    log_result l = res /\
    (is_Some (log_skip l) <->
     exists why ahead, body (runOn c d t z).1 = Skipped res why ahead).
Proof.
  unfold runOn. destruct (shouldSkip _).
  - eexists; eexists. split; [reflexivity|]. split; [reflexivity|].
    split; [reflexivity|]. cbn. split; eauto.
  - destruct (acquire c) as [e|posts]; [|destruct (isEmpty posts)];
      eexists; eexists; (split; [reflexivity|]); cbn [snd scrapingLogs putLog];
      rewrite ?fold_storeStepOn_logs;
      (split; [reflexivity|]); (split; [reflexivity|]); cbn;
      (split; [intros [? H]; discriminate H|intros (? & ? & H); discriminate H]).
Qed.

End ReadsAfterWrites.

(* ================================================================== *)
(** * The shape of partial dates                                       *)
(* ================================================================== *)

Section DateShapes.

Lemma isDigit_cases a :
  JS.isDigit a = true ->
  In a ["0"; "1"; "2"; "3"; "4"; "5"; "6"; "7"; "8"; "9"]%char.
Proof.
  destruct a as [[] [] [] [] [] [] [] []]; intros H; try discriminate H;
    cbn; tauto.
Qed.

(** Two digits are the two-digit print of a number below 100. *)
Lemma two_digits a b :
  JS.isDigit a = true -> JS.isDigit b = true ->
  exists n, 0 <= n <= 99 /\ JS.pad 2 n = String a (String b "").
Proof.
  intros Ha Hb. exists (10 * JS.digitVal a + JS.digitVal b).
  apply isDigit_cases in Ha. apply isDigit_cases in Hb. cbn [In] in Ha, Hb.
  repeat (destruct Ha as [<-|Ha]; [|try contradiction]);
    repeat (destruct Hb as [<-|Hb]; [|try contradiction]);
    (split; [vm_compute; split; discriminate|vm_compute; reflexivity]).
Qed.

Lemma pad2_digits n :
  0 <= n <= 99 ->
  exists a b, JS.pad 2 n = String a (String b "") /\
              JS.isDigit a = true /\ JS.isDigit b = true.
Proof.
  intros H.
  assert (Hall : forallb (fun z => match JS.pad 2 z with
                                   | String a (String b "") =>
                                       JS.isDigit a && JS.isDigit b
                                   | _ => false
                                   end) upTo99 = true) by (vm_compute; reflexivity).
  rewrite forallb_forall in Hall. specialize (Hall n (in_upTo99 n H)).
  destruct (JS.pad 2 n) as [|a [|b [|x r]]]; try discriminate Hall.
  apply andb_true_iff in Hall. eauto.
Qed.

(** The strings the by-date route accepts are the partial dates. *)
Lemma datePattern_partialDate s :
  datePattern s = true <->
  exists day month, 0 <= day <= 99 /\ 0 <= month <= 99 /\ s = partialDate day month.
Proof.
  split.
  - intros H. destruct (datePattern_shape s H) as (a & b & c & d & ->).
    cbn [datePattern] in H. apply andb_true_iff in H as [H Hd].
    apply andb_true_iff in H as [H Hc]. apply andb_true_iff in H as [Ha Hb].
    destruct (two_digits a b Ha Hb) as (day & Hday & Eday).
    destruct (two_digits c d Hc Hd) as (month & Hmonth & Emonth).
    exists day, month. split; [exact Hday|]. split; [exact Hmonth|].
    unfold partialDate. rewrite Eday, Emonth. reflexivity.
  - intros (day & month & Hday & Hmonth & ->).
    destruct (pad2_digits day Hday) as (a & b & Eday & Ha & Hb).
    destruct (pad2_digits month Hmonth) as (c & d & Emonth & Hc & Hd).
    unfold partialDate. rewrite Eday, Emonth.
    change (datePattern (String a (String b (String "." (String c (String d "")))))
            = true).
    cbn [datePattern]. rewrite Ha, Hb, Hc, Hd. reflexivity.
Qed.

End DateShapes.

(* ================================================================== *)
(** * The freshness decision, by the content of the store              *)
(* ================================================================== *)

Section FreshnessByContent.

(** The search for the latest date ends on the start value or on the
    latest date of the index that parses. *)
Lemma fold_laterDate_spec dates : forall m0,
  m0 <= fold_left laterDate dates m0 /\
  (forall K m, K ∈ dates -> JS.parseDate K = Some m ->
               m <= fold_left laterDate dates m0) /\
  (fold_left laterDate dates m0 = m0 \/
   exists K, K ∈ dates /\ JS.parseDate K = Some (fold_left laterDate dates m0)).
Proof.
  induction dates as [|K0 r IH]; intros m0.
  - cbn. split; [lia|]. split; [|left; reflexivity].
    intros K m H. apply elem_of_nil in H. destruct H.
  - cbn [fold_left]. destruct (IH (laterDate m0 K0)) as (Hge & Hall & Hwho).
    pose proof (laterDate_ge m0 K0) as Hstep.
    split; [lia|]. split.
    + intros K m Hin Hp. apply elem_of_cons in Hin as [->|Hin]; [|eauto].
      assert (m <= laterDate m0 K0); [|lia].
      unfold laterDate. rewrite Hp. cbn.
      destruct (m0 <? m) eqn:E; [lia|]. apply Z.ltb_ge in E. exact E.
    + destruct Hwho as [E|(K & Hin & Hp)].
      * rewrite E. unfold laterDate.
        destruct (JS.parseDate K0) as [m|] eqn:Hp; cbn; [|left; reflexivity].
        destruct (m0 <? m); [|left; reflexivity].
        right. exists K0. split; [apply list_elem_of_here|exact Hp].
      * right. exists K. split; [apply list_elem_of_further, Hin|exact Hp].
Qed.

Lemma ceilDiv_days x : 14 <= JS.ceilDiv x JS.msPerDay <-> 13 * JS.msPerDay < x.
Proof.
  unfold JS.ceilDiv, JS.msPerDay. change (1000 * 60 * 60 * 24) with 86400000.
  pose proof (Z.div_mod (- x) 86400000 ltac:(lia)) as H.
  pose proof (Z.mod_pos_bound (- x) 86400000 ltac:(lia)) as Hb.
  lia.
Qed.

(** The index holds a date more than thirteen days after the local
    midnight of today. *)
Lemma daysAheadOf_far z now dates :
  14 <= daysAheadOf z now dates <->
  exists K m, K ∈ dates /\ JS.parseDate K = Some m /\
              13 * JS.msPerDay < m - JS.setHours0 z now.
Proof.
  unfold daysAheadOf. rewrite ceilDiv_days.
  destruct (fold_laterDate_spec dates (JS.setHours0 z now)) as (Hge & Hall & Hwho).
  split.
  - intros H. destruct Hwho as [E|(K & Hin & Hp)].
    + rewrite E in H. unfold JS.msPerDay in H. lia.
    + exists K. eexists. split; [exact Hin|]. split; [exact Hp|exact H].
  - intros (K & m & Hin & Hp & H). specialize (Hall K m Hin Hp). lia.
Qed.

Lemma daysSinceUpdateOf_recent now lastUpdate :
  daysSinceUpdateOf now lastUpdate < 5 <->
  exists u, lastUpdate = Some u /\ u <> 0 /\ now - u < 5 * JS.msPerDay.
Proof.
  unfold daysSinceUpdateOf, JS.floorDiv, JS.msPerDay.
  change (1000 * 60 * 60 * 24) with 86400000.
  destruct lastUpdate as [u|].
  - destruct (u =? 0) eqn:E.
    + apply Z.eqb_eq in E. split; [lia|]. intros (u' & [= <-] & H & _). contradiction.
    + apply Z.eqb_neq in E.
      pose proof (Z.div_mod (now - u) 86400000 ltac:(lia)) as H.
      pose proof (Z.mod_pos_bound (now - u) 86400000 ltac:(lia)) as Hb.
      split.
      * intros Hlt. exists u. split; [reflexivity|]. split; [exact E|lia].
      * intros (u' & [= <-] & _ & Hlt). lia.
  - split; [lia|]. intros (u & H & _). discriminate H.
Qed.

End FreshnessByContent.

Section SkipByContent.

Lemma skipOutcome_true w :
  shouldSkip (skipOutcome w) = true ->
  14 <= daysAheadOf (tz w) (clock w) (zrangeAll false (daysList (db w))) /\
  daysSinceUpdate w < 5.
Proof.
  unfold skipOutcome.
  destruct (faults w) as [|[] fs]; cbn [tail]; try discriminate;
    (destruct (zrangeAll false (daysList (db w))) as [|K r]; [discriminate|]).
  - apply verdict_skip.
  - destruct fs as [|[] fs]; try discriminate; apply verdict_skip.
Qed.

Lemma skipOutcome_reads_succeed w :
  faults w !! 0%nat <> Some true -> faults w !! 1%nat <> Some true ->
  14 <= daysAheadOf (tz w) (clock w) (zrangeAll false (daysList (db w))) ->
  daysSinceUpdate w < 5 ->
  shouldSkip (skipOutcome w) = true.
Proof.
  intros H0 H1 Hfar Hrec. unfold skipOutcome.
  assert (Hne : zrangeAll false (daysList (db w)) <> []).
  { intros E. rewrite E in Hfar. unfold daysAheadOf in Hfar. cbn [fold_left] in Hfar.
    rewrite Z.sub_diag in Hfar. vm_compute in Hfar. apply Hfar. reflexivity. }
  destruct (zrangeAll false (daysList (db w))) as [|K r] eqn:E; [contradiction|].
  destruct (faults w) as [|[] fs]; cbn [tail]; cbn in H0, H1; try congruence.
  - apply verdict_skip. auto.
  - destruct fs as [|[] fs]; cbn in H1; try congruence; apply verdict_skip; auto.
Qed.

End SkipByContent.

(* ================================================================== *)
(** * Dates with more than two parts                                   *)
(* ================================================================== *)

Section LongerDates.

(** Only the first two parts of a date are read. *)
Lemma normalize_ignores_rest z now a b rest :
  noChar "." a = true -> noChar "." b = true ->
  normalize z now (a ++ "." ++ b ++ "." ++ rest) = normalize z now (a ++ "." ++ b).
Proof.
  intros Ha Hb. unfold normalize.
  change ("." ++ b ++ "." ++ rest) with (String "." (b ++ String "." rest)).
  change ("." ++ b) with (String "." b).
  rewrite !split_app by assumption. rewrite (split_noChar "." b) by assumption.
  reflexivity.
Qed.

Lemma getTodaySchedule_quiet d t z :
  getTodaySchedule (quiet d t z) =
  (inr (dayRecords d !! utcDateString t), quiet d t z).
Proof.
  unfold getTodaySchedule, try, bind, Date_now. cbn [clock quiet].
  rewrite getDayScheduleByISO_quiet. reflexivity.
Qed.

End LongerDates.

(* ================================================================== *)
(** * Further properties of the code                                   *)
(* ================================================================== *)

(** ** The read side *)

(** X1. The functions of the read side never write: in every world,
    with or without failing reads, each of them leaves the database,
    the clock and the zone as they were.  This holds of the freshness
    decision, of the lookups and existence checks of the storage layer
    and of the three read routes. *)
Theorem reads_leave_store_untouched :
  respects untouched shouldSkipScraping /\
  (forall iso, respects untouched (getDayScheduleByISO iso)) /\
  (forall s, respects untouched (getDaySchedule s)) /\
  respects untouched getTodaySchedule /\
  respects untouched getAllDaySchedules /\
  (forall iso, respects untouched (dayScheduleExists iso)) /\
  (forall wk, respects untouched (weekScheduleExists wk)) /\
  (forall s, respects untouched (GET_date s)) /\
  respects untouched GET_today /\
  respects untouched GET_all.
Proof.
  split; [apply shouldSkipScraping_untouched|].
  split; [apply getDayScheduleByISO_untouched|].
  split; [apply getDaySchedule_untouched|].
  split; [apply getTodaySchedule_untouched|].
  split; [apply getAllDaySchedules_untouched|].
  split; [intros iso; apply (exists_untouched iso "")|].
  split; [intros wk; apply (exists_untouched "" wk)|].
  split; [|split].
  - intros s. unfold GET_date. apply respects_try; [apply untouched_trans| |].
    + destruct (negb (datePattern s)); reads; try apply getDaySchedule_untouched.
    + intros e. reads.
  - unfold GET_today. apply respects_try; [apply untouched_trans| |].
    + apply respects_bind; [apply untouched_trans|apply getTodaySchedule_untouched|].
      intros a. reads.
    + intros e. reads.
  - unfold GET_all. apply respects_try; [apply untouched_trans| |].
    + apply respects_bind; [apply untouched_trans|apply getAllDaySchedules_untouched|].
      intros a. reads.
    + intros e. reads.
Qed.

(** X2. The read routes never answer with status 500.  The by-date route
    answers 400 or 200, the today route and the list route always 200.
    When the first storage read of the request fails, the answer is the
    one of an empty store: [null] for a date of the right shape and for
    today, the empty list for the list route. *)
Theorem read_routes_hide_storage_failure :
  (forall w s, exists r w',
      GET_date s w = (inr r, w') /\ (get_status r = 400 \/ get_status r = 200)) /\
  (forall w, exists r w', GET_today w = (inr r, w') /\ get_status r = 200) /\
  (forall w, exists r w', GET_all w = (inr r, w') /\ list_status r = 200) /\
  (forall w s,
      datePattern s = true -> faults w !! 0%nat = Some true ->
      fst (GET_date s w) = inr {| get_status := 200; get_body := GetJson None |}) /\
  (forall w,
      faults w !! 0%nat = Some true ->
      fst (GET_today w) = inr {| get_status := 200; get_body := GetJson None |}) /\
  (forall w,
      faults w !! 0%nat = Some true ->
      fst (GET_all w) = inr {| list_status := 200; list_body := ListJson [] |}).
Proof.
  destruct storage_reads_neverThrow as (_ & Hday & Htoday & Hall & _).
  split; [|split; [|split; [|split; [|split]]]].
  - intros w s. unfold GET_date, try. destruct (datePattern s); cbn [negb].
    + unfold bind. destruct (Hday s w) as [a Ha].
      destruct (getDaySchedule s w) as [[e|r] w']; [discriminate Ha|].
      eexists; eexists. split; [reflexivity|]. right. reflexivity.
    + eexists; eexists. split; [reflexivity|]. left. reflexivity.
  - intros w. unfold GET_today, try, bind. destruct (Htoday w) as [a Ha].
    destruct (getTodaySchedule w) as [[e|r] w']; [discriminate Ha|].
    eexists; eexists. split; reflexivity.
  - intros w. unfold GET_all, try, bind. destruct (Hall w) as [a Ha].
    destruct (getAllDaySchedules w) as [[e|r] w']; [discriminate Ha|].
    eexists; eexists. split; reflexivity.
  - intros w s Hp Hf. unfold GET_date, try, bind. rewrite Hp. cbn [negb].
    rewrite (getDaySchedule_fault s w (datePattern_dotted s Hp) Hf). reflexivity.
  - intros w Hf. unfold GET_today, try, bind, getTodaySchedule, try, bind, Date_now.
    rewrite (getDayScheduleByISO_fault _ w Hf). reflexivity.
  - intros [d t z fs] Hf. cbn [faults] in Hf.
    destruct fs as [|[] fs]; try discriminate Hf. reflexivity.
Qed.

Lemma read_routes_hide_storage_failure_witness :
  fst (GET_date "20.10"
         {| db := putDay "2024-10-20" (restDay "20.10" "Niedziela") emptyDB;
            clock := JS.utcTime 2024 10 20 6 0 0 0; tz := 0; faults := [true] |})
  = inr {| get_status := 200; get_body := GetJson None |}.
Proof.
  apply (proj1 (proj2 (proj2 (proj2 read_routes_hide_storage_failure)))); reflexivity.
Defined.

(** ** The acquisition and the parsing *)

(** X3. The category page yields at most two urls, without repetition.
    Each of them is the url of a link of the page, contains
    [/post/plan-treningowy] and does not contain [/categories/]; a link
    that qualifies is left out only when two urls were found.  The
    function fails only when the scrape of the page fails, with the same
    error, and it never touches the world. *)
Theorem scrapeCategoryPage_urls (c : Collaborators) (w : World) :
  snd (scrapeCategoryPage c w) = w /\
  (forall e, fst (scrapeCategoryPage c w) = inl e <-> categoryLinks c = inl e) /\
  (forall us, fst (scrapeCategoryPage c w) = inr us ->
     (length us <= 2)%nat /\ NoDup us /\
     (forall u, u ∈ us ->
        JS.includes u "/post/plan-treningowy" = true /\
        JS.includes u "/categories/" = false /\
        exists links l, categoryLinks c = inr (Some links) /\ l ∈ links /\
                        linkUrl l = u) /\
     (forall links l, categoryLinks c = inr (Some links) -> l ∈ links ->
        isPlanPost l = true -> (length us < 2)%nat -> linkUrl l ∈ us)).
Proof.
  rewrite scrapeCategoryPage_eq. cbn [fst snd]. split; [reflexivity|].
  destruct (categoryLinks c) as [e0|links].
  - split; [intros e; split; congruence|]. intros us H. discriminate H.
  - split; [intros e; split; discriminate|]. intros us [= <-].
    set (L := unique (linkUrl <$> List.filter isPlanPost (default [] links))).
    assert (HL : forall u, u ∈ L <->
              exists l, l ∈ default [] links /\ isPlanPost l = true /\ linkUrl l = u).
    { intros u. unfold L. rewrite unique_elem, list_elem_of_fmap. split.
      - intros (l & -> & Hl). apply list_elem_of_In, filter_In in Hl as [Hl Hp].
        exists l. split; [apply list_elem_of_In, Hl|]. split; [exact Hp|reflexivity].
      - intros (l & Hl & Hp & <-). exists l. split; [reflexivity|].
        apply list_elem_of_In, filter_In. split; [apply list_elem_of_In, Hl|exact Hp]. }
    split; [rewrite length_take; lia|].
    split; [apply (sublist_NoDup _ L); [apply unique_NoDup|apply sublist_take]|].
    split.
    + intros u Hu. pose proof (elem_of_sublist _ L u Hu (sublist_take _ _)) as Hu'.
      apply HL in Hu' as (l & Hl & Hp & <-).
      unfold isPlanPost in Hp. apply andb_true_iff in Hp as [H1 H2].
      split; [exact H1|]. split; [apply negb_true_iff, H2|].
      destruct links as [links|]; [|apply elem_of_nil in Hl; destruct Hl].
      exists links, l. split; [reflexivity|]. split; [exact Hl|reflexivity].
    + intros links' l [= E'] Hl Hp Hlt. subst links. rewrite length_take in Hlt.
      rewrite take_ge by lia. apply HL. exists l. cbn. auto.
Qed.

Lemma scrapeCategoryPage_urls_witness :
  (length ["https://blog/post/plan-treningowy";
           "https://blog/post/plan-treningowy-20-10"] <= 2)%nat /\
  NoDup ["https://blog/post/plan-treningowy";
         "https://blog/post/plan-treningowy-20-10"].
Proof.
  destruct (proj2 (proj2 (scrapeCategoryPage_urls twoPosts (quiet emptyDB 0 0)))
              ["https://blog/post/plan-treningowy";
               "https://blog/post/plan-treningowy-20-10"]
              ltac:(vm_compute; reflexivity)) as (Hlen & Hnd & _).
  split; [exact Hlen|exact Hnd].
Defined.

(** X4. Given the urls of the category page, the acquisition returns one
    document per url, in the same order, each with the non-empty
    markdown its scrape answered; it returns documents exactly when the
    scrape of every url answers with a non-empty markdown, so that one
    missing markdown loses the other document too.  It never touches
    the world. *)
Theorem scrapeAllBlogPosts_posts (c : Collaborators) (w : World) (us : list string) :
  fst (scrapeCategoryPage c w) = inr us ->
  snd (scrapeAllBlogPosts c w) = w /\
  (forall posts, fst (scrapeAllBlogPosts c w) = inr posts ->
     url <$> posts = us /\ (length posts <= 2)%nat /\
     forall p, p ∈ posts ->
       markdown p <> "" /\ postMarkdown c (url p) = inr (Some (markdown p))) /\
  ((exists posts, fst (scrapeAllBlogPosts c w) = inr posts) <->
   forall u, u ∈ us -> exists md, md <> "" /\ postMarkdown c u = inr (Some md)).
Proof.
  intros Hus.
  assert (Hle : (length us <= 2)%nat).
  { rewrite scrapeCategoryPage_eq in Hus. cbn [fst] in Hus.
    destruct (categoryLinks c) as [e|links]; [discriminate Hus|].
    injection Hus as <-. rewrite length_take. lia. }
  rewrite scrapeAllBlogPosts_eq, Hus.
  destruct (mapM_scrapeBlogPost c us w) as (Hw & Hposts & Hall).
  split; [exact Hw|]. split; [|exact Hall].
  intros posts Hp. destruct (Hposts posts Hp) as [Hurl Hmd].
  split; [exact Hurl|]. split; [|exact Hmd].
  apply (f_equal length) in Hurl. rewrite length_fmap in Hurl. lia.
Qed.

Lemma scrapeAllBlogPosts_posts_witness :
  fst (scrapeAllBlogPosts twoPosts (quiet emptyDB 0 0)) =
  inr [{| markdown := "Tydzien 27/10-02/11";
          url := "https://blog/post/plan-treningowy" |};
       {| markdown := "Tydzien ???";
          url := "https://blog/post/plan-treningowy-20-10" |}] /\
  forall u, u ∈ ["https://blog/post/plan-treningowy";
                 "https://blog/post/plan-treningowy-20-10"] ->
            exists md, md <> "" /\ postMarkdown twoPosts u = inr (Some md).
Proof.
  split; [vm_compute; reflexivity|].
  apply (proj1 (proj2 (proj2 (scrapeAllBlogPosts_posts twoPosts (quiet emptyDB 0 0)
                                ["https://blog/post/plan-treningowy";
                                 "https://blog/post/plan-treningowy-20-10"]
                                ltac:(vm_compute; reflexivity))))).
  eexists. vm_compute. reflexivity.
Defined.

(** X5. The parser of the batch never fails and leaves the world as it
    is.  It returns, in the order of the documents, one submission for
    each document the model parses: the week and days of the model's
    answer, the url of the document as source and the current instant as
    scrape time.  A document whose parsing fails or yields nothing is
    dropped. *)
Theorem parseAllSchedules_keeps_parsed (c : Collaborators) (posts : list Post)
  (w : World) :
  exists ss,
    parseAllSchedules c posts w = (inr ss, w) /\
    ss = omap (fun post =>
                 match generateObject c (markdown post) with
                 | inr (Some o) =>
                     Some {| week := parsed_week o; week_sourceUrl := url post;
                             week_scrapedAt := JS.toISOString (clock w);
                             days := parsed_days o |}
                 | _ => None
                 end) posts /\
    (length ss <= length posts)%nat /\
    (length ss = length posts <->
     forall post, post ∈ posts ->
                  exists o, generateObject c (markdown post) = inr (Some o)).
Proof.
  eexists. split; [apply parseAllSchedules_run|].
  assert (E : forall post,
             parsedSchedule c (clock w) post =
             match generateObject c (markdown post) with
             | inr (Some o) =>
                 Some {| week := parsed_week o; week_sourceUrl := url post;
                         week_scrapedAt := JS.toISOString (clock w);
                         days := parsed_days o |}
             | _ => None
             end).
  { intros post. unfold parsedSchedule, parseOne.
    destruct (generateObject c (markdown post)) as [e|[o|]]; reflexivity. }
  split.
  { induction posts as [|p ps IH]; [reflexivity|].
    cbn -[parsedSchedule]. rewrite E, IH. reflexivity. }
  split; [apply length_omap_le|].
  rewrite length_omap_all. split; intros H post Hin.
  - specialize (H post Hin). rewrite E in H.
    destruct (generateObject c (markdown post)) as [e|[o|]];
      [destruct H; discriminate|eauto|destruct H; discriminate].
  - rewrite E. destruct (H post Hin) as [o ->]. eauto.
Qed.

Lemma parseAllSchedules_keeps_parsed_witness :
  let posts := [{| markdown := "Tydzien 27/10-02/11";
                   url := "https://blog/post/plan-treningowy" |}] in
  let w := quiet emptyDB (JS.utcTime 2024 10 21 6 0 0 0) 0 in
  exists ss, parseAllSchedules twoPosts posts w = (inr ss, w) /\
             length ss = length posts.
Proof.
  cbv zeta.
  destruct (parseAllSchedules_keeps_parsed twoPosts
              [{| markdown := "Tydzien 27/10-02/11";
                  url := "https://blog/post/plan-treningowy" |}]
              (quiet emptyDB (JS.utcTime 2024 10 21 6 0 0 0) 0))
    as (ss & E & _ & _ & Hall).
  exists ss. split; [exact E|]. apply Hall. intros post Hin.
  apply list_elem_of_singleton in Hin as ->. eexists. vm_compute. reflexivity.
Defined.

(** ** The ingestion run *)

(** X6. A request is authorized exactly when the secret of the process is
    set and not empty and the header is the secret after [Bearer].  An
    unauthorized request is answered with status 401 and leaves the
    world exactly as it was: nothing is read, written or logged.  An
    authorized request is never answered with status 401. *)
Theorem POST_authorization (c : Collaborators) (secret auth : option string)
  (w : World) :
  (authorized secret auth = true <->
   exists s, secret = Some s /\ s <> "" /\ auth = Some ("Bearer " ++ s)) /\
  (authorized secret auth = false ->
   POST c secret auth w = (inr {| status := 401; body := Unauthorized |}, w)) /\
  (authorized secret auth = true ->
   exists r w', POST c secret auth w = (inr r, w') /\
                status r <> 401 /\ body r <> Unauthorized).
Proof.
  split; [apply authorized_iff|]. split; [apply POST_unauthorized|].
  intros Hauth.
  destruct (POST_cases c secret auth w Hauth) as (w1 & w' & _ & _ & _ & Hcases).
  destruct Hcases as [(_ & E & _)|[(_ & e & _ & E & _)|[(_ & _ & E & _)|
                      (_ & posts & a & w2 & _ & _ & _ & E & _)]]];
    rewrite E; eexists; eexists; (split; [reflexivity|]); cbn; split; discriminate.
Qed.

Lemma POST_authorization_witness :
  POST twoPosts None (Some "Bearer undefined")
    {| db := emptyDB; clock := 0; tz := 0; faults := [true] |} =
  (inr {| status := 401; body := Unauthorized |},
   {| db := emptyDB; clock := 0; tz := 0; faults := [true] |}).
Proof.
  apply (proj1 (proj2 (POST_authorization twoPosts None (Some "Bearer undefined")
                         {| db := emptyDB; clock := 0; tz := 0; faults := [true] |}))).
  reflexivity.
Defined.

(** X7. The ingestion route always answers, whatever the storage does:
    no exception escapes it.  The status is 401, 200 or 500, and it is
    500 exactly when the request is authorized, the run is not skipped
    and the acquisition of the documents fails.  Storage failures and
    parse failures never make the status differ from 200. *)
Theorem POST_always_answers (c : Collaborators) (secret auth : option string)
  (w : World) :
  exists r w',
    POST c secret auth w = (inr r, w') /\
    clock w' = clock w /\ tz w' = tz w /\
    (status r = 401 \/ status r = 200 \/ status r = 500) /\
    (status r = 500 <->
     authorized secret auth = true /\
     (exists sc, fst (shouldSkipScraping w) = inr sc /\ shouldSkip sc = false) /\
     (exists e, fst (scrapeAllBlogPosts c w) = inl e)).
Proof.
  destruct (authorized secret auth) eqn:Hauth.
  - destruct (POST_cases c secret auth w Hauth)
      as (w1 & w' & Hsk & _ & [Hc Hz] & Hcases).
    rewrite shouldSkipScraping_outcome, scrapeAllBlogPosts_run. cbn [fst].
    destruct Hcases as [(Hs & E & _)|[(Hs & e & Ha & E & _)|[(Hs & Ha & E & _)|
                        (Hs & posts & a & w2 & Ha & _ & _ & E & _)]]];
      rewrite E; eexists; eexists; (split; [reflexivity|]);
      (split; [exact Hc|]); (split; [exact Hz|]); cbn [status].
    + split; [auto|]. split; [discriminate|].
      intros (_ & (sc & [= <-] & Hsc) & _). congruence.
    + split; [auto|]. split; [|reflexivity]. intros _.
      split; [reflexivity|]. split; [eauto|]. eauto.
    + split; [auto|]. split; [discriminate|].
      intros (_ & _ & e & He). congruence.
    + split; [auto|]. split; [discriminate|].
      intros (_ & _ & e & He). congruence.
  - rewrite (POST_unauthorized c secret auth w Hauth). eexists; eexists.
    split; [reflexivity|]. split; [reflexivity|]. split; [reflexivity|].
    cbn [status]. split; [auto|]. split; [discriminate|].
    intros (H & _). discriminate H.
Qed.

Lemma POST_always_answers_witness :
  exists r w',
    POST unreachableSource (Some "s3cret") (Some "Bearer s3cret")
      (quiet emptyDB (JS.utcTime 2024 10 21 6 0 0 0) 0) = (inr r, w') /\
    status r = 500.
Proof.
  destruct (POST_always_answers unreachableSource (Some "s3cret")
              (Some "Bearer s3cret")
              (quiet emptyDB (JS.utcTime 2024 10 21 6 0 0 0) 0))
    as (r & w' & E & _ & _ & _ & Hfatal).
  exists r, w'. split; [exact E|]. apply Hfatal.
  split; [reflexivity|]. split.
  - exists emptyCheck. split; reflexivity.
  - eexists. vm_compute. reflexivity.
Defined.

(** X8. When the freshness decision says skip, an authorized run
    consults no collaborator: its answer and the world it leaves are the
    same for every source.  The answer has status 200 and reports
    success with no schedule processed, and the stored schedules, the
    date index, the week records and the last-update marker are left as
    they were. *)
Theorem POST_skipped (c : Collaborators) (secret auth : option string)
  (w : World) (sc : SkipCheck) :
  authorized secret auth = true ->
  fst (shouldSkipScraping w) = inr sc -> shouldSkip sc = true ->
  exists w',
    POST c secret auth w =
      (inr {| status := 200;
              body := Skipped {| success := true; schedulesProcessed := 0;
                                 errors := []; urls := [];
                                 timestamp := JS.toISOString (clock w) |}
                        (reason sc) (daysAhead sc) |}, w') /\
    sameSchedules (db w) (db w') /\
    (forall c', POST c' secret auth w = POST c secret auth w).
Proof.
  intros Hauth Hsc Hskip. rewrite shouldSkipScraping_outcome in Hsc.
  injection Hsc as <-.
  assert (Hrun : forall c0, exists w1 w',
             shouldSkipScraping w = (inr (skipOutcome w), w1) /\ untouched w w1 /\
             POST c0 secret auth w =
               (inr {| status := 200;
                       body := Skipped (resultAt (clock w) true 0 [] [])
                                 (reason (skipOutcome w))
                                 (daysAhead (skipOutcome w)) |}, w') /\
             logScrapingOperation
               {| log_result := resultAt (clock w) true 0 [] [];
                  log_skip := Some (reason (skipOutcome w),
                                    daysAhead (skipOutcome w)) |} w1 = (inr tt, w')).
  { intros c0.
    destruct (shouldSkipScraping_total w) as [w1 E1].
    pose proof (shouldSkipScraping_untouched w) as Hu. rewrite E1 in Hu. cbn [snd] in Hu.
    destruct (logScrapingOperation_total
                {| log_result := resultAt (clock w) true 0 [] [];
                   log_skip := Some (reason (skipOutcome w),
                                     daysAhead (skipOutcome w)) |} w1)
      as (w' & E & _).
    exists w1, w'. split; [exact E1|]. split; [exact Hu|]. split; [|exact E].
    unfold POST. rewrite Hauth. cbn [negb]. unfold try, bind at 1. rewrite E1, Hskip.
    unfold bind, Date_now. destruct Hu as [_ [Hclock _]]. rewrite Hclock.
    unfold resultAt in E. rewrite E. reflexivity. }
  destruct (Hrun c) as (w1 & w' & E1 & Hu & E & Elog).
  exists w'. split; [exact E|].
  split; [apply (sameSchedules_untouched w w1 _ Hu), (log_keeps_schedules _ _ _ Elog)|].
  intros c'. destruct (Hrun c') as (w1' & w'' & E1' & _ & E' & Elog').
  rewrite E1 in E1'. injection E1' as <-. rewrite Elog in Elog'.
  injection Elog' as <-. rewrite E, E'. reflexivity.
Qed.

Lemma POST_skipped_witness :
  let now := JS.utcTime 2024 10 21 6 0 0 0 in
  let w := quiet (storeUpTo "2024-11-04" (now - 5 * JS.msPerDay + 1)) now 0 in
  exists w',
    POST unreachableSource (Some "s3cret") (Some "Bearer s3cret") w =
      (inr {| status := 200;
              body := Skipped {| success := true; schedulesProcessed := 0;
                                 errors := []; urls := [];
                                 timestamp := JS.toISOString (clock w) |}
                        "Have 14 days of schedules, last updated 4 days ago" 14 |},
       w') /\
    sameSchedules (db w) (db w') /\
    (forall c', POST c' (Some "s3cret") (Some "Bearer s3cret") w =
                POST unreachableSource (Some "s3cret") (Some "Bearer s3cret") w).
Proof.
  cbv zeta.
  apply (POST_skipped unreachableSource (Some "s3cret") (Some "Bearer s3cret")
           (quiet (storeUpTo "2024-11-04"
                     (JS.utcTime 2024 10 21 6 0 0 0 - 5 * JS.msPerDay + 1))
              (JS.utcTime 2024 10 21 6 0 0 0) 0)
           {| shouldSkip := true;
              reason := "Have 14 days of schedules, last updated 4 days ago";
              daysAhead := 14 |}).
  - reflexivity.
  - vm_compute. reflexivity.
  - reflexivity.
Defined.

(** X9. When the acquisition of the documents fails in an authorized run
    that is not skipped, the answer has status 500 and carries the
    message of the failure as its only error; nothing is parsed or
    stored: the stored schedules, the date index, the week records and
    the last-update marker are left as they were. *)
Theorem POST_acquisition_failure (c : Collaborators) (secret auth : option string)
  (w : World) (sc : SkipCheck) (e : Exn) :
  authorized secret auth = true ->
  fst (shouldSkipScraping w) = inr sc -> shouldSkip sc = false ->
  fst (scrapeAllBlogPosts c w) = inl e ->
  exists w',
    POST c secret auth w =
      (inr {| status := 500;
              body := Fatal {| success := false; schedulesProcessed := 0;
                               errors := [message e]; urls := [];
                               timestamp := JS.toISOString (clock w) |} |}, w') /\
    sameSchedules (db w) (db w').
Proof.
  intros Hauth Hsc Hskip Hacq. rewrite shouldSkipScraping_outcome in Hsc.
  injection Hsc as <-. rewrite scrapeAllBlogPosts_run in Hacq. cbn [fst] in Hacq.
  destruct (POST_cases c secret auth w Hauth) as (w1 & w' & _ & Hu & _ & Hcases).
  destruct Hcases as [(Hs & _)|[(_ & e' & Ha & E & l & Elog)|[(_ & Ha & _)|
                      (_ & posts & a & w2 & Ha & _)]]]; try congruence.
  rewrite Hacq in Ha. injection Ha as <-.
  exists w'. split; [exact E|].
  apply (sameSchedules_untouched w w1 _ Hu), (log_keeps_schedules _ _ _ Elog).
Qed.

Lemma POST_acquisition_failure_witness :
  let w := {| db := emptyDB; clock := JS.utcTime 2024 10 21 6 0 0 0; tz := 0;
              faults := [false; true] |} in
  exists w',
    POST unreachableSource (Some "s3cret") (Some "Bearer s3cret") w =
      (inr {| status := 500;
              body := Fatal {| success := false; schedulesProcessed := 0;
                               errors := ["Request timed out"]; urls := [];
                               timestamp := JS.toISOString (clock w) |} |}, w') /\
    sameSchedules (db w) (db w').
Proof.
  cbv zeta.
  apply (POST_acquisition_failure unreachableSource (Some "s3cret")
           (Some "Bearer s3cret")
           {| db := emptyDB; clock := JS.utcTime 2024 10 21 6 0 0 0; tz := 0;
              faults := [false; true] |}
           emptyCheck (Error "Request timed out")); reflexivity.
Defined.

(** X10. The figures of a report agree with each other.  After a run
    that reached the storing loop, the processed count is the number of
    stored weeks; stored, skipped and failed submissions together are at
    most the documents acquired, which are one or two; the days stored
    are at least the weeks stored; and the run says success exactly when
    it has no error.  A skipped run reports success with nothing
    processed; a run that found no document or failed to acquire them
    reports failure with exactly one error. *)
Theorem POST_accounting (c : Collaborators) (secret auth : option string)
  (w w' : World) (r : ScrapeResponse) :
  POST c secret auth w = (inr r, w') ->
  match body r with
  | Unauthorized => authorized secret auth = false
  | Completed res stored skipped total =>
      schedulesProcessed res = length stored /\
      (length stored + length skipped + length (errors res)
         <= length (urls res))%nat /\
      (0 < length (urls res) <= 2)%nat /\
      (length stored <= total)%nat /\
      (success res = true <-> errors res = [])
  | Skipped res _ _ =>
      success res = true /\ schedulesProcessed res = 0%nat /\
      errors res = [] /\ urls res = []
  | Plain res | Fatal res =>
      success res = false /\ schedulesProcessed res = 0%nat /\
      length (errors res) = 1%nat /\ urls res = []
  end.
Proof.
  intros Hrun. destruct (authorized secret auth) eqn:Hauth.
  - destruct (POST_cases c secret auth w Hauth) as (w1 & w0 & _ & _ & _ & Hcases).
    destruct Hcases as [(_ & E & _)|[(_ & e & _ & E & _)|[(_ & _ & E & _)|
                        (_ & posts & a & w2 & Ha & Hne & Eloop & E & _)]]];
      rewrite E in Hrun; injection Hrun as <- _; cbn; auto.
    destruct (storeLoop_general (omap (parsedSchedule c (clock w)) posts) noAcc w1)
      as (a' & w2' & Eloop' & _ & Htally & Hdays & _).
    rewrite Eloop in Eloop'. injection Eloop' as <- <-.
    pose proof (length_omap_le (parsedSchedule c (clock w)) posts) as Hle.
    pose proof (acquire_at_most_two c posts Ha) as Htwo.
    unfold tally in Htally. cbn in Htally.
    split; [reflexivity|]. rewrite length_fmap.
    split; [lia|]. split; [destruct posts; [contradiction|cbn in *; lia]|].
    split; [apply Hdays; cbn; lia|]. apply isEmpty_true.
  - rewrite (POST_unauthorized c secret auth w Hauth) in Hrun.
    injection Hrun as <- _. reflexivity.
Qed.

Lemma POST_accounting_witness :
  let r := (runOn twoPosts emptyDB (JS.utcTime 2024 10 21 6 0 0 0) 0).1 in
  match body r with
  | Unauthorized => authorized (Some "s3cret") (Some "Bearer s3cret") = false
  | Completed res stored skipped total =>
      schedulesProcessed res = length stored /\
      (length stored + length skipped + length (errors res)
         <= length (urls res))%nat /\
      (0 < length (urls res) <= 2)%nat /\
      (length stored <= total)%nat /\
      (success res = true <-> errors res = [])
  | Skipped res _ _ =>
      success res = true /\ schedulesProcessed res = 0%nat /\
      errors res = [] /\ urls res = []
  | Plain res | Fatal res =>
      success res = false /\ schedulesProcessed res = 0%nat /\
      length (errors res) = 1%nat /\ urls res = []
  end.
Proof.
  cbv zeta.
  apply (POST_accounting twoPosts (Some "s3cret") (Some "Bearer s3cret")
           (quiet emptyDB (JS.utcTime 2024 10 21 6 0 0 0) 0)
           (quiet (runOn twoPosts emptyDB (JS.utcTime 2024 10 21 6 0 0 0) 0).2
              (JS.utcTime 2024 10 21 6 0 0 0) 0)).
  apply POST_quiet. reflexivity.
Defined.

(** ** Storing under storage failures *)

(** X11. [storeWeekSchedule] always answers with a count, which is 0 or
    the number of days of the submission, whatever storage commands
    fail.  A positive count tells that the call made every one of its
    writes: the date of each day has a dot, each day is stored under
    its canonical date and indexed with the instant of the call as score,
    the week is recorded with its metadata and the last-update marker
    is that instant. *)
Theorem storeWeekSchedule_count (s : WeekSchedule) (w : World) :
  exists n w',
    storeWeekSchedule s w = (inr n, w') /\
    (n = 0%nat \/ n = length (days s)) /\
    ((0 < n)%nat ->
     allDotted (days s) = true /\
     weekRecords (db w') !! week s =
       Some {| meta_week := week s; meta_sourceUrl := week_sourceUrl s;
               meta_scrapedAt := week_scrapedAt s;
               meta_dayCount := length (days s) |} /\
     latestUpdate (db w') = Some (clock w) /\
     forall day, day ∈ days s ->
       exists K day',
         fst (convertToISODate (date day) w) = inr K /\
         day' ∈ days s /\ fst (convertToISODate (date day') w) = inr K /\
         dayRecords (db w') !! K = Some (storedDay s day' K) /\
         daysList (db w') !! K = Some (clock w)).
Proof.
  destruct (storeWeekSchedule_general s w) as (n & w' & E & Hn).
  exists n, w'. split; [exact E|]. split.
  - destruct n as [|n]; [left; reflexivity|]. right. apply Hn. lia.
  - intros Hpos. destruct (Hn Hpos) as (_ & Hall & Hdb).
    split; [exact Hall|]. rewrite Hdb. unfold storeWeekDB. rewrite Hall.
    cbn [weekRecords latestUpdate dayRecords daysList putLatestUpdate putWeek].
    split; [apply lookup_insert_eq|]. split; [reflexivity|].
    intros day Hin.
    assert (Hd : dotted day = true).
    { unfold allDotted in Hall. rewrite forallb_forall in Hall.
      apply Hall, list_elem_of_In, Hin. }
    destruct (normalize_dotted (tz w) (clock w) (date day) Hd) as [K HK].
    destruct (writeDays_written (tz w) (clock w) s (days s) (db w) day K Hall Hin HK)
      as (day' & Hin' & HK' & Hl).
    exists K, day'. rewrite !convertToISODate_run. cbn [fst].
    split; [exact HK|]. split; [exact Hin'|]. split; [exact HK'|].
    split; [exact Hl|]. apply (writeDays_index s _ _ _ _ day K Hall Hin HK).
Qed.

Lemma storeWeekSchedule_count_witness :
  let s := weekOf "20/10/2024-26/10/2024"
             [trainingDay "20.10" "Niedziela" "Speed";
              restDay "21.10" "Poniedzialek"] in
  let w := {| db := emptyDB; clock := JS.utcTime 2024 10 19 6 0 0 0; tz := 0;
              faults := [false; false; false; false; false; false; true] |} in
  latestUpdate (db (snd (storeWeekSchedule s w))) = Some (clock w).
Proof.
  cbv zeta.
  destruct (storeWeekSchedule_count
              (weekOf "20/10/2024-26/10/2024"
                 [trainingDay "20.10" "Niedziela" "Speed";
                  restDay "21.10" "Poniedzialek"])
              {| db := emptyDB; clock := JS.utcTime 2024 10 19 6 0 0 0; tz := 0;
                 faults := [false; false; false; false; false; false; true] |})
    as (n & w' & E & _ & H).
  rewrite E. cbn [snd]. apply H.
  vm_compute in E. injection E as <- _. lia.
Defined.

(** X12. What an ingestion run reports is in the store when it answers,
    whatever storage commands failed on the way.  Every week reported
    as skipped is recorded.  Every week reported as stored comes from a
    document the model parsed; it is recorded, and each of its days is
    stored and indexed under its canonical date.  Every error of the
    report names the week of a parsed document that could not be stored:
    the handler of the storing loop is never reached. *)
Theorem POST_reported_weeks_persisted (c : Collaborators)
  (secret auth : option string) (w w' : World) (r : ScrapeResponse)
  (res : ScrapingResult) (stored skipped : list string) (total : nat) :
  POST c secret auth w = (inr r, w') ->
  body r = Completed res stored skipped total ->
  (forall wk, wk ∈ skipped -> is_Some (weekRecords (db w') !! wk)) /\
  (forall wk, wk ∈ stored ->
     exists post o,
       url post ∈ urls res /\
       generateObject c (markdown post) = inr (Some o) /\ parsed_week o = wk /\
       is_Some (weekRecords (db w') !! wk) /\
       forall day, day ∈ parsed_days o ->
         exists K, fst (convertToISODate (date day) w) = inr K /\
                   is_Some (dayRecords (db w') !! K) /\
                   is_Some (daysList (db w') !! K)) /\
  (forall msg, msg ∈ errors res ->
     exists post o,
       url post ∈ urls res /\
       generateObject c (markdown post) = inr (Some o) /\
       msg = "Failed to store schedule for week " ++ parsed_week o).
Proof.
  intros Hrun Hbody. destruct (authorized secret auth) eqn:Hauth;
    [|rewrite (POST_unauthorized c secret auth w Hauth) in Hrun;
      injection Hrun as <- _; discriminate Hbody].
  destruct (POST_cases c secret auth w Hauth) as (w1 & w0 & _ & Hu & _ & Hcases).
  destruct Hcases as [(_ & E & _)|[(_ & e & _ & E & _)|[(_ & _ & E & _)|
                      (_ & posts & a & w2 & Ha & _ & Eloop & E & l & Elog)]]];
    rewrite E in Hrun; injection Hrun as <- <-; try discriminate Hbody.
  cbn [body] in Hbody. injection Hbody as <- <- <- <-.
  cbn [errors urls resultAt].
  destruct (storeLoop_outcome (omap (parsedSchedule c (clock w)) posts) noAcc w1)
    as (a' & w2' & Eloop' & Hsk & Hst & Her).
  rewrite Eloop in Eloop'. injection Eloop' as <- <-.
  destruct (log_keeps_schedules _ _ _ Elog) as (Ed & Ei & Ew & _).
  destruct Hu as [_ [Hc Hz]]. rewrite Hc, Hz in Hst.
  assert (Hparsed : forall s, s ∈ omap (parsedSchedule c (clock w)) posts ->
            exists post o, url post ∈ url <$> posts /\
                           generateObject c (markdown post) = inr (Some o) /\
                           week s = parsed_week o /\ days s = parsed_days o).
  { intros s Hs. apply list_elem_of_omap in Hs as (post & Hin & Hp).
    unfold parsedSchedule, parseOne in Hp.
    destruct (generateObject c (markdown post)) as [e|[o|]] eqn:Ego; try discriminate Hp.
    injection Hp as <-. exists post, o.
    split; [apply list_elem_of_fmap; eauto|]. auto. }
  rewrite Ed, Ei, Ew. split; [|split].
  - intros wk Hwk. destruct (Hsk wk Hwk) as [H|H]; [|exact H].
    apply elem_of_nil in H. destruct H.
  - intros wk Hwk. destruct (Hst wk Hwk) as [H|(s & Hs & <- & Hrec & Hdays)];
      [apply elem_of_nil in H; destruct H|].
    destruct (Hparsed s Hs) as (post & o & Hurl & Ego & Hw & Hd).
    exists post, o. split; [exact Hurl|]. split; [exact Ego|].
    split; [symmetry; exact Hw|]. split; [exact Hrec|].
    intros day Hin. rewrite <- Hd in Hin. destruct (Hdays day Hin) as (K & HK & H1 & H2).
    exists K. rewrite convertToISODate_run. auto.
  - intros msg Hmsg. destruct (Her msg Hmsg) as [H|(s & Hs & ->)];
      [apply elem_of_nil in H; destruct H|].
    destruct (Hparsed s Hs) as (post & o & Hurl & Ego & Hw & _).
    exists post, o. rewrite Hw. auto.
Qed.

Lemma POST_reported_weeks_persisted_witness :
  let w := {| db := emptyDB; clock := JS.utcTime 2024 10 21 6 0 0 0; tz := 0;
              faults := [true] |} in
  is_Some (weekRecords (db (snd (POST twoPosts (Some "s3cret")
                                   (Some "Bearer s3cret") w)))
             !! "27/10/2024-02/11/2024").
Proof.
  cbv zeta.
  destruct (POST twoPosts (Some "s3cret") (Some "Bearer s3cret")
              {| db := emptyDB; clock := JS.utcTime 2024 10 21 6 0 0 0; tz := 0;
                 faults := [true] |}) as [[e|r] w'] eqn:E;
    [vm_compute in E; discriminate E|].
  cbn [snd].
  assert (Hbody : exists res total,
             body r = Completed res ["27/10/2024-02/11/2024"] [] total).
  { vm_compute in E. injection E as <- _. eexists; eexists. reflexivity. }
  destruct Hbody as (res & total & Hbody).
  destruct (proj1 (proj2 (POST_reported_weeks_persisted twoPosts (Some "s3cret")
                            (Some "Bearer s3cret") _ w' r res _ _ total E Hbody))
              "27/10/2024-02/11/2024" (list_elem_of_here _ _))
    as (post & o & _ & _ & _ & Hrec & _).
  exact Hrec.
Defined.

(** X13. A run changes the schedules only when it says so.  Whatever
    storage commands fail, if a run reports no processed schedule and
    either reports success or lists no url, then the day records, the
    date index, the week records and the last-update marker are as they
    were before the run: a partial write is always reported as an
    error. *)
Theorem POST_silent_run_changes_nothing (c : Collaborators)
  (secret auth : option string) (w w' : World) (r : ScrapeResponse)
  (res : ScrapingResult) :
  POST c secret auth w = (inr r, w') ->
  report r = Some res -> schedulesProcessed res = 0%nat ->
  success res = true \/ urls res = [] ->
  sameSchedules (db w) (db w').
Proof.
  intros Hrun Hrep Hzero Hquiet. destruct (authorized secret auth) eqn:Hauth;
    [|rewrite (POST_unauthorized c secret auth w Hauth) in Hrun;
      injection Hrun as <- _; discriminate Hrep].
  destruct (POST_cases c secret auth w Hauth) as (w1 & w0 & _ & Hu & _ & Hcases).
  destruct Hcases as [(_ & E & l & Elog)|[(_ & e & _ & E & l & Elog)|
                      [(_ & _ & E & l & Elog)|
                       (_ & posts & a & w2 & _ & Hne & Eloop & E & l & Elog)]]];
    rewrite E in Hrun; injection Hrun as <- <-;
    try (apply (sameSchedules_untouched w w1 _ Hu), (log_keeps_schedules _ _ _ Elog)).
  cbn in Hrep. injection Hrep as <-. cbn in Hzero, Hquiet.
  assert (Herr : storeErrors a = []).
  { destruct Hquiet as [H|H]; [apply isEmpty_true, H|].
    destruct posts; [contradiction|discriminate H]. }
  destruct (storeLoop_changes _ _ _ _ _ Eloop) as [_ Hdb].
  apply (sameSchedules_untouched w w1 _ Hu).
  rewrite <- Hdb; [apply (log_keeps_schedules _ _ _ Elog)|].
  rewrite Hzero, Herr. reflexivity.
Qed.

Lemma POST_silent_run_changes_nothing_witness :
  let w := {| db := putWeek "27/10/2024-02/11/2024"
                      (weekMetaOf (weekOf "27/10/2024-02/11/2024" [])) emptyDB;
              clock := JS.utcTime 2024 10 21 6 0 0 0; tz := 0;
              faults := [true; false; true] |} in
  sameSchedules (db w)
    (db (snd (POST twoPosts (Some "s3cret") (Some "Bearer s3cret") w))).
Proof.
  cbv zeta.
  destruct (POST twoPosts (Some "s3cret") (Some "Bearer s3cret")
              {| db := putWeek "27/10/2024-02/11/2024"
                         (weekMetaOf (weekOf "27/10/2024-02/11/2024" [])) emptyDB;
                 clock := JS.utcTime 2024 10 21 6 0 0 0; tz := 0;
                 faults := [true; false; true] |}) as [[e|r] w'] eqn:E;
    [vm_compute in E; discriminate E|].
  cbn [snd].
  assert (Hrep : exists res, report r = Some res /\ schedulesProcessed res = 0%nat /\
                             success res = true).
  { vm_compute in E. injection E as <- _. eexists. split; [reflexivity|].
    split; reflexivity. }
  destruct Hrep as (res & Hrep & Hzero & Hok).
  apply (POST_silent_run_changes_nothing twoPosts (Some "s3cret")
           (Some "Bearer s3cret") _ w' r res E Hrep Hzero).
  left. exact Hok.
Defined.

(** X14. No schedule is ever deleted: after [storeWeekSchedule], after
    [logScrapingOperation] and after a whole ingestion run, in any
    world, every day record, index entry and week record that was in
    the store is still there under the same key, and a last-update
    marker that was set is still set. *)
Theorem writes_never_delete :
  (forall s, respects grows (storeWeekSchedule s)) /\
  (forall e, respects grows (logScrapingOperation e)) /\
  (forall c secret auth, respects grows (POST c secret auth)).
Proof.
  split; [apply storeWeekSchedule_grows|].
  split; [apply logScrapingOperation_grows|apply POST_grows].
Qed.

(** ** Reading back what was stored *)

(** X15. Round trip, without storage faults.  After [storeWeekSchedule]
    of a submission whose dates all have a dot, the call has returned the
    number of days, and at any later instant the week is found by
    [weekScheduleExists], the canonical date [K] of each day is found by
    [dayScheduleExists] and holds a record of the submission with that
    canonical date, which [getDayScheduleByISO] returns and
    [getAllDaySchedules] lists; [getDaySchedule] returns it too as long
    as the partial date still converts to [K] at the instant of the
    lookup, and [getTodaySchedule] returns it when [K] is the UTC date
    of that instant. *)
Theorem store_then_lookup (s : WeekSchedule) (d : DB) (t t' z : Z)
  (day : DaySchedule) (K : string) :
  allDotted (days s) = true -> day ∈ days s ->
  fst (convertToISODate (date day) (quiet d t z)) = inr K ->
  let w' := atClock t' (snd (storeWeekSchedule s (quiet d t z))) in
  fst (storeWeekSchedule s (quiet d t z)) = inr (length (days s)) /\
  fst (weekScheduleExists (week s) w') = inr true /\
  fst (dayScheduleExists K w') = inr true /\
  exists day',
    day' ∈ days s /\
    fst (convertToISODate (date day') (quiet d t z)) = inr K /\
    fst (getDayScheduleByISO K w') = inr (Some (storedDay s day' K)) /\
    (fst (convertToISODate (date day) w') = inr K ->
     fst (getDaySchedule (date day) w') = inr (Some (storedDay s day' K))) /\
    (utcDateString t' = K ->
     fst (getTodaySchedule w') = inr (Some (storedDay s day' K))) /\
    exists l, fst (getAllDaySchedules w') = inr l /\ storedDay s day' K ∈ l.
Proof.
  intros Hall Hin HK. rewrite convertToISODate_run in HK. cbn [fst tz clock quiet] in HK.
  rewrite storeWeekSchedule_quiet, Hall. cbn [fst snd].
  set (D := putLatestUpdate t (putWeek (week s) (weekMetaOf s)
                                 (writeDays s z t (days s) d))).
  change (atClock t' (quiet D t z)) with (quiet D t' z). cbv zeta.
  destruct (writeDays_written z t s (days s) d day K Hall Hin HK)
    as (day' & Hin' & HK' & Hl).
  pose proof (writeDays_index s z t (days s) d day K Hall Hin HK) as Hi.
  split; [reflexivity|]. split.
  { rewrite weekScheduleExists_quiet. cbn [fst]. f_equal.
    apply bool_decide_eq_true_2. unfold D. cbn. rewrite lookup_insert_eq. eauto. }
  split.
  { rewrite dayScheduleExists_quiet. cbn [fst]. f_equal.
    apply bool_decide_eq_true_2. unfold D. cbn. rewrite Hl. eauto. }
  exists day'. split; [exact Hin'|].
  split; [rewrite convertToISODate_run; exact HK'|].
  split; [rewrite getDayScheduleByISO_quiet; cbn [fst]; f_equal; exact Hl|].
  split.
  - rewrite convertToISODate_run, getDaySchedule_quiet. cbn [fst tz clock quiet].
    intros ->. f_equal. exact Hl.
  - split; [intros E; rewrite getTodaySchedule_quiet, E; cbn [fst]; f_equal; exact Hl|].
    apply (getAllDaySchedules_lists D t' z K); [exact Hl|].
    unfold D. cbn. rewrite Hi. eauto.
Qed.

Lemma store_then_lookup_witness :
  let s := weekOf "30/12/2024-05/01/2025"
             [trainingDay "30.12" "Poniedzialek" "Speed";
              restDay "02.01" "Czwartek"] in
  let w' := atClock (JS.utcTime 2025 1 2 8 0 0 0)
              (snd (storeWeekSchedule s
                      (quiet emptyDB (JS.utcTime 2024 12 28 6 0 0 0) 0))) in
  exists day',
    day' ∈ days s /\
    fst (getDaySchedule "02.01" w') = inr (Some (storedDay s day' "2025-01-02")) /\
    fst (getTodaySchedule w') = inr (Some (storedDay s day' "2025-01-02")).
Proof.
  cbv zeta.
  destruct (store_then_lookup
              (weekOf "30/12/2024-05/01/2025"
                 [trainingDay "30.12" "Poniedzialek" "Speed";
                  restDay "02.01" "Czwartek"])
              emptyDB (JS.utcTime 2024 12 28 6 0 0 0) (JS.utcTime 2025 1 2 8 0 0 0) 0
              (restDay "02.01" "Czwartek") "2025-01-02")
    as (_ & _ & _ & day' & Hin & _ & _ & Hget & Htoday & _).
  - reflexivity.
  - apply list_elem_of_further, list_elem_of_here.
  - vm_compute. reflexivity.
  - exists day'. split; [exact Hin|].
    split; [apply Hget|apply Htoday]; vm_compute; reflexivity.
Defined.

(** X16. A submission without days is recorded and reported as failed.
    Without storage faults, the turn of the storing loop for a week
    that is not recorded and has an empty list of days records the week
    and sets the last-update marker, but files the error
    [Failed to store schedule for week ...], because the count returned
    is 0; at any later instant the same submission is filed as skipped. *)
Theorem storeStep_empty_week (s : WeekSchedule) (a : StoreAcc) (d : DB) (t z : Z) :
  days s = [] -> weekRecords d !! week s = None ->
  exists w',
    storeStep s a (quiet d t z) =
      (inr (pushError ("Failed to store schedule for week " ++ week s) a), w') /\
    is_Some (weekRecords (db w') !! week s) /\
    latestUpdate (db w') = Some t /\
    forall a' t', fst (storeStep s a' (atClock t' w')) =
                  inr (pushSkipped (week s) a').
Proof.
  intros Hdays Hnew. rewrite storeStep_quiet.
  assert (Hstep : forall a0, storeStepOn z t (a0, d) s =
            (pushError ("Failed to store schedule for week " ++ week s) a0,
             putLatestUpdate t (putWeek (week s) (weekMetaOf s) d))).
  { intros a0. unfold storeStepOn, recorded, daysStoredOf, storeWeekDB. cbn [fst snd].
    rewrite bool_decide_eq_false_2 by (rewrite Hnew; intros [? ?]; discriminate).
    rewrite Hdays. reflexivity. }
  rewrite Hstep. cbn [fst snd]. eexists. split; [reflexivity|].
  cbn [db quiet weekRecords latestUpdate putLatestUpdate putWeek].
  split; [rewrite lookup_insert_eq; eauto|]. split; [reflexivity|].
  intros a' t'.
  change (atClock t' (quiet ?D t z)) with (quiet D t' z).
  rewrite storeStep_quiet. cbn [fst]. unfold storeStepOn, recorded. cbn [fst snd].
  rewrite bool_decide_eq_true_2; [reflexivity|].
  cbn. rewrite lookup_insert_eq. eauto.
Qed.

Lemma storeStep_empty_week_witness :
  exists w',
    storeStep (weekOf "20/10/2024-26/10/2024" []) noAcc
      (quiet emptyDB (JS.utcTime 2024 10 19 6 0 0 0) 0) =
      (inr (pushError "Failed to store schedule for week 20/10/2024-26/10/2024"
              noAcc), w') /\
    is_Some (weekRecords (db w') !! "20/10/2024-26/10/2024").
Proof.
  destruct (storeStep_empty_week (weekOf "20/10/2024-26/10/2024" []) noAcc emptyDB
              (JS.utcTime 2024 10 19 6 0 0 0) 0 eq_refl eq_refl)
    as (w' & E & Hrec & _).
  exists w'. split; [exact E|exact Hrec].
Defined.



(** X18. Without storage faults an ingestion run keeps the date index
    in step with the day records: if every stored day was indexed
    before the run, every stored day is indexed after it, and
    [getAllDaySchedules] then lists every stored day record. *)
Theorem POST_keeps_days_listed (c : Collaborators) (secret auth : option string)
  (d : DB) (t z : Z) (r : ScrapeResponse) (w' : World) :
  indexed d ->
  POST c secret auth (quiet d t z) = (inr r, w') ->
  indexed (db w') /\
  forall t' K rec,
    dayRecords (db w') !! K = Some rec ->
    exists l, fst (getAllDaySchedules (atClock t' w')) = inr l /\ rec ∈ l.
Proof.
  intros Hidx Hrun.
  assert (Hw : exists D, w' = quiet D t z /\ indexed D).
  { destruct (authorized secret auth) eqn:Hauth.
    - rewrite (POST_quiet c secret auth d t z Hauth) in Hrun. injection Hrun as _ <-.
      eexists. split; [reflexivity|]. apply runOn_indexed, Hidx.
    - rewrite (POST_unauthorized c secret auth _ Hauth) in Hrun. injection Hrun as _ <-.
      exists d. split; [reflexivity|exact Hidx]. }
  destruct Hw as (D & -> & HD). cbn [db quiet]. split; [exact HD|].
  intros t' K rec Hrec. change (atClock t' (quiet D t z)) with (quiet D t' z).
  apply (getAllDaySchedules_lists D t' z K rec Hrec). apply HD. rewrite Hrec. eauto.
Qed.

Lemma POST_keeps_days_listed_witness :
  let w' := snd (POST twoPosts (Some "s3cret") (Some "Bearer s3cret")
                   (quiet emptyDB (JS.utcTime 2024 10 21 6 0 0 0) 0)) in
  indexed (db w').
Proof.
  cbv zeta.
  destruct (POST twoPosts (Some "s3cret") (Some "Bearer s3cret")
              (quiet emptyDB (JS.utcTime 2024 10 21 6 0 0 0) 0))
    as [[e|r] w'] eqn:E; [vm_compute in E; discriminate E|].
  cbn [snd].
  apply (POST_keeps_days_listed twoPosts (Some "s3cret") (Some "Bearer s3cret")
           emptyDB (JS.utcTime 2024 10 21 6 0 0 0) 0 r w'); [|exact E].
  intros K [x Hx]. cbn in Hx. rewrite lookup_empty in Hx. discriminate Hx.
Defined.

(** X19. The order of [getAllDaySchedules].  Without storage faults the
    records are listed along the index entries taken by descending
    score and, for equal scores, descending date string; each indexed
    date is visited once and dates without a record are left out.  The
    list route answers with that list and status 200. *)
Theorem getAllDaySchedules_order (d : DB) (t z : Z) :
  exists keys : list (string * Z),
    keys ≡ₚ map_to_list (daysList d) /\
    Sorted (flip zleP) keys /\ NoDup keys.*1 /\
    fst (getAllDaySchedules (quiet d t z)) =
      inr (omap (fun k => dayRecords d !! k.1) keys) /\
    GET_all (quiet d t z) =
      (inr {| list_status := 200;
              list_body := ListJson (omap (fun k => dayRecords d !! k.1) keys) |},
       quiet d t z).
Proof.
  exists (reverse (zsort (map_to_list (daysList d)))).
  assert (E : omap (fun iso => dayRecords d !! iso) (zrangeAll true (daysList d)) =
              omap (fun k => dayRecords d !! k.1)
                (reverse (zsort (map_to_list (daysList d))))).
  { unfold zrangeAll. rewrite <- fmap_reverse.
    apply (omap_fmap_fst (fun iso => dayRecords d !! iso)). }
  split; [rewrite reverse_Permutation; apply zsort_perm|].
  split; [apply Sorted_reverse, zsort_sorted|].
  split; [rewrite reverse_Permutation, zsort_perm; apply NoDup_fst_map_to_list|].
  split.
  - rewrite getAllDaySchedules_quiet. cbn [fst]. f_equal. exact E.
  - unfold GET_all, try, bind. rewrite getAllDaySchedules_quiet, E. reflexivity.
Qed.

(** X20. The log of a run.  Without storage faults an authorized run
    writes its report into the run log under the UTC date of the run,
    replacing the log of an earlier run of that day, and writes under no
    other date.  The log carries the skip reason exactly when the run
    was skipped. *)
Theorem POST_logs_report (c : Collaborators) (secret auth : option string)
  (d : DB) (t z : Z) (r : ScrapeResponse) (w' : World) :
  authorized secret auth = true ->
  POST c secret auth (quiet d t z) = (inr r, w') ->
  exists res l,
    report r = Some res /\
    scrapingLogs (db w') !! utcDateString t = Some l /\
    log_result l = res /\
    (is_Some (log_skip l) <-> exists why ahead, body r = Skipped res why ahead) /\
    forall K, K <> utcDateString t ->
              scrapingLogs (db w') !! K = scrapingLogs d !! K.
Proof.
  intros Hauth Hrun. rewrite (POST_quiet c secret auth d t z Hauth) in Hrun.
  injection Hrun as <- <-. cbn [db quiet].
  destruct (runOn_log c d t z) as (res & l & Hrep & Hlogs & Hres & Hskip).
  exists res, l. split; [exact Hrep|]. rewrite Hlogs.
  split; [apply lookup_insert_eq|]. split; [exact Hres|]. split; [exact Hskip|].
  intros K HK. apply lookup_insert_ne. congruence.
Qed.

Lemma POST_logs_report_witness :
  let t := JS.utcTime 2024 10 21 23 30 0 0 in
  let w' := snd (POST silentSource (Some "s3cret") (Some "Bearer s3cret")
                   (quiet emptyDB t (2 * 3600000))) in
  exists l, scrapingLogs (db w') !! "2024-10-21" = Some l /\
            errors (log_result l) = ["No blog posts found"].
Proof.
  cbv zeta.
  destruct (POST silentSource (Some "s3cret") (Some "Bearer s3cret")
              (quiet emptyDB (JS.utcTime 2024 10 21 23 30 0 0) (2 * 3600000)))
    as [[e|r] w'] eqn:E; [vm_compute in E; discriminate E|].
  cbn [snd].
  destruct (POST_logs_report silentSource (Some "s3cret") (Some "Bearer s3cret")
              emptyDB (JS.utcTime 2024 10 21 23 30 0 0) (2 * 3600000) r w'
              eq_refl E) as (res & l & Hrep & Hl & Hres & _).
  exists l. split; [exact Hl|]. rewrite Hres.
  vm_compute in E. injection E as <- _. cbn in Hrep. injection Hrep as <-. reflexivity.
Defined.

(** X21. The keys of the five families of the storage layout are never
    equal to each other, whatever date, week or day they are built
    from, and the key of a family determines what it was built from: a
    write under one key never replaces a value of another. *)
Theorem storage_keys_never_collide (a b : string) :
  dayKey a <> weekKey b /\ dayKey a <> logKey b /\ weekKey a <> logKey b /\
  dayKey a <> daysListKey /\ weekKey a <> daysListKey /\ logKey a <> daysListKey /\
  dayKey a <> latestUpdateKey /\ weekKey a <> latestUpdateKey /\
  logKey a <> latestUpdateKey /\ daysListKey <> latestUpdateKey /\
  (dayKey a = dayKey b -> a = b) /\ (weekKey a = weekKey b -> a = b) /\
  (logKey a = logKey b -> a = b).
Proof.
  repeat split; intros H; cbv in H; try discriminate H; injection H as H; exact H.
Qed.

Lemma storage_keys_never_collide_witness :
  dayKey "2024-10-20" = "schedules:day:2024-10-20" /\ "2024-10-20" = "2024-10-20".
Proof.
  split; [reflexivity|].
  destruct (storage_keys_never_collide "2024-10-20" "2024-10-20")
    as (_ & _ & _ & _ & _ & _ & _ & _ & _ & _ & Hday & _).
  apply Hday. reflexivity.
Defined.

(** ** The freshness decision and the by-date route *)

(** X22. What a skip means for the store.  Whenever the freshness
    decision says skip, the date index holds a date that parses to an
    instant more than thirteen days after the local midnight of today,
    and the last-update marker is set, not zero and less than five days
    old.  When the two reads of the decision succeed, these two
    conditions are also sufficient. *)
Theorem shouldSkipScraping_store_condition (w : World) :
  (forall sc, fst (shouldSkipScraping w) = inr sc -> shouldSkip sc = true ->
     (exists K m, is_Some (daysList (db w) !! K) /\ JS.parseDate K = Some m /\
                  13 * JS.msPerDay < m - JS.setHours0 (tz w) (clock w)) /\
     (exists u, latestUpdate (db w) = Some u /\ u <> 0 /\
                clock w - u < 5 * JS.msPerDay)) /\
  (faults w !! 0%nat <> Some true -> faults w !! 1%nat <> Some true ->
   (exists K m, is_Some (daysList (db w) !! K) /\ JS.parseDate K = Some m /\
                13 * JS.msPerDay < m - JS.setHours0 (tz w) (clock w)) ->
   (exists u, latestUpdate (db w) = Some u /\ u <> 0 /\
              clock w - u < 5 * JS.msPerDay) ->
   exists sc, fst (shouldSkipScraping w) = inr sc /\ shouldSkip sc = true).
Proof.
  rewrite shouldSkipScraping_outcome. split.
  - intros sc [= <-] Hskip. destruct (skipOutcome_true w Hskip) as [Hfar Hrec].
    split.
    + apply daysAheadOf_far in Hfar as (K & m & Hin & Hp & H).
      exists K, m. split; [apply (zrangeAll_members false), Hin|]. auto.
    + apply daysSinceUpdateOf_recent, Hrec.
  - intros H0 H1 (K & m & Hin & Hp & H) Hrec. eexists. split; [reflexivity|].
    apply (skipOutcome_reads_succeed w H0 H1).
    + apply daysAheadOf_far. exists K, m.
      split; [apply (zrangeAll_members false), Hin|]. auto.
    + apply daysSinceUpdateOf_recent, Hrec.
Qed.

Lemma shouldSkipScraping_store_condition_witness :
  let now := JS.utcTime 2024 10 21 23 0 0 0 in
  let w := quiet (storeUpTo "2024-11-04" (now - JS.msPerDay)) now (2 * 3600000) in
  exists sc, fst (shouldSkipScraping w) = inr sc /\ shouldSkip sc = true.
Proof.
  cbv zeta.
  apply (proj2 (shouldSkipScraping_store_condition
                  (quiet (storeUpTo "2024-11-04"
                            (JS.utcTime 2024 10 21 23 0 0 0 - JS.msPerDay))
                     (JS.utcTime 2024 10 21 23 0 0 0) (2 * 3600000)))).
  - discriminate.
  - discriminate.
  - exists "2024-11-04", (JS.utcTime 2024 11 4 0 0 0 0).
    split; [vm_compute; eauto|]. split; [vm_compute; reflexivity|].
    vm_compute. reflexivity.
  - exists (JS.utcTime 2024 10 21 23 0 0 0 - JS.msPerDay).
    split; [reflexivity|]. split; [vm_compute; discriminate|vm_compute; reflexivity].
Defined.

(** X23. The by-date route.  The strings it accepts are exactly the
    partial dates [DD.MM] with day and month from 00 to 99; every other
    string is answered with status 400 without a read.  For an accepted
    date, without storage faults, the answer has status 200 and carries
    the record stored under the canonical date of that day and month in
    the year the Date Normalizer assigns at the instant of the request,
    or [null] when there is none; the store is left as it was. *)
Theorem GET_date_lookup (s : string) (w : World) :
  (datePattern s = true <->
   exists day month, 0 <= day <= 99 /\ 0 <= month <= 99 /\ s = partialDate day month) /\
  (datePattern s = false ->
   GET_date s w =
     (inr {| get_status := 400;
             get_body := GetError "Nieprawidlowy format daty. Uzyj formatu DD.MM" |},
      w)) /\
  (forall day month d t z,
     0 <= day <= 99 -> 0 <= month <= 99 ->
     GET_date (partialDate day month) (quiet d t z) =
       (inr {| get_status := 200;
               get_body :=
                 GetJson (dayRecords d !!
                            canonical (normalizedYear (JS.getFullYear z t)
                                         (JS.getMonth z t + 1) month) month day) |},
        quiet d t z)).
Proof.
  split; [apply datePattern_partialDate|]. split.
  - intros H. unfold GET_date, try. rewrite H. reflexivity.
  - intros day month d t z Hday Hmonth.
    assert (Hp : datePattern (partialDate day month) = true)
      by (apply datePattern_partialDate; eauto).
    unfold GET_date, try, bind. rewrite Hp. cbn [negb].
    unfold getDaySchedule, try, bind.
    rewrite (convertToISODate_partial _ day month Hday Hmonth).
    rewrite getDayScheduleByISO_quiet. reflexivity.
Qed.

Lemma GET_date_lookup_witness :
  GET_date (partialDate 30 12)
    (quiet (putDay "2024-12-30" (restDay "30.12" "Poniedzialek") emptyDB)
       (JS.utcTime 2025 1 3 12 0 0 0) 0) =
  (inr {| get_status := 200;
          get_body := GetJson (Some (restDay "30.12" "Poniedzialek")) |},
   quiet (putDay "2024-12-30" (restDay "30.12" "Poniedzialek") emptyDB)
     (JS.utcTime 2025 1 3 12 0 0 0) 0).
Proof.
  rewrite (proj2 (proj2 (GET_date_lookup "" (quiet emptyDB 0 0))) 30 12
             (putDay "2024-12-30" (restDay "30.12" "Poniedzialek") emptyDB)
             (JS.utcTime 2025 1 3 12 0 0 0) 0 ltac:(lia) ltac:(lia)).
  vm_compute. reflexivity.
Defined.

(** X24. The year written in a date is not read.  Of a date with more
    than two parts separated by dots the Date Normalizer reads the first
    two only: [DD.MM.rest] converts as [DD.MM] does, to the year the
    normalizer assigns at the instant of the call.  So [30.12.2024],
    read on 3 January 2026, becomes 2025-12-30. *)
Theorem convertToISODate_ignores_year_part (w : World) (a b rest : string) :
  noChar "." a = true -> noChar "." b = true ->
  convertToISODate (a ++ "." ++ b ++ "." ++ rest) w =
  convertToISODate (a ++ "." ++ b) w.
Proof.
  intros Ha Hb. rewrite !convertToISODate_run.
  rewrite (normalize_ignores_rest _ _ a b rest Ha Hb). reflexivity.
Qed.

Lemma convertToISODate_ignores_year_part_witness :
  fst (convertToISODate ("30" ++ "." ++ "12" ++ "." ++ "2024")
         (quiet emptyDB (JS.utcTime 2026 1 3 12 0 0 0) 0)) = inr "2025-12-30".
Proof.
  rewrite (convertToISODate_ignores_year_part
             (quiet emptyDB (JS.utcTime 2026 1 3 12 0 0 0) 0) "30" "12" "2024"
             eq_refl eq_refl).
  vm_compute. reflexivity.
Defined.

(** X25. A fresh store makes the next run skip.  Without storage faults,
    once [storeWeekSchedule] has stored a submission whose dates all
    have a dot, one of them under a canonical date that parses to an
    instant more than thirteen days after the local midnight of a later
    instant [t'], and [t'] is less than five days after the store, the
    freshness decision at [t'] says skip and an authorized ingestion run
    at [t'] is answered as skipped. *)
Theorem fresh_store_skips_next_run (c : Collaborators)
  (secret auth : option string) (s : WeekSchedule) (d : DB) (t t' z : Z)
  (day : DaySchedule) (K : string) (m : Z) :
  authorized secret auth = true ->
  allDotted (days s) = true -> day ∈ days s ->
  fst (convertToISODate (date day) (quiet d t z)) = inr K ->
  JS.parseDate K = Some m -> 13 * JS.msPerDay < m - JS.setHours0 z t' ->
  t <> 0 -> t' - t < 5 * JS.msPerDay ->
  let w' := atClock t' (snd (storeWeekSchedule s (quiet d t z))) in
  (exists sc, fst (shouldSkipScraping w') = inr sc /\ shouldSkip sc = true) /\
  exists res why ahead w'',
    POST c secret auth w' =
      (inr {| status := 200; body := Skipped res why ahead |}, w'') /\
    success res = true /\ schedulesProcessed res = 0%nat.
Proof.
  intros Hauth Hall Hin HK Hp Hfar Ht Hrecent.
  rewrite convertToISODate_run in HK. cbn [fst tz clock quiet] in HK.
  rewrite storeWeekSchedule_quiet, Hall. cbn [snd].
  set (D := putLatestUpdate t (putWeek (week s) (weekMetaOf s)
                                 (writeDays s z t (days s) d))).
  change (atClock t' (quiet D t z)) with (quiet D t' z). cbv zeta.
  assert (Hskip : shouldSkip (skipOutcome (quiet D t' z)) = true).
  { apply skipOutcome_reads_succeed; [discriminate|discriminate| |].
    - apply daysAheadOf_far. exists K, m. split; [|auto].
      apply zrangeAll_members. cbn [db quiet]. unfold D. cbn.
      rewrite (writeDays_index s z t (days s) d day K Hall Hin HK). eauto.
    - apply daysSinceUpdateOf_recent. exists t. cbn. auto. }
  split.
  - rewrite shouldSkipScraping_outcome. eauto.
  - rewrite (POST_quiet c secret auth D t' z Hauth). unfold runOn. rewrite Hskip.
    cbn [fst snd]. eexists; eexists; eexists; eexists.
    split; [reflexivity|]. split; reflexivity.
Qed.

Lemma fresh_store_skips_next_run_witness :
  let s := weekOf "04/11/2024-10/11/2024" [trainingDay "04.11" "Poniedzialek" "Speed"] in
  let w' := atClock (JS.utcTime 2024 10 21 6 0 0 0)
              (snd (storeWeekSchedule s
                      (quiet emptyDB (JS.utcTime 2024 10 20 6 0 0 0) 0))) in
  exists sc, fst (shouldSkipScraping w') = inr sc /\ shouldSkip sc = true.
Proof.
  cbv zeta.
  apply (fresh_store_skips_next_run silentSource (Some "s3cret")
           (Some "Bearer s3cret")
           (weekOf "04/11/2024-10/11/2024"
              [trainingDay "04.11" "Poniedzialek" "Speed"])
           emptyDB (JS.utcTime 2024 10 20 6 0 0 0) (JS.utcTime 2024 10 21 6 0 0 0) 0
           (trainingDay "04.11" "Poniedzialek" "Speed") "2024-11-04"
           (JS.utcTime 2024 11 4 0 0 0 0)).
  - reflexivity.
  - reflexivity.
  - apply list_elem_of_here.
  - vm_compute. reflexivity.
  - vm_compute. reflexivity.
  - vm_compute. reflexivity.
  - vm_compute. discriminate.
  - vm_compute. reflexivity.
Defined.
